(** * bitcoin-etl-airflow: the load pipeline of [dags/bitcoinetl/build_load_dag.py]

    A shallow embedding of the load DAG builder, of its file helpers
    ([read_file], [read_bigquery_schema_from_file],
    [read_bigquery_schema_from_json_recursive]), of [submit_bigquery_job] and
    of the task callables ([load_task], [enrich_table], [enrich_view]).

    Python values are modelled as follows.
    - [str] is [string]; [str.replace], [str.lower], [str.format] and
      [os.path.join] are written out below.
    - An exception is a value of [exn]; a computation that can raise returns a
      [result].
    - The dictionary [environment] is an association list in insertion order,
      which is the order [dict.items()] iterates in.
    - What the BigQuery service, the clock and the file system answer is not
      code of the repository: it is collected in a record [world], and every
      call made to the BigQuery client is appended to a trace of
      [operation]s. *)

From Stdlib Require Import String Ascii List ZArith Lia Bool.
From Stdlib Require Import DecimalString.
From Stdlib Require DecimalPos DecimalZ.
Import ListNotations.
Open Scope string_scope.

Set Warnings "-register-all".

(** ** Exceptions and results *)

Inductive exn : Type :=
| IOError            (* open() on a missing file *)
| JSONDecodeError    (* json.loads *)
| AttributeError     (* a method looked up on a value that lacks it *)
| TypeError          (* iteration over a value that is not iterable *)
| AssertionError     (* a failed assert statement *)
| ValueError         (* str.format: malformed format string *)
| KeyError           (* str.format: unknown keyword *)
| IndexError         (* str.format: positional field without argument *)
| GoogleAPIError     (* raised by the BigQuery client *)
| AirflowSensorTimeout. (* a sensor whose timeout has elapsed *)

Inductive result (A : Type) : Type :=
| Ok (a : A)
| Raise (e : exn).
Arguments Ok {A} a.
Arguments Raise {A} e.

Definition is_ok {A} (r : result A) : bool :=
  match r with Ok _ => true | Raise _ => false end.

(** ** Strings *)

Module Str.

(** [s[n:]] *)
Fixpoint drop (n : nat) (s : string) : string :=
  match n, s with
  | O, _ => s
  | S _, EmptyString => EmptyString
  | S k, String _ s' => drop k s'
  end.

(** [s.endswith(suffix)] *)
Definition endswith (s suffix : string) : bool :=
  prefix suffix (drop (String.length s - String.length suffix) s)
  && (String.length suffix <=? String.length s)%nat.

(** [str.lower] on the ASCII letters.  The only use in the source compares
    the result with ['record']; no character outside ASCII lowers to an ASCII
    letter of that word, so the bytes of other characters are left alone. *)
Definition lower_ascii (c : ascii) : ascii :=
  let n := nat_of_ascii c in
  if ((65 <=? n) && (n <=? 90))%nat then ascii_of_nat (n + 32) else c.

Fixpoint lower (s : string) : string :=
  match s with
  | EmptyString => EmptyString
  | String c s' => String (lower_ascii c) (lower s')
  end.

(** [str.replace(old, new)] for a non-empty [old]: scan from the left; where
    [old] starts, emit [new] and pass over the [length old] characters of the
    occurrence (the counter [skip] holds how many of them are still to be
    passed over); elsewhere copy the character. *)
Fixpoint replace_from (old new : string) (skip : nat) (s : string) : string :=
  match s with
  | EmptyString => EmptyString
  | String c s' =>
      match skip with
      | S k => replace_from old new k s'
      | O =>
          if prefix old s
          then new ++ replace_from old new (String.length old - 1) s'
          else String c (replace_from old new 0 s')
      end
  end.

(** [str.replace] with an empty [old] puts [new] before every character
    and at the end. *)
Fixpoint intersperse (new s : string) : string :=
  match s with
  | EmptyString => new
  | String c s' => new ++ String c (intersperse new s')
  end.

Definition replace (old new s : string) : string :=
  match old with
  | EmptyString => intersperse new s
  | String _ _ => replace_from old new 0 s
  end.

(** [str(n)] for an integer. *)
Definition of_Z (n : Z) : string := NilZero.string_of_int (Z.to_int n).

End Str.

(** [os.path.join(a, b)] of posixpath, for two components. *)
Definition path_join (a b : string) : string :=
  if prefix "/" b then b
  else if (a =? EmptyString) || Str.endswith a "/" then a ++ b
  else a ++ "/" ++ b.

(** ** [read_file] *)

Definition filesystem : Type := string -> option string.
Definition environment_t : Type := list (string * string).

(** ['{{{{{key}}}}}'.format(key=key)] *)
Definition placeholder (key : string) : string := "{{" ++ key ++ "}}".

(** The loop [for key, value in environment.items(): content =
    content.replace(placeholder, value)]. *)
Fixpoint substitute (environment : environment_t) (content : string) : string :=
  match environment with
  | [] => content
  | (key, value) :: rest =>
      substitute rest (Str.replace (placeholder key) value content)
  end.

Definition read_file (fs : filesystem) (filepath : string)
    (environment : option environment_t) : result string :=
  let environment := match environment with None => [] | Some e => e end in
  match fs filepath with
  | None => Raise IOError
  | Some content => Ok (substitute environment content)
  end.

(** *** The substitution the specification describes

    One pass over the text: where the placeholder of a declared key starts,
    its value is emitted and the placeholder passed over; every other
    character is copied.  Nothing that was emitted is read again. *)

Fixpoint declared_at (environment : environment_t) (s : string)
  : option (string * string) :=
  match environment with
  | [] => None
  | (key, value) :: rest =>
      if prefix (placeholder key) s then Some (key, value)
      else declared_at rest s
  end.

Fixpoint substitute_spec_from (environment : environment_t) (skip : nat)
    (s : string) : string :=
  match s with
  | EmptyString => EmptyString
  | String c s' =>
      match skip with
      | S k => substitute_spec_from environment k s'
      | O =>
          match declared_at environment s with
          | Some (key, value) =>
              value ++ substitute_spec_from environment
                         (String.length (placeholder key) - 1) s'
          | None => String c (substitute_spec_from environment 0 s')
          end
      end
  end.

Definition substitute_spec (environment : environment_t) (content : string)
  : string :=
  substitute_spec_from environment 0 content.

(** *** Templates as sequences of text and placeholders *)

Inductive segment : Type :=
| Lit (text : string)
| Tok (key : string).

Definition is_brace (c : ascii) : bool :=
  Ascii.eqb c "{"%char || Ascii.eqb c "}"%char.

Fixpoint brace_free (s : string) : bool :=
  match s with
  | EmptyString => true
  | String c s' => negb (is_brace c) && brace_free s'
  end.

Definition segment_ok (g : segment) : bool :=
  match g with Lit t => brace_free t | Tok k => brace_free k end.

Definition render (g : segment) : string :=
  match g with Lit t => t | Tok k => placeholder k end.

Fixpoint render_all (gs : list segment) : string :=
  match gs with
  | [] => EmptyString
  | g :: gs' => render g ++ render_all gs'
  end.

(** The value bound to [key], as [dict] lookup on the insertion-ordered
    list. *)
Fixpoint assoc (key : string) (environment : environment_t) : option string :=
  match environment with
  | [] => None
  | (k, v) :: rest => if k =? key then Some v else assoc key rest
  end.

Definition expand (environment : environment_t) (g : segment) : string :=
  match g with
  | Lit t => t
  | Tok k => match assoc k environment with
             | Some v => v
             | None => placeholder k
             end
  end.

Fixpoint expand_all (environment : environment_t) (gs : list segment) : string :=
  match gs with
  | [] => EmptyString
  | g :: gs' => expand environment g ++ expand_all environment gs'
  end.

Definition environment_ok (environment : environment_t) : bool :=
  forallb (fun kv => brace_free (fst kv) && brace_free (snd kv)) environment.

(** One step of the loop of [read_file] seen on a template: the placeholders
    of [key] become text. *)
Definition fill (key value : string) (g : segment) : segment :=
  match g with
  | Lit t => Lit t
  | Tok k => if key =? k then Lit value else Tok k
  end.

Fixpoint no_open (s : string) : bool :=
  match s with
  | EmptyString => true
  | String c s' => negb (Ascii.eqb c "{"%char) && no_open s'
  end.

(** ** JSON values and the schema loader *)

(** What [json.loads] returns.  Numbers are kept as integers: the loader
    only tests a number for truth. *)
Inductive json : Type :=
| JNull
| JBool (b : bool)
| JNumber (n : Z)
| JString (s : string)
| JArray (items : list json)
| JObject (members : list (string * json)).

(** [d.get(key)] on the members of an object; [None] is Python's [None]
    answer for a missing key. *)
Fixpoint get (key : string) (members : list (string * json)) : option json :=
  match members with
  | [] => None
  | (k, v) :: rest => if k =? key then Some v else get key rest
  end.

(** [d.get(key)]: a missing key gives [None], which is also what JSON [null]
    is loaded as. *)
Definition get_none (key : string) (members : list (string * json)) : json :=
  match get key members with Some v => v | None => JNull end.

(** [d.get(key, default)] *)
Definition get_default (key : string) (default : json)
    (members : list (string * json)) : json :=
  match get key members with Some v => v | None => default end.

(** Truth value of a loaded JSON value in an [and] or [if]. *)
Definition truthy (v : json) : bool :=
  match v with
  | JNull => false
  | JBool b => b
  | JNumber n => negb (n =? 0)%Z
  | JString s => negb (s =? EmptyString)
  | JArray items => match items with [] => false | _ => true end
  | JObject members => match members with [] => false | _ => true end
  end.

(** [google.cloud.bigquery.SchemaField]: the constructor stores its
    arguments. *)
Inductive SchemaField : Type :=
| mkSchemaField (name field_type mode description : json)
                (fields : list SchemaField).

Definition sf_name (f : SchemaField) : json :=
  match f with mkSchemaField n _ _ _ _ => n end.
Definition sf_field_type (f : SchemaField) : json :=
  match f with mkSchemaField _ t _ _ _ => t end.
Definition sf_mode (f : SchemaField) : json :=
  match f with mkSchemaField _ _ m _ _ => m end.
Definition sf_description (f : SchemaField) : json :=
  match f with mkSchemaField _ _ _ d _ => d end.
Definition sf_fields (f : SchemaField) : list SchemaField :=
  match f with mkSchemaField _ _ _ _ fs => fs end.

(** [field.get('type').lower() == 'record'], which raises [AttributeError]
    unless [field.get('type')] is a string. *)
Definition type_is_record (members : list (string * json)) : result bool :=
  match get "type" members with
  | Some (JString ty) => Ok (Str.lower ty =? "record")
  | _ => Raise AttributeError
  end.

(** [read_bigquery_schema_from_json_recursive].

    The [for] loop iterates over [json_schema]: over the items of a list, over
    the keys of a dictionary and over the characters of a string (so an empty
    dictionary or string makes no iteration, and any key or character, being
    a string, has no [get]); any other value is not iterable.  In the loop
    body [field.get] needs [field] to be a dictionary.  The recursive call is
    on the value of the key ['fields']; [nested] looks that key up the way
    [get] does and makes the call where the value is found. *)
Fixpoint read_bigquery_schema_from_json_recursive (json_schema : json)
  : result (list SchemaField) :=
  match json_schema with
  | JArray items =>
      (fix loop (items : list json) : result (list SchemaField) :=
         match items with
         | [] => Ok []
         | field :: rest =>
             match field with
             | JObject members =>
                 match type_is_record members with
                 | Raise e => Raise e
                 | Ok is_record =>
                     let build children :=
                       mkSchemaField (get_none "name" members)
                         (get_default "type" (JString "STRING") members)
                         (get_default "mode" (JString "NULLABLE") members)
                         (get_none "description" members)
                         children in
                     let nested :=
                       (fix nested (ms : list (string * json))
                          : result (list SchemaField) :=
                          match ms with
                          | [] => Ok []
                          | (k, v) :: ms' =>
                              if k =? "fields"
                              then read_bigquery_schema_from_json_recursive v
                              else nested ms'
                          end) members in
                     let schema :=
                       if is_record && truthy (get_none "fields" members)
                       then match nested with
                            | Ok children => Ok (build children)
                            | Raise e => Raise e
                            end
                       else Ok (build []) in
                     match schema with
                     | Raise e => Raise e
                     | Ok schema =>
                         match loop rest with
                         | Ok result => Ok (schema :: result)
                         | Raise e => Raise e
                         end
                     end
                 end
             | _ => Raise AttributeError
             end
         end) items
  | JObject [] => Ok []
  | JObject (_ :: _) => Raise AttributeError
  | JString EmptyString => Ok []
  | JString (String _ _) => Raise AttributeError
  | JNull | JBool _ | JNumber _ => Raise TypeError
  end.

(** The body of the loop for one field object, with the recursive call
    written as in the source ([schema_of_field_eq] below relates it to the
    definition above). *)
Definition schema_of_field (members : list (string * json))
  : result SchemaField :=
  match type_is_record members with
  | Raise e => Raise e
  | Ok is_record =>
      let build children :=
        mkSchemaField (get_none "name" members)
          (get_default "type" (JString "STRING") members)
          (get_default "mode" (JString "NULLABLE") members)
          (get_none "description" members)
          children in
      if is_record && truthy (get_none "fields" members)
      then match read_bigquery_schema_from_json_recursive
                   (get_none "fields" members) with
           | Ok children => Ok (build children)
           | Raise e => Raise e
           end
      else Ok (build [])
  end.

Fixpoint json_size (j : json) : nat :=
  match j with
  | JArray items =>
      S ((fix sum (l : list json) : nat :=
            match l with
            | [] => 0
            | x :: r => json_size x + sum r
            end) items)
  | JObject members =>
      S ((fix sum (l : list (string * json)) : nat :=
            match l with
            | [] => 0
            | (_, v) :: r => json_size v + sum r
            end) members)
  | _ => 1
  end.

(** [read_bigquery_schema_from_file]; [json_loads] stands for [json.loads]. *)
Definition read_bigquery_schema_from_file
    (json_loads : string -> result json) (fs : filesystem) (filepath : string)
  : result (list SchemaField) :=
  match read_file fs filepath None with
  | Raise e => Raise e
  | Ok file_content =>
      match json_loads file_content with
      | Raise e => Raise e
      | Ok json_content => read_bigquery_schema_from_json_recursive json_content
      end
  end.

(** *** What the specification says of the loader's result *)

(** A field object as the specification's data model has it: an object whose
    [type] is a string and whose nested fields, where the loader descends
    into them, are again a sequence of such objects. *)
Inductive field_object : json -> Prop :=
| field_object_intro members ty :
    get "type" members = Some (JString ty) ->
    ((Str.lower ty =? "record") && truthy (get_none "fields" members) = true ->
     schema_description (get_none "fields" members)) ->
    field_object (JObject members)
with schema_description : json -> Prop :=
| schema_description_intro items :
    Forall field_object items ->
    schema_description (JArray items).

(** [parsed_as field f]: [f] is the Schema Field of the field object
    [field]; the children of a RECORD with a non-empty nested list are, in
    order, the Schema Fields of the nested field objects, and every other
    field has none. *)
Inductive parsed_as : json -> SchemaField -> Prop :=
| parsed_record members ty nested children :
    get "type" members = Some (JString ty) ->
    (Str.lower ty =? "record") = true ->
    get "fields" members = Some (JArray nested) ->
    nested <> [] ->
    Forall2 parsed_as nested children ->
    parsed_as (JObject members)
      (mkSchemaField (get_none "name" members) (JString ty)
         (get_default "mode" (JString "NULLABLE") members)
         (get_none "description" members) children)
| parsed_terminal members ty :
    get "type" members = Some (JString ty) ->
    (Str.lower ty =? "record") && truthy (get_none "fields" members) = false ->
    parsed_as (JObject members)
      (mkSchemaField (get_none "name" members) (JString ty)
         (get_default "mode" (JString "NULLABLE") members)
         (get_none "description" members) []).

(** The data model's invariant on one Schema Field: nested fields are
    non-empty exactly when the type is RECORD. *)
Definition is_record_type (t : json) : bool :=
  match t with JString ty => Str.lower ty =? "record" | _ => false end.

Definition nested_iff_record (f : SchemaField) : Prop :=
  sf_fields f <> [] <-> is_record_type (sf_field_type f) = true.

(** ** The task graph *)

(** The two closures handed to [PythonOperator], with the variables they
    capture from their enclosing [add_load_tasks] or [add_enrich_tasks]. *)
Inductive python_callable : Type :=
| load_task (task file_format : string) (allow_quoted_newlines : bool)
| enrich_task (task : string) (time_partitioning_field : option string)
              (is_view : bool).

Inductive operator : Type :=
| GoogleCloudStorageObjectSensor (timeout poke_interval : Z)
                                 (bucket object : string)
| PythonOperator (callable : python_callable) (execution_timeout_minutes : Z)
| BigQueryOperator (sql : string) (use_legacy_sql : bool).

Record Task : Type := mkTask {
  task_id : string;
  task_operator : operator
}.

(** A DAG: its tasks in the order they were created with [dag=dag], and the
    edges [upstream >> downstream] in the order they were declared. *)
Record DAG : Type := mkDAG {
  dag_id : string;
  schedule_interval : string;
  tasks : list Task;
  edges : list (string * string)
}.

Definition task_ids (dag : DAG) : list string := map task_id (tasks dag).

Definition has_task (dag : DAG) (id : string) : bool :=
  existsb (String.eqb id) (task_ids dag).

(** A load task: a [PythonOperator] whose callable is a [load_task]. *)
Definition is_load_task (t : Task) : bool :=
  match task_operator t with
  | PythonOperator (load_task _ _ _) _ => true
  | _ => false
  end.

(** The declared dependencies of a task: the upstream ends of its edges. *)
Definition upstream (dag : DAG) (id : string) : list string :=
  map fst (filter (fun e => snd e =? id) (edges dag)).

(** [path dag a b]: a chain of one or more edges leads from [a] to [b]. *)
Inductive path (dag : DAG) : string -> string -> Prop :=
| path_edge a b : In (a, b) (edges dag) -> path dag a b
| path_step a b c : path dag a b -> In (b, c) (edges dag) -> path dag a c.

(** Building a DAG: the DAG under construction is threaded through, and
    reading a file can raise. *)
Definition builder (A : Type) : Type := DAG -> result (A * DAG).

Definition bret {A} (a : A) : builder A := fun dag => Ok (a, dag).

Definition bbind {A B} (m : builder A) (k : A -> builder B) : builder B :=
  fun dag =>
    match m dag with
    | Ok (a, dag') => k a dag'
    | Raise e => Raise e
    end.

Definition blift {A} (r : result A) : builder A :=
  fun dag => match r with Ok a => Ok (a, dag) | Raise e => Raise e end.

Declare Scope builder_scope.
Delimit Scope builder_scope with builder.
Notation "x <- m ;; k" := (bbind m (fun x => k))
  (at level 61, m at next level, right associativity) : builder_scope.

(** An operator constructed with [dag=dag] is added to the DAG. *)
Definition new_task (id : string) (o : operator) : builder Task :=
  fun dag =>
    let t := mkTask id o in
    Ok (t, mkDAG (dag_id dag) (schedule_interval dag) (tasks dag ++ [t])
                 (edges dag)).

(** [a >> b] *)
Definition set_downstream (a b : Task) : builder unit :=
  fun dag =>
    Ok (tt, mkDAG (dag_id dag) (schedule_interval dag) (tasks dag)
                  (edges dag ++ [(task_id a, task_id b)])).

(** [if dependencies is not None and len(dependencies) > 0:
       for dependency in dependencies: dependency >> t] *)
Fixpoint depend_on (dependencies : list Task) (t : Task) : builder unit :=
  match dependencies with
  | [] => bret tt
  | dependency :: rest =>
      (_ <- set_downstream dependency t ;; depend_on rest t)%builder
  end.

Definition add_dependencies (dependencies : option (list Task)) (t : Task)
  : builder unit :=
  match dependencies with
  | None => bret tt
  | Some ds => depend_on ds t
  end.

(** The arguments of [build_load_dag] that shape the task graph and the
    table references, and the [dags_folder] read from the process
    environment. *)
Record config : Type := mkConfig {
  cfg_dag_id : string;
  output_bucket : string;
  destination_dataset_project_id : string;
  chain : string;
  cfg_schedule_interval : string;
  dags_folder : string
}.

Section Pipeline.

Variable cfg : config.

Definition dataset_name : string := chain cfg ++ "_blockchain".
Definition dataset_name_raw : string := chain cfg ++ "_blockchain_raw".
Definition dataset_name_temp : string := chain cfg ++ "_blockchain_temp".

Definition environment : environment_t :=
  [ ("dataset_name", dataset_name);
    ("dataset_name_raw", dataset_name_raw);
    ("dataset_name_temp", dataset_name_temp);
    ("destination_dataset_project_id", destination_dataset_project_id cfg) ].

Definition resource (dir task ext : string) : string :=
  path_join (dags_folder cfg) (dir ++ task ++ ext).

Definition raw_schema_path (task : string) : string :=
  resource "resources/stages/raw/schemas/" task ".json".
Definition enrich_description_path (task : string) : string :=
  resource "resources/stages/enrich/descriptions/" task ".txt".
Definition enrich_schema_path (task : string) : string :=
  resource "resources/stages/enrich/schemas/" task ".json".
Definition enrich_sql_path (task : string) : string :=
  resource "resources/stages/enrich/sqls/" task ".sql".
Definition verify_sql_path (task : string) : string :=
  resource "resources/stages/verify/sqls/" task ".sql".

(** *** [build_load_dag] *)

Section Build.

(** The files as they are when the DAG file is parsed. *)
Variable fs : filesystem.

Definition add_load_tasks (task file_format : string)
    (allow_quoted_newlines : bool) : builder Task :=
  (wait_sensor <-
     new_task ("wait_latest_" ++ task)
       (GoogleCloudStorageObjectSensor (60 * 60) 60 (output_bucket cfg)
          ("export/" ++ task ++ "/block_date={{ds}}/" ++ task ++ "."
             ++ file_format)) ;;
   load_operator <-
     new_task ("load_" ++ task)
       (PythonOperator (load_task task file_format allow_quoted_newlines) 30) ;;
   _ <- set_downstream wait_sensor load_operator ;;
   bret load_operator)%builder.

Definition add_enrich_tasks (task : string)
    (time_partitioning_field : option string) (is_view : bool)
    (dependencies : option (list Task)) : builder Task :=
  (enrich_operator <-
     new_task ("enrich_" ++ task)
       (PythonOperator (enrich_task task time_partitioning_field is_view) 60) ;;
   _ <- add_dependencies dependencies enrich_operator ;;
   bret enrich_operator)%builder.

Definition add_verify_tasks (task : string)
    (dependencies : option (list Task)) : builder Task :=
  (sql <- blift (read_file fs (verify_sql_path task) (Some environment)) ;;
   verify_task <- new_task ("verify_" ++ task) (BigQueryOperator sql false) ;;
   _ <- add_dependencies dependencies verify_task ;;
   bret verify_task)%builder.

Definition build_tasks : builder unit :=
  (load_blocks_task <- add_load_tasks "blocks" "json" false ;;
   load_transactions_task <- add_load_tasks "transactions" "json" false ;;
   enrich_blocks_task <-
     add_enrich_tasks "blocks" (Some "timestamp_month") false
       (Some [load_blocks_task]) ;;
   enrich_transactions_task <-
     add_enrich_tasks "transactions" (Some "block_timestamp_month") false
       (Some [load_transactions_task]) ;;
   enrich_inputs_task <-
     add_enrich_tasks "inputs" None true (Some [enrich_transactions_task]) ;;
   enrich_outputs_task <-
     add_enrich_tasks "outputs" None true (Some [enrich_transactions_task]) ;;
   verify_blocks_count_task <-
     add_verify_tasks "blocks_count" (Some [enrich_blocks_task]) ;;
   verify_blocks_have_latest_task <-
     add_verify_tasks "blocks_have_latest" (Some [enrich_blocks_task]) ;;
   verify_transactions_count_task <-
     add_verify_tasks "transactions_count"
       (Some [enrich_blocks_task; enrich_transactions_task]) ;;
   verify_transactions_have_latest_task <-
     add_verify_tasks "transactions_have_latest"
       (Some [enrich_transactions_task]) ;;
   _ <- (if negb (chain cfg =? "dogecoin")
         then (_ <- add_verify_tasks "transactions_fees"
                      (Some [enrich_transactions_task]) ;; bret tt)
         else bret tt) ;;
   verify_coinbase_transactions_count_task <-
     add_verify_tasks "coinbase_transactions_count"
       (Some [enrich_blocks_task; enrich_transactions_task]) ;;
   verify_transaction_inputs_count_task <-
     add_verify_tasks "transaction_inputs_count"
       (Some [enrich_transactions_task]) ;;
   verify_transaction_outputs_count_task <-
     add_verify_tasks "transaction_outputs_count"
       (Some [enrich_transactions_task]) ;;
   _ <- (if negb (chain cfg =? "zcash")
         then (_ <- add_verify_tasks "transaction_inputs_count_empty"
                      (Some [enrich_transactions_task]) ;;
               _ <- add_verify_tasks "transaction_outputs_count_empty"
                      (Some [enrich_transactions_task]) ;;
               bret tt)
         else bret tt) ;;
   bret tt)%builder.

Definition build_load_dag : result DAG :=
  match build_tasks (mkDAG (cfg_dag_id cfg) (cfg_schedule_interval cfg) [] [])
  with
  | Ok (_, dag) => Ok dag
  | Raise e => Raise e
  end.

End Build.

(** *** The graph as a table

    The tasks and edges [build_load_dag] produces, written as data:
    [build_load_dag_table] below proves that this is what the builder
    returns. *)

Definition sensor_of (task file_format : string) : Task :=
  mkTask ("wait_latest_" ++ task)
    (GoogleCloudStorageObjectSensor (60 * 60) 60 (output_bucket cfg)
       ("export/" ++ task ++ "/block_date={{ds}}/" ++ task ++ "."
          ++ file_format)).

Definition load_of (task file_format : string) (allow : bool) : Task :=
  mkTask ("load_" ++ task) (PythonOperator (load_task task file_format allow) 30).

Definition enrich_of (task : string) (field : option string) (is_view : bool)
  : Task :=
  mkTask ("enrich_" ++ task) (PythonOperator (enrich_task task field is_view) 60).

Definition verify_of (task content : string) : Task :=
  mkTask ("verify_" ++ task)
    (BigQueryOperator (substitute environment content) false).

Definition edges_to (ds : list Task) (id : string) : list (string * string) :=
  map (fun d => (task_id d, id)) ds.

Definition verification_rules : list string :=
  ["blocks_count"; "blocks_have_latest"; "transactions_count";
   "transactions_have_latest"]
  ++ (if negb (chain cfg =? "dogecoin") then ["transactions_fees"] else [])
  ++ ["coinbase_transactions_count"; "transaction_inputs_count";
      "transaction_outputs_count"]
  ++ (if negb (chain cfg =? "zcash")
      then ["transaction_inputs_count_empty";
            "transaction_outputs_count_empty"]
      else []).

Definition verified_by (rule : string) : list string :=
  if (rule =? "blocks_count") || (rule =? "blocks_have_latest")
  then ["enrich_blocks"]
  else if (rule =? "transactions_count")
          || (rule =? "coinbase_transactions_count")
  then ["enrich_blocks"; "enrich_transactions"]
  else ["enrich_transactions"].

Definition load_and_enrich_tasks : list Task :=
  [ sensor_of "blocks" "json"; load_of "blocks" "json" false;
    sensor_of "transactions" "json"; load_of "transactions" "json" false;
    enrich_of "blocks" (Some "timestamp_month") false;
    enrich_of "transactions" (Some "block_timestamp_month") false;
    enrich_of "inputs" None true;
    enrich_of "outputs" None true ].

Definition load_and_enrich_edges : list (string * string) :=
  [ ("wait_latest_blocks", "load_blocks");
    ("wait_latest_transactions", "load_transactions");
    ("load_blocks", "enrich_blocks");
    ("load_transactions", "enrich_transactions");
    ("enrich_transactions", "enrich_inputs");
    ("enrich_transactions", "enrich_outputs") ].

Section Table.

Variable fs : filesystem.

Definition verify_sql (rule : string) : string :=
  match fs (verify_sql_path rule) with
  | Some content => content
  | None => EmptyString
  end.

(** Every SQL file a verification task of this chain is built from is
    there. *)
Definition verify_files_exist : bool :=
  forallb (fun rule => match fs (verify_sql_path rule) with
                       | Some _ => true
                       | None => false
                       end)
          verification_rules.

Definition dag_table : DAG :=
  mkDAG (cfg_dag_id cfg) (cfg_schedule_interval cfg)
    (load_and_enrich_tasks
     ++ map (fun rule => verify_of rule (verify_sql rule)) verification_rules)
    (load_and_enrich_edges
     ++ flat_map (fun rule =>
                    map (fun d => (d, "verify_" ++ rule)) (verified_by rule))
          verification_rules).

End Table.

(** *** The BigQuery client and what the tasks do with it *)

Record TableReference : Type := mkTableReference {
  project : string;
  dataset_id : string;
  table_id : string
}.

Definition TableReference_eqb (a b : TableReference) : bool :=
  (project a =? project b) && (dataset_id a =? dataset_id b)
  && (table_id a =? table_id b).

Record Table : Type := mkTable {
  reference : TableReference;
  description : option string;
  time_partitioning : option string;
  schema : list SchemaField;
  view_query : option string;
  view_use_legacy_sql : option bool
}.

Inductive SourceFormat : Type := CSV | NEWLINE_DELIMITED_JSON.
Inductive QueryPriority : Type := INTERACTIVE | BATCH.

Record LoadJobConfig : Type := mkLoadJobConfig {
  load_schema : list SchemaField;
  source_format : SourceFormat;
  skip_leading_rows : option Z;
  load_write_disposition : string;
  allow_quoted_newlines : bool;
  ignore_unknown_values : bool
}.

Record QueryJobConfig : Type := mkQueryJobConfig {
  priority : QueryPriority;
  query_destination : TableReference
}.

Record CopyJobConfig : Type := mkCopyJobConfig {
  copy_write_disposition : string
}.

(** A call to the BigQuery service: the calls a task callable makes on its
    [Client()], and the query a [BigQueryOperator] runs through its hook. *)
Inductive operation : Type :=
| create_table (table : Table)
| load_table_from_uri (uri : string) (destination : TableReference)
                      (job_config : LoadJobConfig)
| query (sql location : string) (job_config : QueryJobConfig)
| copy_table (source destination : TableReference) (location : string)
             (job_config : CopyJobConfig)
| delete_table (table : TableReference)
| run_query (sql : string) (use_legacy_sql : bool).

(** The table an operation creates, writes to or removes; the query of a
    [BigQueryOperator] is given no destination table. *)
Definition target (o : operation) : option TableReference :=
  match o with
  | create_table table => Some (reference table)
  | load_table_from_uri _ destination _ => Some destination
  | query _ _ job_config => Some (query_destination job_config)
  | copy_table _ destination _ _ => Some destination
  | delete_table table => Some table
  | run_query _ _ => None
  end.

Definition targets (r : TableReference) (o : operation) : bool :=
  match target o with
  | Some r' => TableReference_eqb r' r
  | None => false
  end.

Definition is_job (o : operation) : bool :=
  match o with
  | load_table_from_uri _ _ _ | query _ _ _ | copy_table _ _ _ _
  | run_query _ _ => true
  | create_table _ | delete_table _ => false
  end.


(** A job as the client hands it back: what [job.result()] does, and
    [job.errors] and [job.state] afterwards. *)
Record job : Type := mkJob {
  job_result : result unit;
  job_errors : option (list string);
  job_state : string
}.

(** [job.errors is None or len(job.errors) == 0] *)
Definition no_errors (j : job) : bool :=
  match job_errors j with
  | None => true
  | Some errors => (List.length errors =? 0)%nat
  end.

(** The job reports execution errors: [result()] raises or [errors] is not
    empty. *)
Definition reports_errors (j : job) : bool :=
  negb (is_ok (job_result j)) || negb (no_errors j).

(** [submit_bigquery_job]: the [except] clause logs and raises again, so
    both an exception of [job.result()] and the failed assertion leave the
    function as exceptions. *)
Definition submit_bigquery_job (j : job) : result unit :=
  match job_result j with
  | Raise e => Raise e
  | Ok r => if no_errors j then Ok r else Raise AssertionError
  end.

(** Everything outside the repository that a task run meets: the files, the
    clock, the project of [Client()] and the answers of the BigQuery service
    (a client call may itself raise). *)
Record world : Type := mkWorld {
  w_files : filesystem;
  w_milliseconds : Z;                       (* int(round(time.time() * 1000)) *)
  w_project : string;
  w_create_table : Table -> result string;  (* table_id of the table returned *)
  w_job : operation -> result job;
  w_delete_table : TableReference -> result unit;
  w_sensor : string -> string -> result unit (* a sensor run on bucket, object *)
}.

(** A task run: the calls made to the client so far are threaded through;
    a run ends with a value or an exception. *)
Definition run (A : Type) : Type := list operation -> list operation * result A.

Definition ret {A} (a : A) : run A := fun ops => (ops, Ok a).

Definition bind {A B} (m : run A) (k : A -> run B) : run B :=
  fun ops =>
    match m ops with
    | (ops', Ok a) => k a ops'
    | (ops', Raise e) => (ops', Raise e)
    end.

Definition lift {A} (r : result A) : run A := fun ops => (ops, r).

Definition call {A} (o : operation) (answer : result A) : run A :=
  fun ops => ((ops ++ [o])%list, answer).

(** [assert b] *)
Definition assert (b : bool) : run unit :=
  lift (if b then Ok tt else Raise AssertionError).

Declare Scope run_scope.
Delimit Scope run_scope with run.
Notation "x <- m ;; k" := (bind m (fun x => k))
  (at level 61, m at next level, right associativity) : run_scope.

Section Run.

(** [json.loads] and [sql.format(chain=chain)] of the Python library. *)
Variable json_loads : string -> result json.
Variable format_chain : string -> string -> result string.

Variable w : world.

Definition temp_table_name (task : string) : string :=
  task ++ "_" ++ Str.of_Z (w_milliseconds w).

(** [client.dataset(dataset_name_temp).table(temp_table_name)] *)
Definition temp_table_ref (task : string) : TableReference :=
  mkTableReference (w_project w) dataset_name_temp (temp_table_name task).

(** [client.dataset(dataset_name, project=destination_dataset_project_id)
       .table(dest_table_name)] *)
Definition dest_table_ref (task : string) : TableReference :=
  mkTableReference (destination_dataset_project_id cfg) dataset_name task.

Definition WRITE_TRUNCATE : string := "WRITE_TRUNCATE".

(** A job is created by a client call and then given to
    [submit_bigquery_job]. *)
Definition submit (o : operation) : run job :=
  (j <- call o (w_job w o) ;;
   _ <- lift (submit_bigquery_job j) ;;
   ret j)%run.

(** What [submit] followed by [assert job.state == 'DONE'] makes of the
    service's answer to a job: the job, or the exception raised. *)
Definition finished_job (o : operation) : result job :=
  match w_job w o with
  | Raise e => Raise e
  | Ok j =>
      match submit_bigquery_job j with
      | Raise e => Raise e
      | Ok _ => if job_state j =? "DONE" then Ok j else Raise AssertionError
      end
  end.

(** [client.create_table(table)] followed by the assertion on its
    [table_id]. *)
Definition created_table (table : Table) (expected : string) : result unit :=
  match w_create_table w table with
  | Raise e => Raise e
  | Ok id => if id =? expected then Ok tt else Raise AssertionError
  end.

Definition run_load_task (task file_format : string)
    (allow_quoted_newlines : bool) : run unit :=
  (schema <- lift (read_bigquery_schema_from_file json_loads (w_files w)
                     (raw_schema_path task)) ;;
   let job_config :=
     mkLoadJobConfig schema
       (if file_format =? "csv" then CSV else NEWLINE_DELIMITED_JSON)
       (if file_format =? "csv" then Some 1%Z else None)
       WRITE_TRUNCATE allow_quoted_newlines true in
   let export_location_uri := "gs://" ++ output_bucket cfg ++ "/export" in
   let uri := export_location_uri ++ "/" ++ task ++ "/*." ++ file_format in
   let table_ref := mkTableReference (w_project w) dataset_name_raw task in
   load_job <- submit (load_table_from_uri uri table_ref job_config) ;;
   assert (job_state load_job =? "DONE"))%run.

(** The tail shared by [enrich_table] and [enrich_view]: copy the temporary
    table to the destination, then delete it. *)
Definition copy_and_delete (task : string) : run unit :=
  (let copy_job_config := mkCopyJobConfig WRITE_TRUNCATE in
   copy_job <- submit (copy_table (temp_table_ref task) (dest_table_ref task)
                         "US" copy_job_config) ;;
   _ <- assert (job_state copy_job =? "DONE") ;;
   call (delete_table (temp_table_ref task))
        (w_delete_table w (temp_table_ref task)))%run.

Definition enrich_table (task : string)
    (time_partitioning_field : option string) : run unit :=
  (description <- lift (read_file (w_files w) (enrich_description_path task)
                          None) ;;
   schema <- lift (read_bigquery_schema_from_file json_loads (w_files w)
                     (enrich_schema_path task)) ;;
   let table :=
     mkTable (temp_table_ref task) (Some description) time_partitioning_field
       schema None None in
   created_id <- call (create_table table) (w_create_table w table) ;;
   _ <- assert (created_id =? temp_table_name task) ;;
   let query_job_config := mkQueryJobConfig INTERACTIVE (temp_table_ref task) in
   sql <- lift (read_file (w_files w) (enrich_sql_path task)
                  (Some environment)) ;;
   query_job <- submit (query sql "US" query_job_config) ;;
   _ <- assert (job_state query_job =? "DONE") ;;
   copy_and_delete task)%run.

Definition enrich_view (task : string)
    (time_partitioning_field : option string) : run unit :=
  (content <- lift (read_file (w_files w) (enrich_sql_path task) None) ;;
   sql <- lift (format_chain content (chain cfg)) ;;
   description <- lift (read_file (w_files w) (enrich_description_path task)
                          None) ;;
   let table :=
     mkTable (temp_table_ref task) (Some description) time_partitioning_field
       [] (Some sql) (Some false) in
   created_id <- call (create_table table) (w_create_table w table) ;;
   _ <- assert (created_id =? temp_table_name task) ;;
   copy_and_delete task)%run.

Definition run_enrich_task (task : string)
    (time_partitioning_field : option string) (is_view : bool) : run unit :=
  if is_view then enrich_view task time_partitioning_field
  else enrich_table task time_partitioning_field.

Definition run_callable (c : python_callable) : run unit :=
  match c with
  | load_task task file_format allow_quoted_newlines =>
      run_load_task task file_format allow_quoted_newlines
  | enrich_task task time_partitioning_field is_view =>
      run_enrich_task task time_partitioning_field is_view
  end.

End Run.

End Pipeline.

(** ** [str.format(chain=chain)]

    The format strings covered are those whose replacement fields are plain
    names: literal text, the escapes [{{] and [}}], and fields [{name}].  A
    field with a conversion ([!]), a format specification ([:]), an attribute
    ([.]) or an index ([[]) is not covered, and [format_plain] answers [None]
    on it. *)

Definition is_digit (c : ascii) : bool :=
  let n := nat_of_ascii c in ((48 <=? n) && (n <=? 57))%nat.

Fixpoint all_digits (s : string) : bool :=
  match s with
  | EmptyString => true
  | String c s' => is_digit c && all_digits s'
  end.

(** The value of the field [name] when the only argument is the keyword
    [chain]: an empty or numeric name is positional. *)
Definition format_field (chain name : string) : result string :=
  if name =? "chain" then Ok chain
  else if all_digits name then Raise IndexError
  else Raise KeyError.

Definition uncovered (c : ascii) : bool :=
  Ascii.eqb c "!"%char || Ascii.eqb c ":"%char || Ascii.eqb c "."%char
  || Ascii.eqb c "["%char.

Definition emit (c : ascii) (r : option (result string))
  : option (result string) :=
  match r with
  | Some (Ok s) => Some (Ok (String c s))
  | other => other
  end.

(** [field] is [None] in literal text and [Some name] inside a replacement
    field whose name so far is [name]. *)
Fixpoint format_scan (chain : string) (field : option string) (s : string)
  : option (result string) :=
  match field, s with
  | None, EmptyString => Some (Ok EmptyString)
  | None, String "{" (String "{" r) => emit "{" (format_scan chain None r)
  | None, String "{" r => format_scan chain (Some EmptyString) r
  | None, String "}" (String "}" r) => emit "}" (format_scan chain None r)
  | None, String "}" _ => Some (Raise ValueError)
  | None, String c r => emit c (format_scan chain None r)
  | Some _, EmptyString => Some (Raise ValueError)
  | Some name, String "}" r =>
      match format_field chain name with
      | Raise e => Some (Raise e)
      | Ok value =>
          match format_scan chain None r with
          | Some (Ok rest) => Some (Ok (value ++ rest))
          | other => other
          end
      end
  | Some _, String "{" _ => Some (Raise ValueError)
  | Some name, String c r =>
      if uncovered c then None
      else format_scan chain (Some (name ++ String c EmptyString)) r
  end.

Definition format_plain (s chain : string) : option (result string) :=
  format_scan chain None s.

(** [format_plain] as a function that always answers; used only on format
    strings that [format_plain] covers. *)
Definition format_covered (s chain : string) : result string :=
  match format_plain s chain with
  | Some r => r
  | None => Raise ValueError
  end.

(** ** Runs of a DAG

    The scheduler is Airflow's.  What is used of it: a task is attempted, any
    number of times, only when every task upstream of it has succeeded. *)

Record attempt : Type := mkAttempt {
  attempt_task : string;
  attempt_ops : list operation;
  attempt_result : result unit
}.

Definition succeeded (log : list attempt) (id : string) : Prop :=
  exists a, In a log /\ attempt_task a = id /\ attempt_result a = Ok tt.

Section DagRun.

Variable cfg : config.
Variable json_loads : string -> result json.
Variable format_chain : string -> string -> result string.

(** One attempt of a task in a world.  A sensor succeeds when one of its
    pokes finds the object before its timeout and raises otherwise, which is
    the world's answer; a [BigQueryOperator] fails when its query does. *)
Definition execute (t : Task) (w : world) : attempt :=
  match task_operator t with
  | GoogleCloudStorageObjectSensor _ _ bucket object =>
      mkAttempt (task_id t) [] (w_sensor w bucket object)
  | PythonOperator callable _ =>
      let '(ops, r) := run_callable cfg json_loads format_chain w callable [] in
      mkAttempt (task_id t) ops r
  | BigQueryOperator sql use_legacy_sql =>
      let o := run_query sql use_legacy_sql in
      mkAttempt (task_id t) [o]
        (match w_job w o with
         | Ok j => submit_bigquery_job j
         | Raise e => Raise e
         end)
  end.

Inductive dag_run (dag : DAG) : list attempt -> Prop :=
| dag_run_start : dag_run dag []
| dag_run_attempt log t w :
    dag_run dag log ->
    In t (tasks dag) ->
    (forall u, In u (upstream dag (task_id t)) -> succeeded log u) ->
    dag_run dag (log ++ [execute t w]).

(** *** The wait sensor in time

    [GoogleCloudStorageObjectSensor] is Airflow's: its [poke] looks the object
    up in the bucket, and [BaseSensorOperator.execute] runs

      [while not self.poke(context):]
      [    if (now - started_at).total_seconds() > self.timeout:]
      [        raise AirflowSensorTimeout]
      [    sleep(self.poke_interval)]

    What the repository sets is the bucket, the object, the timeout and the
    poke interval.  A [bucket_view] tells what a sensor run meets:
    [found bucket object elapsed] is whether a poke made [elapsed] seconds
    after the start of the run finds the object in the bucket.  Seconds are
    integers, and the time a poke takes is not counted. *)

Definition bucket_view : Type := string -> string -> Z -> bool.

(** The loop, for at most [fuel] pokes; [None]: the sensor is still waiting
    after them. *)
Fixpoint sensor_pokes (fuel : nat) (found : Z -> bool)
    (timeout poke_interval elapsed : Z) : option (result unit) :=
  match fuel with
  | O => None
  | S fuel' =>
      if found elapsed then Some (Ok tt)
      else if (elapsed >? timeout)%Z then Some (Raise AirflowSensorTimeout)
      else sensor_pokes fuel' found timeout poke_interval
             (elapsed + poke_interval)%Z
  end.

(** A run of the sensor.  With a positive poke interval the last poke is the
    first one made after [timeout] seconds have elapsed, so the run ends
    within [timeout / poke_interval + 2] pokes ([sensor_execute_ends]
    below). *)
Definition sensor_execute (found : Z -> bool) (timeout poke_interval : Z)
  : option (result unit) :=
  sensor_pokes (Z.to_nat (timeout / poke_interval) + 2) found timeout
    poke_interval 0.

(** One attempt in a run, with what it met: the task, the world, and the
    bucket as a sensor sees it. *)
Record step : Type := mkStep {
  step_task : Task;
  step_world : world;
  step_view : bucket_view
}.

(** The world's answer to a sensor is the outcome of the sensor's run on the
    bucket of the step. *)
Definition sensor_answers (s : step) : Prop :=
  match task_operator (step_task s) with
  | GoogleCloudStorageObjectSensor timeout poke_interval bucket object =>
      sensor_execute (step_view s bucket object) timeout poke_interval
      = Some (w_sensor (step_world s) bucket object)
  | _ => True
  end.

Definition step_attempt (s : step) : attempt :=
  execute (step_task s) (step_world s).

(** A run in which every sensor answers as its pokes on the bucket make
    it. *)
Inductive timed_run (dag : DAG) : list step -> Prop :=
| timed_run_start : timed_run dag []
| timed_run_step steps s :
    timed_run dag steps ->
    In (step_task s) (tasks dag) ->
    sensor_answers s ->
    (forall u, In u (upstream dag (task_id (step_task s))) ->
               succeeded (map step_attempt steps) u) ->
    timed_run dag (steps ++ [s]).

End DagRun.

(** ** Concrete configurations, files and worlds

    Used to run the definitions above on explicit inputs. *)

Definition bitcoin : config :=
  mkConfig "bitcoin_load_dag" "bitcoin-etl-export" "bigquery-public-data"
    "bitcoin" "0 0 * * *" "/home/airflow/gcs/dags".

Definition dogecoin : config :=
  mkConfig "dogecoin_load_dag" "dogecoin-etl-export" "bigquery-public-data"
    "dogecoin" "0 0 * * *" "/home/airflow/gcs/dags".

Definition zcash : config :=
  mkConfig "zcash_load_dag" "zcash-etl-export" "bigquery-public-data"
    "zcash" "0 0 * * *" "/home/airflow/gcs/dags".

(** Every SQL file holds one query on the destination dataset; every other
    file holds a line of text. *)
Definition example_files : filesystem :=
  fun path =>
    if Str.endswith path ".sql"
    then Some "SELECT * FROM {{dataset_name}}.transactions"
    else Some "Transactions of the chain".

(** A [json.loads] under which every schema file is an empty list. *)
Definition loads_empty_schema (content : string) : result json :=
  Ok (JArray []).

Definition done : job := mkJob (Ok tt) None "DONE".

(** A service on which everything succeeds. *)
Definition fair_world : world :=
  mkWorld example_files 1530403200000 "etl-project"
    (fun table => Ok (table_id (reference table)))
    (fun _ => Ok done)
    (fun _ => Ok tt)
    (fun _ _ => Ok tt).

(** A service on which the population query ends with execution errors. *)
Definition failing_query_world : world :=
  mkWorld example_files 1530403200000 "etl-project"
    (fun table => Ok (table_id (reference table)))
    (fun o =>
       match o with
       | query _ _ _ =>
           Ok (mkJob (Ok tt) (Some ["Resources exceeded during query execution"])
                 "DONE")
       | _ => Ok done
       end)
    (fun _ => Ok tt)
    (fun _ _ => Ok tt).

(** A service on which the copy job ends with execution errors. *)
Definition failing_copy_world : world :=
  mkWorld example_files 1530403200000 "etl-project"
    (fun table => Ok (table_id (reference table)))
    (fun o =>
       match o with
       | copy_table _ _ _ _ =>
           Ok (mkJob (Ok tt) (Some ["Not found: Dataset"]) "DONE")
       | _ => Ok done
       end)
    (fun _ => Ok tt)
    (fun _ _ => Ok tt).

(** A world in which the object a sensor waits for never appears. *)
Definition silent_bucket_world : world :=
  mkWorld example_files 1530403200000 "etl-project"
    (fun table => Ok (table_id (reference table)))
    (fun _ => Ok done)
    (fun _ => Ok tt)
    (fun _ _ => Raise AirflowSensorTimeout).

Definition bitcoin_dag : DAG := dag_table bitcoin example_files.

(** A run of [bitcoin_dag] that consists of one attempt of the sensor of
    "blocks", which times out. *)
Definition silent_log : list attempt :=
  [execute bitcoin loads_empty_schema format_covered
     (sensor_of bitcoin "blocks" "json") silent_bucket_world].


Definition late_bucket : bucket_view :=
  fun _ _ elapsed => (120 <=? elapsed)%Z.


Definition found_steps : list step :=
  [mkStep (sensor_of bitcoin "blocks" "json") fair_world late_bucket;
   mkStep (load_of "blocks" "json" false) fair_world late_bucket].

(** A schema description with a nested record. *)
Definition example_schema : json :=
  JArray
    [ JObject [("name", JString "hash"); ("type", JString "STRING");
               ("mode", JString "REQUIRED")];
      JObject [("name", JString "inputs"); ("type", JString "RECORD");
               ("mode", JString "REPEATED");
               ("fields",
                JArray
                  [ JObject [("name", JString "index");
                             ("type", JString "INTEGER")];
                    JObject [("name", JString "addresses");
                             ("type", JString "STRING");
                             ("mode", JString "REPEATED");
                             ("description", JString "Spending addresses")] ])];
      JObject [("name", JString "fee"); ("type", JString "INTEGER")] ].

(** A record field without nested fields. *)
Definition bare_record : list (string * json) :=
  [("name", JString "outputs"); ("type", JString "RECORD")].

(** A template with two placeholders, one of them of an undeclared key. *)
Definition example_template : list segment :=
  [Lit "SELECT * FROM "; Tok "dataset_name"; Lit ".blocks WHERE day = ";
   Tok "ds"].

(** ** Further definitions

    Definitions used by the further properties at the end of the file. *)

(** [old in s]: [old] starts at some position of [s]. *)
Fixpoint occurs (old s : string) : bool :=
  prefix old s
  || match s with
     | EmptyString => false
     | String _ s' => occurs old s'
     end.

(** The stage of a task, read off its [task_id]: sensors, loads, the
    enrichment of tables, the enrichment of views, verifications. *)
Definition stage_of (id : string) : nat :=
  if prefix "wait_latest_" id then 0
  else if prefix "load_" id then 1
  else if (id =? "enrich_blocks") || (id =? "enrich_transactions") then 2
  else if prefix "enrich_" id then 3
  else 4.

(** No string of the list occurs twice in it. *)
Fixpoint all_distinct (l : list string) : bool :=
  match l with
  | [] => true
  | x :: rest => negb (existsb (String.eqb x) rest) && all_distinct rest
  end.

(** [reach n es a b]: some chain of at most [n] edges of [es] leads from [a]
    to [b]. *)
Fixpoint reach (n : nat) (es : list (string * string)) (a b : string) : bool :=
  match n with
  | O => false
  | S n' =>
      existsb (fun e => (fst e =? a) && ((snd e =? b) || reach n' es (snd e) b))
              es
  end.

(** [follows_sensor es id]: in the graph with edges [es], the task [id] is
    one of the two sensors and has no upstream task, or it has upstream tasks
    and a chain of edges leads to it from one of the sensors. *)
Definition follows_sensor (es : list (string * string)) (id : string) : bool :=
  let ups := map fst (filter (fun e => snd e =? id) es) in
  if (id =? "wait_latest_blocks") || (id =? "wait_latest_transactions")
  then match ups with [] => true | _ => false end
  else match ups with [] => false | _ => true end
       && (reach 4 es "wait_latest_blocks" id
           || reach 4 es "wait_latest_transactions" id).

(** A run of [bitcoin_dag] on a fair service: the sensor of "blocks"
    succeeds, then the load of "blocks" is attempted. *)
Definition fair_log : list attempt :=
  [execute bitcoin loads_empty_schema format_covered
     (sensor_of bitcoin "blocks" "json") fair_world;
   execute bitcoin loads_empty_schema format_covered
     (load_of "blocks" "json" false) fair_world].

(** Files among which the SQL files are missing. *)
Definition files_without_sql : filesystem :=
  fun path =>
    if Str.endswith path ".sql" then None
    else Some "Transactions of the chain".

(** A fair service whose file system has no SQL file. *)
Definition world_without_sql : world :=
  mkWorld files_without_sql 1530403200000 "etl-project"
    (fun table => Ok (table_id (reference table)))
    (fun _ => Ok done)
    (fun _ => Ok tt)
    (fun _ _ => Ok tt).

(** A service on which the deletion of a table is refused. *)
Definition world_refusing_delete : world :=
  mkWorld example_files 1530403200000 "etl-project"
    (fun table => Ok (table_id (reference table)))
    (fun _ => Ok done)
    (fun _ => Raise GoogleAPIError)
    (fun _ _ => Ok tt).

(** [children_in_records f]: in [f] and in every field nested in it, at any
    depth, a field that has nested fields is of type RECORD. *)
Fixpoint children_in_records (f : SchemaField) : bool :=
  match f with
  | mkSchemaField _ field_type _ _ fields =>
      match fields with
      | [] => true
      | _ :: _ => is_record_type field_type
      end
      && forallb children_in_records fields
  end.

(** Two field objects that hold the same fields, one of them with a key the
    loader does not read and in another order. *)
Definition hash_field : list (string * json) :=
  [("name", JString "hash"); ("type", JString "STRING")].

Definition hash_field_annotated : list (string * json) :=
  [("type", JString "STRING"); ("policyTags", JArray []);
   ("name", JString "hash")].

(** The content of the SQL files of [example_files] as a template. *)
Definition transactions_template : list segment :=
  [Lit "SELECT * FROM "; Tok "dataset_name"; Lit ".transactions"].

(** What [str.format] makes of a template: the text stays, and the escaped
    braces of every [{{key}}] become single braces. *)
Definition unescape (g : segment) : string :=
  match g with
  | Lit t => t
  | Tok k => "{" ++ k ++ "}"
  end.

Fixpoint unescape_all (gs : list segment) : string :=
  match gs with
  | [] => EmptyString
  | g :: gs' => unescape g ++ unescape_all gs'
  end.

(** [t] put before the text a scan returned. *)
Definition prepend (t : string) (r : option (result string))
  : option (result string) :=
  match r with
  | Some (Ok s) => Some (Ok (t ++ s))
  | other => other
  end.

(** A field name that [format_plain] covers: no brace and none of the
    characters that start a conversion, a format specification, an attribute
    or an index. *)
Fixpoint plain_name (s : string) : bool :=
  match s with
  | EmptyString => true
  | String c s' => negb (is_brace c) && negb (uncovered c) && plain_name s'
  end.

(** A fair service over the files [fs]. *)
Definition fair_world_on (fs : filesystem) : world :=
  mkWorld fs 1530403200000 "etl-project"
    (fun table => Ok (table_id (reference table)))
    (fun _ => Ok done)
    (fun _ => Ok tt)
    (fun _ _ => Ok tt).

(** SQL files written for [str.format]: with the field [{chain}], and with a
    field of another name. *)
Definition chain_field_files : filesystem :=
  fun path =>
    if Str.endswith path ".sql"
    then Some "SELECT * FROM {chain}_blockchain.transactions"
    else Some "Transactions of the chain".

Definition other_field_files : filesystem :=
  fun path =>
    if Str.endswith path ".sql"
    then Some "SELECT * FROM {dataset_name}.transactions"
    else Some "Transactions of the chain".

(** ** The recipients of notifications

    [build_load_dag] sets [default_dag_args['email']] from its parameter
    [notification_emails].  [str.strip()] removes the characters Python counts
    as whitespace from both ends; which characters these are is left to the
    parameter [is_space], and [python_space] is that class on ASCII text. *)

(** [s.split(sep)] for a separator of one character. *)
Fixpoint split_on (sep : ascii) (s : string) : list string :=
  match s with
  | EmptyString => [EmptyString]
  | String c s' =>
      if Ascii.eqb c sep then EmptyString :: split_on sep s'
      else match split_on sep s' with
           | piece :: pieces => String c piece :: pieces
           | [] => [String c EmptyString]
           end
  end.

Fixpoint lstrip (is_space : ascii -> bool) (s : string) : string :=
  match s with
  | EmptyString => EmptyString
  | String c s' => if is_space c then lstrip is_space s' else s
  end.

Fixpoint rstrip (is_space : ascii -> bool) (s : string) : string :=
  match s with
  | EmptyString => EmptyString
  | String c s' =>
      match rstrip is_space s' with
      | EmptyString => if is_space c then EmptyString else String c EmptyString
      | kept => String c kept
      end
  end.

(** [s.strip()] *)
Definition strip (is_space : ascii -> bool) (s : string) : string :=
  rstrip is_space (lstrip is_space s).

(** The value of [default_dag_args.get('email')] once the [if] on
    [notification_emails] has run; [None] is both the absent argument and the
    absent key. *)
Definition default_dag_args_email (is_space : ascii -> bool)
    (notification_emails : option string) : option (list string) :=
  match notification_emails with
  | None => None
  | Some s =>
      if s =? EmptyString then None
      else Some (map (strip is_space) (split_on "," s))
  end.

(** Whitespace of ASCII text for [str.strip()]: tab, line feed, vertical tab,
    form feed, carriage return, the four separators [\x1c] to [\x1f], and
    space. *)
Definition python_space (c : ascii) : bool :=
  let n := nat_of_ascii c in
  ((9 <=? n) && (n <=? 13) || (28 <=? n) && (n <=? 32))%nat.

Fixpoint count_char (c : ascii) (s : string) : nat :=
  match s with
  | EmptyString => 0
  | String c' s' => (if Ascii.eqb c' c then 1 else 0) + count_char c s'
  end.

Fixpoint all_space (is_space : ascii -> bool) (s : string) : bool :=
  match s with
  | EmptyString => true
  | String c s' => is_space c && all_space is_space s'
  end.

Fixpoint ends_with_space (is_space : ascii -> bool) (s : string) : bool :=
  match s with
  | EmptyString => false
  | String c EmptyString => is_space c
  | String _ s' => ends_with_space is_space s'
  end.

Definition starts_with_space (is_space : ascii -> bool) (s : string) : bool :=
  match s with
  | EmptyString => false
  | String c _ => is_space c
  end.

(** No whitespace at either end. *)
Definition trimmed (is_space : ascii -> bool) (s : string) : bool :=
  negb (starts_with_space is_space s) && negb (ends_with_space is_space s).

(** An address as it is written in the list of recipients: whitespace, the
    address, whitespace. *)
Record written_address : Type := mkWritten {
  space_before : string;
  address : string;
  space_after : string
}.

Definition written (a : written_address) : string :=
  space_before a ++ address a ++ space_after a.

Definition well_written (is_space : ascii -> bool) (a : written_address)
  : bool :=
  all_space is_space (space_before a)
  && all_space is_space (space_after a)
  && trimmed is_space (address a)
  && (count_char "," (address a) =? 0)%nat.

Definition example_recipients : list written_address :=
  [mkWritten EmptyString "ops@example.com" EmptyString;
   mkWritten " " "data@example.com" " "].

(** * Properties *)

(** ** Strings *)

Lemma append_assoc (a b c : string) : (a ++ b) ++ c = a ++ (b ++ c).
Proof. induction a as [|x a IH]; simpl; [reflexivity | now rewrite IH]. Qed.

Lemma prefix_append (a r : string) : prefix a (a ++ r) = true.
Proof.
  induction a as [|x a IH]; simpl.
  - now destruct r.
  - destruct (ascii_dec x x) as [_|n]; [exact IH | now elim n].
Qed.

Lemma drop_append (a r : string) : Str.drop (String.length a) (a ++ r) = r.
Proof. induction a as [|x a IH]; simpl; [now destruct r | exact IH]. Qed.

Lemma prefix_head_mismatch (x y : ascii) (a b : string) :
  x <> y -> prefix (String x a) (String y b) = false.
Proof. intros n. simpl. now destruct (ascii_dec x y). Qed.

Lemma prefix_head_match (x : ascii) (a b : string) :
  prefix (String x a) (String x b) = prefix a b.
Proof. simpl. destruct (ascii_dec x x) as [_|n]; [reflexivity | now elim n]. Qed.

Lemma replace_from_skip (old new : string) (k : nat) (s : string) :
  Str.replace_from old new k s = Str.replace_from old new 0 (Str.drop k s).
Proof.
  revert k; induction s as [|c s IH]; intros [|k]; try reflexivity.
  simpl Str.drop. rewrite <- IH. reflexivity.
Qed.

(** Where [old] starts, [new] is emitted and the scan goes on behind the
    occurrence. *)
Lemma replace_from_hit (x : ascii) (old new r : string) :
  Str.replace_from (String x old) new 0 (String x old ++ r)
  = new ++ Str.replace_from (String x old) new 0 r.
Proof.
  change (String x old ++ r) with (String x (old ++ r)).
  cbn [Str.replace_from].
  change (String x (old ++ r)) with (String x old ++ r).
  rewrite prefix_append, replace_from_skip.
  cbn [String.length].
  replace (S (String.length old) - 1) with (String.length old) by lia.
  now rewrite drop_append.
Qed.

(** A character where [old] does not start is copied. *)
Lemma replace_from_copy (old new : string) (c : ascii) (r : string) :
  prefix old (String c r) = false ->
  Str.replace_from old new 0 (String c r)
  = String c (Str.replace_from old new 0 r).
Proof. intros H. cbn [Str.replace_from]. now rewrite H. Qed.

(** *** Placeholders in a template *)

Lemma brace_free_no_open (s : string) : brace_free s = true -> no_open s = true.
Proof.
  induction s as [|c s IH]; simpl; [reflexivity|].
  unfold is_brace. intros H.
  apply andb_true_iff in H as [H1 H2].
  rewrite negb_orb in H1. apply andb_true_iff in H1 as [H1 _].
  now rewrite H1, IH.
Qed.

Lemma no_open_append (a b : string) :
  no_open a = true -> no_open b = true -> no_open (a ++ b) = true.
Proof.
  induction a as [|c a IH]; simpl; [easy|].
  intros H Hb. apply andb_true_iff in H as [H1 H2]. now rewrite H1, IH.
Qed.

Lemma brace_free_append (a b : string) :
  brace_free a = true -> brace_free b = true -> brace_free (a ++ b) = true.
Proof.
  induction a as [|c a IH]; simpl; [easy|].
  intros H Hb. apply andb_true_iff in H as [H1 H2]. now rewrite H1, IH.
Qed.

(** Text without an opening brace holds no placeholder and is copied. *)
Lemma replace_placeholder_text (key value t r : string) :
  no_open t = true ->
  Str.replace_from (placeholder key) value 0 (t ++ r)
  = t ++ Str.replace_from (placeholder key) value 0 r.
Proof.
  intros H. induction t as [|c t IH]; [reflexivity|].
  simpl in H. apply andb_true_iff in H as [H1 H2].
  apply negb_true_iff, Ascii.eqb_neq in H1.
  change (String c t ++ r) with (String c (t ++ r)).
  rewrite replace_from_copy, (IH H2); [reflexivity|].
  apply prefix_head_mismatch. congruence.
Qed.

Lemma closed_key_prefix (k k' r : string) :
  brace_free k = true -> brace_free k' = true ->
  prefix (k ++ "}}") (k' ++ "}}" ++ r) = true -> k = k'.
Proof.
  revert k'; induction k as [|c k IH]; intros [|c' k'] Hk Hk' H.
  - reflexivity.
  - exfalso. cbn [append] in H. simpl in Hk'.
    apply andb_true_iff in Hk' as [Hc _].
    unfold is_brace in Hc. rewrite negb_orb in Hc.
    apply andb_true_iff in Hc as [_ Hc].
    apply negb_true_iff, Ascii.eqb_neq in Hc.
    rewrite prefix_head_mismatch in H by congruence. discriminate.
  - exfalso. cbn [append] in H. simpl in Hk.
    apply andb_true_iff in Hk as [Hc _].
    unfold is_brace in Hc. rewrite negb_orb in Hc.
    apply andb_true_iff in Hc as [_ Hc].
    apply negb_true_iff, Ascii.eqb_neq in Hc.
    rewrite prefix_head_mismatch in H by congruence. discriminate.
  - cbn [append] in H. simpl in Hk, Hk'.
    apply andb_true_iff in Hk as [_ Hk]. apply andb_true_iff in Hk' as [_ Hk'].
    destruct (ascii_dec c c') as [->|n].
    + rewrite prefix_head_match in H. f_equal. now apply IH.
    + rewrite prefix_head_mismatch in H by assumption. discriminate.
Qed.

(** The placeholder of the key being replaced gives way to the value. *)
Lemma replace_placeholder_same (key value r : string) :
  Str.replace_from (placeholder key) value 0 (placeholder key ++ r)
  = value ++ Str.replace_from (placeholder key) value 0 r.
Proof.
  unfold placeholder.
  change ("{{" ++ key ++ "}}") with (String "{" ("{" ++ key ++ "}}")).
  apply replace_from_hit.
Qed.

(** The placeholder of another key is copied. *)
Lemma replace_placeholder_other (key value k' r : string) :
  brace_free key = true -> brace_free k' = true -> key <> k' ->
  Str.replace_from (placeholder key) value 0 (placeholder k' ++ r)
  = placeholder k' ++ Str.replace_from (placeholder key) value 0 r.
Proof.
  intros Hk Hk' Hne.
  assert (Hopen : no_open (k' ++ "}}") = true).
  { apply no_open_append; [now apply brace_free_no_open | reflexivity]. }
  change (placeholder k' ++ r)
    with (String "{" (String "{" ((k' ++ "}}") ++ r))).
  rewrite append_assoc.
  pose proof (replace_placeholder_text key value (k' ++ "}}") r Hopen) as Ht.
  rewrite append_assoc in Ht.
  assert (H0 : prefix (placeholder key)
                 (String "{" (String "{" (k' ++ "}}" ++ r))) = false).
  { change (placeholder key) with (String "{" (String "{" (key ++ "}}"))).
    rewrite !prefix_head_match.
    destruct (prefix (key ++ "}}") (k' ++ "}}" ++ r)) eqn:E; [|reflexivity].
    elim Hne. eapply closed_key_prefix; eassumption. }
  assert (H1 : prefix (placeholder key) (String "{" (k' ++ "}}" ++ r)) = false).
  { change (placeholder key) with (String "{" (String "{" (key ++ "}}"))).
    rewrite prefix_head_match.
    destruct k' as [|c k'].
    - cbn [append]. now apply prefix_head_mismatch.
    - cbn [append]. apply prefix_head_mismatch.
      simpl in Hk'. apply andb_true_iff in Hk' as [Hc _].
      unfold is_brace in Hc. rewrite negb_orb in Hc.
      apply andb_true_iff in Hc as [Hc _].
      apply negb_true_iff, Ascii.eqb_neq in Hc. congruence. }
  rewrite replace_from_copy by exact H0.
  rewrite replace_from_copy by exact H1.
  rewrite Ht. reflexivity.
Qed.

Lemma replace_render_all (key value : string) (gs : list segment) :
  brace_free key = true ->
  forallb segment_ok gs = true ->
  Str.replace (placeholder key) value (render_all gs)
  = render_all (map (fill key value) gs).
Proof.
  intros Hk Hgs.
  change (Str.replace (placeholder key) value (render_all gs))
    with (Str.replace_from (placeholder key) value 0 (render_all gs)).
  induction gs as [|g gs IH]; [reflexivity|].
  simpl in Hgs. apply andb_true_iff in Hgs as [Hg Hgs].
  specialize (IH Hgs). cbn [render_all map].
  destruct g as [t|k]; cbn [render fill].
  - rewrite replace_placeholder_text by now apply brace_free_no_open.
    now rewrite IH.
  - destruct (key =? k) eqn:E.
    + apply String.eqb_eq in E. subst k.
      rewrite replace_placeholder_same. cbn [render]. now rewrite IH.
    + apply String.eqb_neq in E.
      rewrite replace_placeholder_other by assumption.
      cbn [render]. now rewrite IH.
Qed.

Lemma fill_ok (key value : string) (gs : list segment) :
  brace_free value = true ->
  forallb segment_ok gs = true ->
  forallb segment_ok (map (fill key value) gs) = true.
Proof.
  intros Hv. induction gs as [|g gs IH]; [reflexivity|].
  simpl. intros H. apply andb_true_iff in H as [Hg Hgs].
  rewrite IH by assumption. rewrite andb_true_r.
  destruct g as [t|k]; cbn [fill]; [exact Hg|].
  destruct (key =? k); [exact Hv | exact Hg].
Qed.

Lemma expand_all_fill (key value : string) (rest : environment_t)
    (gs : list segment) :
  expand_all rest (map (fill key value) gs)
  = expand_all ((key, value) :: rest) gs.
Proof.
  induction gs as [|g gs IH]; [reflexivity|].
  cbn [map expand_all]. rewrite IH. f_equal.
  destruct g as [t|k]; cbn [fill expand assoc]; [reflexivity|].
  now destruct (key =? k).
Qed.

Lemma expand_all_nil (gs : list segment) : expand_all [] gs = render_all gs.
Proof. induction gs as [|[t|k] gs IH]; cbn; now rewrite ?IH. Qed.

Lemma substitute_render_all (environment : environment_t) (gs : list segment) :
  environment_ok environment = true ->
  forallb segment_ok gs = true ->
  substitute environment (render_all gs) = expand_all environment gs.
Proof.
  revert gs; induction environment as [|[key value] rest IH]; intros gs He Hgs.
  - symmetry. apply expand_all_nil.
  - cbn [environment_ok forallb fst snd] in He.
    apply andb_true_iff in He as [Hkv He].
    apply andb_true_iff in Hkv as [Hk Hv].
    cbn [substitute]. rewrite replace_render_all by assumption.
    rewrite IH; [apply expand_all_fill | exact He | now apply fill_ok].
Qed.

(** *** The one-pass substitution on a template *)

Lemma substitute_spec_skip (environment : environment_t) (k : nat) (s : string) :
  substitute_spec_from environment k s
  = substitute_spec_from environment 0 (Str.drop k s).
Proof.
  revert k; induction s as [|c s IH]; intros [|k]; try reflexivity.
  cbn [Str.drop]. rewrite <- IH. reflexivity.
Qed.

Lemma substitute_spec_copy (environment : environment_t) (c : ascii)
    (r : string) :
  declared_at environment (String c r) = None ->
  substitute_spec_from environment 0 (String c r)
  = String c (substitute_spec_from environment 0 r).
Proof. intros H. cbn [substitute_spec_from]. now rewrite H. Qed.

Lemma substitute_spec_hit (environment : environment_t) (key value r : string) :
  declared_at environment (placeholder key ++ r) = Some (key, value) ->
  substitute_spec_from environment 0 (placeholder key ++ r)
  = value ++ substitute_spec_from environment 0 r.
Proof.
  intros H.
  change (placeholder key ++ r)
    with (String "{" (("{" ++ key ++ "}}") ++ r)) in *.
  cbn [substitute_spec_from]. rewrite H, substitute_spec_skip.
  change (String.length (placeholder key) - 1)
    with (S (String.length ("{" ++ key ++ "}}")) - 1).
  replace (S (String.length ("{" ++ key ++ "}}")) - 1)
    with (String.length ("{" ++ key ++ "}}")) by lia.
  now rewrite drop_append.
Qed.

Lemma declared_at_not_open (environment : environment_t) (c : ascii)
    (r : string) :
  c <> "{"%char -> declared_at environment (String c r) = None.
Proof.
  intros Hc. induction environment as [|[key value] rest IH]; [reflexivity|].
  cbn [declared_at].
  change (placeholder key) with (String "{" ("{" ++ key ++ "}}")).
  rewrite prefix_head_mismatch by congruence. exact IH.
Qed.

Lemma declared_at_single_open (environment : environment_t) (c : ascii)
    (r : string) :
  c <> "{"%char -> declared_at environment (String "{" (String c r)) = None.
Proof.
  intros Hc. induction environment as [|[key value] rest IH]; [reflexivity|].
  cbn [declared_at].
  change (placeholder key) with (String "{" (String "{" (key ++ "}}"))).
  rewrite prefix_head_match, prefix_head_mismatch by congruence. exact IH.
Qed.

Lemma declared_at_placeholder (environment : environment_t) (k r : string) :
  environment_ok environment = true -> brace_free k = true ->
  declared_at environment (placeholder k ++ r)
  = match assoc k environment with
    | Some v => Some (k, v)
    | None => None
    end.
Proof.
  intros He Hk. induction environment as [|[key value] rest IH]; [reflexivity|].
  cbn [environment_ok forallb fst snd] in He.
  apply andb_true_iff in He as [Hkv He].
  apply andb_true_iff in Hkv as [Hkey _].
  cbn [declared_at assoc]. destruct (key =? k) eqn:E.
  - apply String.eqb_eq in E. subst key. now rewrite prefix_append.
  - apply String.eqb_neq in E.
    assert (Hp : prefix (placeholder key) (placeholder k ++ r) = false).
    { change (placeholder key) with (String "{" (String "{" (key ++ "}}"))).
      change (placeholder k ++ r)
        with (String "{" (String "{" ((k ++ "}}") ++ r))).
      rewrite append_assoc, !prefix_head_match.
      destruct (prefix (key ++ "}}") (k ++ "}}" ++ r)) eqn:P; [|reflexivity].
      elim E. eapply closed_key_prefix; eassumption. }
    rewrite Hp. now apply IH.
Qed.

Lemma substitute_spec_text (environment : environment_t) (t r : string) :
  no_open t = true ->
  substitute_spec_from environment 0 (t ++ r)
  = t ++ substitute_spec_from environment 0 r.
Proof.
  intros H. induction t as [|c t IH]; [reflexivity|].
  cbn [no_open] in H. apply andb_true_iff in H as [H1 H2].
  apply negb_true_iff, Ascii.eqb_neq in H1.
  change (String c t ++ r) with (String c (t ++ r)).
  rewrite substitute_spec_copy by now apply declared_at_not_open.
  now rewrite (IH H2).
Qed.

Lemma head_of_closed_key (k r : string) :
  brace_free k = true ->
  exists c tail, k ++ "}}" ++ r = String c tail /\ c <> "{"%char.
Proof.
  destruct k as [|c k]; cbn.
  - intros _. exists "}"%char, (String "}" r). split; [reflexivity|congruence].
  - intros H. apply andb_true_iff in H as [H _].
    unfold is_brace in H. rewrite negb_orb in H.
    apply andb_true_iff in H as [H _].
    apply negb_true_iff, Ascii.eqb_neq in H.
    exists c, (k ++ String "}" (String "}" r)). split; [reflexivity|exact H].
Qed.

Lemma substitute_spec_render_all (environment : environment_t)
    (gs : list segment) :
  environment_ok environment = true ->
  forallb segment_ok gs = true ->
  substitute_spec environment (render_all gs) = expand_all environment gs.
Proof.
  intros He Hgs. unfold substitute_spec.
  induction gs as [|g gs IH]; [reflexivity|].
  cbn [forallb] in Hgs. apply andb_true_iff in Hgs as [Hg Hgs].
  specialize (IH Hgs). cbn [render_all expand_all].
  destruct g as [t|k]; cbn [render expand segment_ok] in *.
  - rewrite substitute_spec_text by now apply brace_free_no_open.
    now rewrite IH.
  - pose proof (declared_at_placeholder environment k (render_all gs) He Hg)
      as Hd.
    destruct (assoc k environment) as [v|].
    + rewrite (substitute_spec_hit environment k v (render_all gs) Hd).
      now rewrite IH.
    + assert (Hopen : no_open (k ++ "}}") = true).
      { apply no_open_append; [now apply brace_free_no_open | reflexivity]. }
      destruct (head_of_closed_key k (render_all gs) Hg)
        as [c [tail [Ehead Hc]]].
      change (placeholder k ++ render_all gs)
        with (String "{" (String "{" ((k ++ "}}") ++ render_all gs))) in *.
      rewrite substitute_spec_copy by exact Hd.
      rewrite substitute_spec_copy.
      * rewrite substitute_spec_text by exact Hopen. now rewrite IH.
      * rewrite append_assoc, Ehead. now apply declared_at_single_open.
Qed.

(** *** C6: what the query loader substitutes *)


(** C6, as the specification states it, fails: the loader does not replace
    the placeholders of the original text and leave the rest of it alone.  The keys are replaced
    one after the other, each on the text the earlier replacements produced.
    With the keys [a] and [ab], whose values hold no brace, the text
    [{{a{{a}}}} {{{{ab}}}}] holds one placeholder of each key, and replacing
    them gives [{{ab}} {{a}}].  The loader reads its own output: replacing
    [a] first it takes the [{{ab}}] it has just produced for a placeholder,
    replacing [ab] first it does so with the [{{a}}] it has just produced.
    Both orders of the keys are given, since the order of a dictionary is
    not fixed by the source. *)
Lemma substitution_reads_its_own_output :
  read_file (fun _ => Some "{{a{{a}}}} {{{{ab}}}}") "query.sql"
    (Some [("a", "b"); ("ab", "a")])
  <> Ok (substitute_spec [("a", "b"); ("ab", "a")] "{{a{{a}}}} {{{{ab}}}}")
  /\ read_file (fun _ => Some "{{a{{a}}}} {{{{ab}}}}") "query.sql"
       (Some [("ab", "a"); ("a", "b")])
     <> Ok (substitute_spec [("ab", "a"); ("a", "b")] "{{a{{a}}}} {{{{ab}}}}").
Proof. split; vm_compute; discriminate. Qed.

Example substitution_reads_its_own_output_values :
  read_file (fun _ => Some "{{a{{a}}}} {{{{ab}}}}") "query.sql"
    (Some [("a", "b"); ("ab", "a")]) = Ok "a {{a}}"
  /\ read_file (fun _ => Some "{{a{{a}}}} {{{{ab}}}}") "query.sql"
       (Some [("ab", "a"); ("a", "b")]) = Ok "{{ab}} b"
  /\ substitute_spec [("a", "b"); ("ab", "a")] "{{a{{a}}}} {{{{ab}}}}"
     = "{{ab}} {{a}}"
  /\ substitute_spec [("ab", "a"); ("a", "b")] "{{a{{a}}}} {{{{ab}}}}"
     = "{{ab}} {{a}}".
Proof. repeat split. Qed.

(** A value that holds the placeholder of a later key is substituted
    again. *)
Example substituted_value_is_substituted_again :
  read_file (fun _ => Some "{{a}}") "query.sql"
    (Some [("a", "{{b}}"); ("b", "x")]) = Ok "x"
  /\ substitute_spec [("a", "{{b}}"); ("b", "x")] "{{a}}" = "{{b}}".
Proof. split; reflexivity. Qed.

(** C6, amended: with an empty environment, or none, the loader returns the
    content of the file unchanged; and on a template made of brace-free text
    and of placeholders [{{k}}] of brace-free keys, with an environment whose
    keys and values are brace-free, it replaces every placeholder of a
    declared key by the value of that key and leaves the text and the
    placeholders of undeclared keys unchanged, which is also what one pass of
    substitution over the content gives. *)
Theorem read_file_substitutes_placeholders (fs : filesystem)
    (filepath : string) (environment : environment_t) (gs : list segment) :
  fs filepath = Some (render_all gs) ->
  environment_ok environment = true ->
  forallb segment_ok gs = true ->
  read_file fs filepath (Some environment) = Ok (expand_all environment gs)
  /\ read_file fs filepath (Some environment)
     = Ok (substitute_spec environment (render_all gs))
  /\ (forall fs' filepath' content,
        fs' filepath' = Some content ->
        read_file fs' filepath' None = Ok content
        /\ read_file fs' filepath' (Some []) = Ok content).
Proof.
  intros Hfile He Hgs.
  assert (H : read_file fs filepath (Some environment)
              = Ok (expand_all environment gs)).
  { unfold read_file. rewrite Hfile.
    now rewrite substitute_render_all. }
  split; [exact H|]. split.
  - rewrite H. now rewrite substitute_spec_render_all.
  - intros fs' filepath' content Hc. unfold read_file. now rewrite Hc.
Qed.

(** The theorem on the example template and the environment of the bitcoin
    pipeline. *)
Lemma example_template_substituted :
  (fun _ : string => Some (render_all example_template)) "blocks.sql"
  = Some (render_all example_template)
  /\ environment_ok (environment bitcoin) = true
  /\ forallb segment_ok example_template = true
  /\ read_file (fun _ => Some (render_all example_template)) "blocks.sql"
       (Some (environment bitcoin))
     = Ok (expand_all (environment bitcoin) example_template)
  /\ read_file (fun _ => Some (render_all example_template)) "blocks.sql"
       (Some (environment bitcoin))
     = Ok (substitute_spec (environment bitcoin) (render_all example_template))
  /\ (forall fs' filepath' content,
        fs' filepath' = Some content ->
        read_file fs' filepath' None = Ok content
        /\ read_file fs' filepath' (Some []) = Ok content).
Proof.
  split; [reflexivity|]. split; [reflexivity|]. split; [reflexivity|].
  apply (read_file_substitutes_placeholders
           (fun _ => Some (render_all example_template)) "blocks.sql"
           (environment bitcoin) example_template).
  - reflexivity.
  - reflexivity.
  - reflexivity.
Defined.

Example example_template_evaluated :
  read_file (fun _ => Some (render_all example_template)) "blocks.sql"
    (Some (environment bitcoin))
  = Ok "SELECT * FROM bitcoin_blockchain.blocks WHERE day = {{ds}}".
Proof. reflexivity. Qed.

(** ** The schema loader *)

Lemma read_schema_nil :
  read_bigquery_schema_from_json_recursive (JArray []) = Ok [].
Proof. reflexivity. Qed.

Lemma truthy_get_none (key : string) (members : list (string * json)) :
  truthy (get_none key members) = true ->
  get key members = Some (get_none key members).
Proof. unfold get_none. now destruct (get key members). Qed.

(** The loop body of the definition is [schema_of_field], and the loop goes
    on with the rest of the list. *)
Lemma read_schema_cons (members : list (string * json)) (rest : list json) :
  read_bigquery_schema_from_json_recursive (JArray (JObject members :: rest))
  = match schema_of_field members with
    | Raise e => Raise e
    | Ok schema =>
        match read_bigquery_schema_from_json_recursive (JArray rest) with
        | Ok result => Ok (schema :: result)
        | Raise e => Raise e
        end
    end.
Proof.
  assert (Hn : (fix nested (ms : list (string * json))
                  : result (list SchemaField) :=
                  match ms with
                  | [] => Ok []
                  | (k, v) :: ms' =>
                      if k =? "fields"
                      then read_bigquery_schema_from_json_recursive v
                      else nested ms'
                  end) members
               = match get "fields" members with
                 | Some v => read_bigquery_schema_from_json_recursive v
                 | None => Ok []
                 end).
  { induction members as [|[k v] ms IH]; [reflexivity|].
    cbn [get]. destruct (k =? "fields"); [reflexivity | exact IH]. }
  cbn [read_bigquery_schema_from_json_recursive]. unfold schema_of_field.
  destruct (type_is_record members) as [is_record|e]; [|reflexivity].
  destruct (is_record && truthy (get_none "fields" members)) eqn:E;
    [|reflexivity].
  apply andb_true_iff in E as [_ E].
  rewrite Hn, (truthy_get_none _ _ E). reflexivity.
Qed.

Lemma read_schema_not_object (field : json) (rest : list json) :
  (forall members, field <> JObject members) ->
  read_bigquery_schema_from_json_recursive (JArray (field :: rest))
  = Raise AttributeError.
Proof.
  intros H. destruct field; try reflexivity. now elim (H members).
Qed.

Lemma get_size (key : string) (members : list (string * json)) (v : json) :
  get key members = Some v -> json_size v < json_size (JObject members).
Proof.
  cbn [json_size].
  induction members as [|[k x] ms IH]; cbn [get]; [discriminate|].
  destruct (k =? key); intros H.
  - injection H as ->. lia.
  - specialize (IH H). lia.
Qed.

Lemma schema_description_items (n : nat) :
  forall json_schema,
    json_size json_schema <= n ->
    schema_description json_schema ->
    exists items result,
      json_schema = JArray items
      /\ read_bigquery_schema_from_json_recursive json_schema = Ok result
      /\ Forall2 parsed_as items result.
Proof.
  induction n as [|n IH]; intros j Hsize Hd.
  { destruct j; simpl in Hsize; lia. }
  destruct Hd as [items Hitems]. exists items.
  assert (Hr : exists result,
             read_bigquery_schema_from_json_recursive (JArray items) = Ok result
             /\ Forall2 parsed_as items result).
  { cbn [json_size] in Hsize. apply le_S_n in Hsize.
    induction Hitems as [|field rest Hfield Hrest IHrest].
    - exists []. split; [reflexivity | constructor].
    - destruct IHrest as [result [Hres Hall]]; [lia|].
      destruct Hfield as [members ty Hty Hnested].
      rewrite read_schema_cons, Hres. unfold schema_of_field, type_is_record.
      rewrite Hty.
      assert (Hdef : get_default "type" (JString "STRING") members = JString ty)
        by (unfold get_default; now rewrite Hty).
      rewrite Hdef.
      destruct ((Str.lower ty =? "record")
                && truthy (get_none "fields" members)) eqn:E.
      + specialize (Hnested eq_refl).
        apply andb_true_iff in E as [Erec Etruthy].
        pose proof (truthy_get_none _ _ Etruthy) as Hget.
        destruct (IH (get_none "fields" members)) as [nested [children [Hj [Hc Hf]]]];
          [|exact Hnested|].
        { apply get_size in Hget. lia. }
        rewrite Hc. eexists. split; [reflexivity|].
        constructor; [|exact Hall].
        rewrite Hj in Hget, Etruthy.
        eapply parsed_record; try eassumption.
        intros ->. discriminate.
      + eexists. split; [reflexivity|].
        constructor; [|exact Hall].
        now apply parsed_terminal. }
  destruct Hr as [result [Hres Hall]].
  exists result. repeat split; assumption.
Qed.

(** *** C3, C7, C10: what the loader returns *)

(** A field object without the key [type] makes the loader raise. *)
Lemma untyped_field_raises (members : list (string * json)) (rest : list json) :
  get "type" members = None ->
  read_bigquery_schema_from_json_recursive (JArray (JObject members :: rest))
  = Raise AttributeError.
Proof.
  intros H. rewrite read_schema_cons. unfold schema_of_field, type_is_record.
  now rewrite H.
Qed.

(** A field object without the key [mode] that the loader accepts gets the
    mode NULLABLE. *)
Lemma absent_mode_is_nullable (members : list (string * json))
    (f : SchemaField) :
  get "mode" members = None ->
  schema_of_field members = Ok f ->
  sf_mode f = JString "NULLABLE".
Proof.
  intros Hmode. unfold schema_of_field.
  destruct (type_is_record members) as [b|e]; [|discriminate].
  assert (Hdef : get_default "mode" (JString "NULLABLE") members
                 = JString "NULLABLE")
    by (unfold get_default; now rewrite Hmode).
  cbv zeta. rewrite Hdef.
  destruct (b && truthy (get_none "fields" members)).
  - destruct (read_bigquery_schema_from_json_recursive _); [|discriminate].
    now intros [= <-].
  - now intros [= <-].
Qed.

(** C3, a defect of the code: on a field object that has a name and a mode
    but no [type], the loader raises [AttributeError] instead of producing a field
    of type STRING: [field.get('type').lower()] is evaluated before the
    default of [field.get('type', 'STRING')] can apply.  The default for an
    absent [mode] does apply. *)
Theorem absent_type_raises_instead_of_string :
  read_bigquery_schema_from_json_recursive
    (JArray [JObject [("name", JString "hash"); ("mode", JString "REQUIRED")]])
  = Raise AttributeError
  /\ read_bigquery_schema_from_json_recursive
       (JArray [JObject [("name", JString "hash"); ("type", JString "STRING")]])
     = Ok [mkSchemaField (JString "hash") (JString "STRING")
             (JString "NULLABLE") JNull []].
Proof. split; reflexivity. Qed.

(** C7: on a schema description (a sequence of field objects, nested where a
    RECORD field has a non-empty list of nested fields) the loader returns one
    Schema Field per input field, in the order of the input, each with the
    name, type, mode and description of its field object, and the children of
    a RECORD field with a non-empty nested list are the Schema Fields of that
    list, at every depth. *)
Theorem schema_loader_preserves_fields (items : list json) :
  schema_description (JArray items) ->
  exists result,
    read_bigquery_schema_from_json_recursive (JArray items) = Ok result
    /\ List.length result = List.length items
    /\ Forall2 parsed_as items result.
Proof.
  intros Hd.
  destruct (schema_description_items (json_size (JArray items)) (JArray items)
              (le_n _) Hd) as [items' [result [E [Hr Hall]]]].
  injection E as <-. exists result.
  split; [exact Hr|]. split; [|exact Hall].
  symmetry. eapply Forall2_length. exact Hall.
Qed.

Lemma example_schema_is_a_description :
  schema_description example_schema.
Proof.
  repeat first
    [ apply schema_description_intro
    | apply Forall_cons
    | apply Forall_nil
    | eapply field_object_intro; [reflexivity|];
      cbn; first [ discriminate | intros _ ] ].
Qed.

(** The theorem on the example schema. *)
Lemma example_schema_preserved :
  schema_description example_schema
  /\ exists result,
       read_bigquery_schema_from_json_recursive example_schema = Ok result
       /\ List.length result = 3%nat
       /\ Forall2 parsed_as
            [ JObject [("name", JString "hash"); ("type", JString "STRING");
                       ("mode", JString "REQUIRED")];
              JObject [("name", JString "inputs"); ("type", JString "RECORD");
                       ("mode", JString "REPEATED");
                       ("fields",
                        JArray
                          [ JObject [("name", JString "index");
                                     ("type", JString "INTEGER")];
                            JObject [("name", JString "addresses");
                                     ("type", JString "STRING");
                                     ("mode", JString "REPEATED");
                                     ("description",
                                      JString "Spending addresses")] ])];
              JObject [("name", JString "fee"); ("type", JString "INTEGER")] ]
            result.
Proof.
  split; [exact example_schema_is_a_description|].
  exact (schema_loader_preserves_fields _ example_schema_is_a_description).
Defined.

(** The loader on the example, by evaluation. *)
Example example_schema_loaded :
  read_bigquery_schema_from_json_recursive example_schema
  = Ok [ mkSchemaField (JString "hash") (JString "STRING") (JString "REQUIRED")
           JNull [];
         mkSchemaField (JString "inputs") (JString "RECORD")
           (JString "REPEATED") JNull
           [ mkSchemaField (JString "index") (JString "INTEGER")
               (JString "NULLABLE") JNull [];
             mkSchemaField (JString "addresses") (JString "STRING")
               (JString "REPEATED") (JString "Spending addresses") [] ];
         mkSchemaField (JString "fee") (JString "INTEGER") (JString "NULLABLE")
           JNull [] ].
Proof. reflexivity. Qed.

(** C10: a field object of type RECORD whose list of nested fields is absent
    or empty is loaded, without failure and without a recursive call, as a
    Schema Field of that type with no children, which breaks the data
    model's invariant that nested fields are non-empty exactly when the type
    is RECORD. *)
Theorem record_without_nested_fields (members : list (string * json))
    (ty : string) :
  get "type" members = Some (JString ty) ->
  Str.lower ty = "record" ->
  get "fields" members = None \/ get "fields" members = Some (JArray []) ->
  exists f,
    read_bigquery_schema_from_json_recursive (JArray [JObject members])
    = Ok [f]
    /\ schema_of_field members = Ok f
    /\ sf_field_type f = JString ty
    /\ sf_fields f = []
    /\ ~ nested_iff_record f.
Proof.
  intros Hty Hrecord Hfields.
  assert (Hfalsy : truthy (get_none "fields" members) = false).
  { unfold get_none. now destruct Hfields as [-> | ->]. }
  assert (Hf : schema_of_field members
               = Ok (mkSchemaField (get_none "name" members) (JString ty)
                       (get_default "mode" (JString "NULLABLE") members)
                       (get_none "description" members) [])).
  { unfold schema_of_field, type_is_record. rewrite Hty, Hfalsy, andb_false_r.
    unfold get_default at 1. now rewrite Hty. }
  eexists. split; [|split; [exact Hf|]].
  - rewrite read_schema_cons, Hf, read_schema_nil. reflexivity.
  - cbn [sf_field_type sf_fields]. split; [reflexivity|].
    split; [reflexivity|].
    unfold nested_iff_record. cbn [sf_field_type sf_fields is_record_type].
    rewrite Hrecord. intros [_ H]. now apply H.
Qed.

(** The theorem on a record field that has no [fields] key. *)
Lemma bare_record_is_loaded_without_children :
  get "type" bare_record = Some (JString "RECORD")
  /\ Str.lower "RECORD" = "record"
  /\ (get "fields" bare_record = None
      \/ get "fields" bare_record = Some (JArray []))
  /\ exists f,
       read_bigquery_schema_from_json_recursive (JArray [JObject bare_record])
       = Ok [f]
       /\ schema_of_field bare_record = Ok f
       /\ sf_field_type f = JString "RECORD"
       /\ sf_fields f = []
       /\ ~ nested_iff_record f.
Proof.
  split; [reflexivity|]. split; [reflexivity|].
  split; [left; reflexivity|].
  apply (record_without_nested_fields bare_record "RECORD").
  - reflexivity.
  - reflexivity.
  - left. reflexivity.
Defined.


(** ** The task graph *)

Lemma bbind_step {A B} (m : builder A) (k : A -> builder B) dag a dag' :
  m dag = Ok (a, dag') -> bbind m k dag = k a dag'.
Proof. unfold bbind. now intros ->. Qed.

Lemma bbind_raise {A B} (m : builder A) (k : A -> builder B) dag e :
  m dag = Raise e -> bbind m k dag = Raise e.
Proof. unfold bbind. now intros ->. Qed.

Lemma depend_on_ok (ds : list Task) (t : Task) (dag : DAG) :
  depend_on ds t dag
  = Ok (tt, mkDAG (dag_id dag) (schedule_interval dag) (tasks dag)
                  (edges dag ++ edges_to ds (task_id t))).
Proof.
  revert dag; induction ds as [|d ds IH]; intros dag.
  - cbn. rewrite app_nil_r. now destruct dag.
  - cbn [depend_on]. unfold bbind, set_downstream. rewrite IH.
    cbn [dag_id schedule_interval tasks edges edges_to map].
    now rewrite <- app_assoc.
Qed.

Lemma add_load_tasks_ok cfg task file_format allow dag :
  add_load_tasks cfg task file_format allow dag
  = Ok (load_of task file_format allow,
        mkDAG (dag_id dag) (schedule_interval dag)
          (tasks dag ++ [sensor_of cfg task file_format;
                         load_of task file_format allow])
          (edges dag ++ [("wait_latest_" ++ task, "load_" ++ task)])).
Proof.
  unfold add_load_tasks, bbind, new_task, set_downstream, bret.
  cbn [dag_id schedule_interval tasks edges task_id].
  now rewrite <- app_assoc.
Qed.

Lemma add_enrich_tasks_ok task field is_view ds dag :
  add_enrich_tasks task field is_view (Some ds) dag
  = Ok (enrich_of task field is_view,
        mkDAG (dag_id dag) (schedule_interval dag)
          (tasks dag ++ [enrich_of task field is_view])
          (edges dag ++ edges_to ds ("enrich_" ++ task))).
Proof.
  unfold add_enrich_tasks, bbind, new_task, add_dependencies, bret.
  rewrite depend_on_ok. reflexivity.
Qed.

Lemma add_verify_tasks_eq cfg fs task ds dag :
  add_verify_tasks cfg fs task (Some ds) dag
  = match fs (verify_sql_path cfg task) with
    | None => Raise IOError
    | Some content =>
        Ok (verify_of cfg task content,
            mkDAG (dag_id dag) (schedule_interval dag)
              (tasks dag ++ [verify_of cfg task content])
              (edges dag ++ edges_to ds ("verify_" ++ task)))
    end.
Proof.
  unfold add_verify_tasks, bbind, blift, read_file, new_task,
    add_dependencies, bret.
  destruct (fs (verify_sql_path cfg task)); [|reflexivity].
  rewrite depend_on_ok. reflexivity.
Qed.

Lemma bbind_load {B} cfg task file_format allow (k : Task -> builder B)
    i s ts es :
  bbind (add_load_tasks cfg task file_format allow) k (mkDAG i s ts es)
  = k (load_of task file_format allow)
      (mkDAG i s
         (ts ++ [sensor_of cfg task file_format;
                 load_of task file_format allow])
         (es ++ [("wait_latest_" ++ task, "load_" ++ task)])).
Proof. apply bbind_step, add_load_tasks_ok. Qed.

Lemma bbind_enrich {B} task field is_view ds (k : Task -> builder B)
    i s ts es :
  bbind (add_enrich_tasks task field is_view (Some ds)) k (mkDAG i s ts es)
  = k (enrich_of task field is_view)
      (mkDAG i s (ts ++ [enrich_of task field is_view])
         (es ++ edges_to ds ("enrich_" ++ task))).
Proof. apply bbind_step, add_enrich_tasks_ok. Qed.

Lemma bbind_verify {B} cfg fs task ds (k : Task -> builder B) i s ts es :
  bbind (add_verify_tasks cfg fs task (Some ds)) k (mkDAG i s ts es)
  = match fs (verify_sql_path cfg task) with
    | None => Raise IOError
    | Some content =>
        k (verify_of cfg task content)
          (mkDAG i s (ts ++ [verify_of cfg task content])
             (es ++ edges_to ds ("verify_" ++ task)))
    end.
Proof.
  unfold bbind at 1. rewrite add_verify_tasks_eq.
  now destruct (fs (verify_sql_path cfg task)).
Qed.

Ltac build_step fs :=
  lazymatch goal with
  | |- context [bbind (add_load_tasks _ _ _ _) _ (mkDAG _ _ _ _)] =>
      rewrite bbind_load
  | |- context [bbind (add_enrich_tasks _ _ _ _) _ (mkDAG _ _ _ _)] =>
      rewrite bbind_enrich
  | |- context [bbind (add_verify_tasks _ _ ?task _) _ (mkDAG _ _ _ _)] =>
      rewrite bbind_verify;
      destruct (fs (verify_sql_path _ task)); [|reflexivity]
  | |- context [bbind (bbind _ _) _ (mkDAG _ _ _ _)] =>
      unfold bbind at 1
  | |- context [bbind (bret _) _ (mkDAG _ _ _ _)] =>
      unfold bbind at 1; unfold bret at 1
  | |- context [bret _ (mkDAG _ _ _ _)] =>
      unfold bret at 1
  end;
  cbv beta iota.

(** [build_load_dag] raises when the SQL file of one of the chain's
    verification tasks is missing and returns the table otherwise. *)
Lemma build_load_dag_table (cfg : config) (fs : filesystem) :
  build_load_dag cfg fs
  = if verify_files_exist cfg fs then Ok (dag_table cfg fs)
    else Raise IOError.
Proof.
  unfold build_load_dag, build_tasks, dag_table, verify_files_exist,
    verification_rules, verify_sql.
  destruct (chain cfg =? "dogecoin"), (chain cfg =? "zcash");
    cbv beta iota delta [negb];
    cbn [app map flat_map forallb];
    repeat build_step fs; reflexivity.
Qed.

Lemma verify_files_exist_In (cfg : config) (fs : filesystem) (rule : string) :
  verify_files_exist cfg fs = true ->
  In rule (verification_rules cfg) ->
  exists content, fs (verify_sql_path cfg rule) = Some content.
Proof.
  unfold verify_files_exist. intros H Hin.
  rewrite forallb_forall in H. specialize (H rule Hin).
  destruct (fs (verify_sql_path cfg rule)) as [content|]; [|discriminate].
  now exists content.
Qed.

Lemma build_load_dag_ok (cfg : config) (fs : filesystem) (dag : DAG) :
  build_load_dag cfg fs = Ok dag ->
  verify_files_exist cfg fs = true /\ dag = dag_table cfg fs.
Proof.
  rewrite build_load_dag_table.
  destruct (verify_files_exist cfg fs).
  - intros H. split; [reflexivity|]. congruence.
  - intros H. discriminate H.
Qed.

(** The tasks of the table: the eight load and enrichment tasks, or the
    verification task of a rule of the chain. *)
Lemma dag_table_tasks (cfg : config) (fs : filesystem) (t : Task) :
  In t (tasks (dag_table cfg fs)) ->
  In t (load_and_enrich_tasks cfg)
  \/ exists rule, In rule (verification_rules cfg)
                  /\ t = verify_of cfg rule (verify_sql cfg fs rule).
Proof.
  cbn [tasks dag_table]. intros H. apply in_app_or in H as [H|H].
  - now left.
  - right. apply in_map_iff in H as [rule [<- Hin]]. now exists rule.
Qed.

(** The rules of a chain are among the ten rule names. *)
Lemma verification_rules_names (cfg : config) (rule : string) :
  In rule (verification_rules cfg) ->
  In rule ["blocks_count"; "blocks_have_latest"; "transactions_count";
           "transactions_have_latest"; "transactions_fees";
           "coinbase_transactions_count"; "transaction_inputs_count";
           "transaction_outputs_count"; "transaction_inputs_count_empty";
           "transaction_outputs_count_empty"].
Proof.
  unfold verification_rules.
  destruct (chain cfg =? "dogecoin"), (chain cfg =? "zcash");
    cbn [negb app In]; intuition.
Qed.

(** The edges of the table, for each outcome of the two tests on the
    chain. *)
Lemma dag_table_edges (cfg : config) (fs : filesystem) :
  edges (dag_table cfg fs)
  = (load_and_enrich_edges
     ++ [("enrich_blocks", "verify_blocks_count");
         ("enrich_blocks", "verify_blocks_have_latest");
         ("enrich_blocks", "verify_transactions_count");
         ("enrich_transactions", "verify_transactions_count");
         ("enrich_transactions", "verify_transactions_have_latest")]
     ++ (if chain cfg =? "dogecoin" then []
         else [("enrich_transactions", "verify_transactions_fees")])
     ++ [("enrich_blocks", "verify_coinbase_transactions_count");
         ("enrich_transactions", "verify_coinbase_transactions_count");
         ("enrich_transactions", "verify_transaction_inputs_count");
         ("enrich_transactions", "verify_transaction_outputs_count")]
     ++ (if chain cfg =? "zcash" then []
         else [("enrich_transactions", "verify_transaction_inputs_count_empty");
               ("enrich_transactions",
                "verify_transaction_outputs_count_empty")]))%list.
Proof.
  cbn [edges dag_table]. unfold verification_rules.
  destruct (chain cfg =? "dogecoin"), (chain cfg =? "zcash"); reflexivity.
Qed.

Lemma dag_table_task_ids (cfg : config) (fs : filesystem) :
  task_ids (dag_table cfg fs)
  = (["wait_latest_blocks"; "load_blocks"; "wait_latest_transactions";
      "load_transactions"; "enrich_blocks"; "enrich_transactions";
      "enrich_inputs"; "enrich_outputs"]
     ++ map (append "verify_") (verification_rules cfg))%list.
Proof.
  unfold task_ids. cbn [tasks dag_table]. rewrite map_app, map_map.
  reflexivity.
Qed.


(** *** C5: verification tasks by chain *)

(** C5: when the SQL files of the chain's verification tasks are there,
    [build_load_dag] returns a DAG; for chain "dogecoin" it has no
    [verify_transactions_fees] task, for chain "zcash" it has neither
    [verify_transaction_inputs_count_empty] nor
    [verify_transaction_outputs_count_empty], and for every other chain all
    ten verification tasks are present. *)
Theorem verification_tasks_by_chain (cfg : config) (fs : filesystem) :
  verify_files_exist cfg fs = true ->
  exists dag,
    build_load_dag cfg fs = Ok dag
    /\ (chain cfg = "dogecoin" ->
        has_task dag "verify_transactions_fees" = false)
    /\ (chain cfg = "zcash" ->
        has_task dag "verify_transaction_inputs_count_empty" = false
        /\ has_task dag "verify_transaction_outputs_count_empty" = false)
    /\ (chain cfg <> "dogecoin" -> chain cfg <> "zcash" ->
        forallb (has_task dag)
          ["verify_blocks_count"; "verify_blocks_have_latest";
           "verify_transactions_count"; "verify_transactions_have_latest";
           "verify_transactions_fees"; "verify_coinbase_transactions_count";
           "verify_transaction_inputs_count";
           "verify_transaction_outputs_count";
           "verify_transaction_inputs_count_empty";
           "verify_transaction_outputs_count_empty"] = true).
Proof.
  intros Hfiles. exists (dag_table cfg fs).
  split; [now rewrite build_load_dag_table, Hfiles|].
  unfold has_task. rewrite dag_table_task_ids. unfold verification_rules.
  split; [|split].
  - intros ->. reflexivity.
  - intros ->. split; reflexivity.
  - intros Hd Hz.
    apply String.eqb_neq in Hd, Hz. rewrite Hd, Hz. reflexivity.
Qed.

(** The theorem on the dogecoin pipeline, whose SQL files are all there. *)
Lemma verification_tasks_of_dogecoin :
  verify_files_exist dogecoin example_files = true
  /\ exists dag,
       build_load_dag dogecoin example_files = Ok dag
       /\ (chain dogecoin = "dogecoin" ->
           has_task dag "verify_transactions_fees" = false)
       /\ (chain dogecoin = "zcash" ->
           has_task dag "verify_transaction_inputs_count_empty" = false
           /\ has_task dag "verify_transaction_outputs_count_empty" = false)
       /\ (chain dogecoin <> "dogecoin" -> chain dogecoin <> "zcash" ->
           forallb (has_task dag)
             ["verify_blocks_count"; "verify_blocks_have_latest";
              "verify_transactions_count"; "verify_transactions_have_latest";
              "verify_transactions_fees";
              "verify_coinbase_transactions_count";
              "verify_transaction_inputs_count";
              "verify_transaction_outputs_count";
              "verify_transaction_inputs_count_empty";
              "verify_transaction_outputs_count_empty"] = true).
Proof.
  split.
  - vm_compute. reflexivity.
  - apply (verification_tasks_by_chain dogecoin example_files).
    vm_compute. reflexivity.
Defined.

(** The verification tasks of the three kinds of chain, by evaluation. *)
Example verification_tasks_evaluated :
  let verify cfg :=
    match build_load_dag cfg example_files with
    | Ok dag => filter (prefix "verify_") (task_ids dag)
    | Raise _ => []
    end in
  verify dogecoin
  = ["verify_blocks_count"; "verify_blocks_have_latest";
     "verify_transactions_count"; "verify_transactions_have_latest";
     "verify_coinbase_transactions_count"; "verify_transaction_inputs_count";
     "verify_transaction_outputs_count";
     "verify_transaction_inputs_count_empty";
     "verify_transaction_outputs_count_empty"]
  /\ verify zcash
     = ["verify_blocks_count"; "verify_blocks_have_latest";
        "verify_transactions_count"; "verify_transactions_have_latest";
        "verify_transactions_fees"; "verify_coinbase_transactions_count";
        "verify_transaction_inputs_count"; "verify_transaction_outputs_count"]
  /\ verify bitcoin
     = ["verify_blocks_count"; "verify_blocks_have_latest";
        "verify_transactions_count"; "verify_transactions_have_latest";
        "verify_transactions_fees"; "verify_coinbase_transactions_count";
        "verify_transaction_inputs_count"; "verify_transaction_outputs_count";
        "verify_transaction_inputs_count_empty";
        "verify_transaction_outputs_count_empty"].
Proof. vm_compute. repeat split. Qed.

(** *** C8: the dependencies of the inputs and outputs enrichment *)

Lemma upstream_In (dag : DAG) (u v : string) :
  In (u, v) (edges dag) <-> In u (upstream dag v).
Proof.
  unfold upstream. rewrite in_map_iff. split.
  - intros H. exists (u, v). split; [reflexivity|].
    apply filter_In. split; [exact H|]. cbn. apply String.eqb_refl.
  - intros [[u' v'] [Hu H]]. cbn in Hu. subst u'.
    apply filter_In in H as [H Hv]. cbn in Hv.
    apply String.eqb_eq in Hv. now subst v'.
Qed.

Lemma upstream_of_views (cfg : config) (fs : filesystem) (view : string) :
  In view ["enrich_inputs"; "enrich_outputs"] ->
  upstream (dag_table cfg fs) view = ["enrich_transactions"].
Proof.
  intros Hview. unfold upstream. rewrite dag_table_edges.
  cbn [In] in Hview.
  destruct Hview as [<-|[<-|[]]];
    destruct (chain cfg =? "dogecoin"), (chain cfg =? "zcash"); reflexivity.
Qed.

(** The task named [enrich_transactions] is not a load task. *)
Lemma load_task_is_not_enrich_transactions (cfg : config) (fs : filesystem)
    (t : Task) :
  In t (tasks (dag_table cfg fs)) -> is_load_task t = true ->
  task_id t <> "enrich_transactions".
Proof.
  intros Hin Hload. apply dag_table_tasks in Hin as [Hin|[rule [_ ->]]].
  - cbn [In load_and_enrich_tasks] in Hin.
    repeat (destruct Hin as [<-|Hin]; [try discriminate Hload; discriminate|]).
    now elim Hin.
  - discriminate Hload.
Qed.

(** C8: the enrichment tasks of "inputs" and of "outputs" have exactly one
    declared dependency, the enrichment task of "transactions"; no load task
    is directly upstream of them; and every path that leads to them, such as
    the one from [load_transactions], goes through [enrich_transactions]. *)
Theorem views_depend_on_transactions_enrichment_only (cfg : config)
    (fs : filesystem) (view : string) :
  verify_files_exist cfg fs = true ->
  In view ["enrich_inputs"; "enrich_outputs"] ->
  exists dag,
    build_load_dag cfg fs = Ok dag
    /\ upstream dag view = ["enrich_transactions"]
    /\ (forall t, In t (tasks dag) -> is_load_task t = true ->
        ~ In (task_id t, view) (edges dag))
    /\ path dag "load_transactions" view
    /\ (forall a, path dag a view ->
        a = "enrich_transactions" \/ path dag a "enrich_transactions").
Proof.
  intros Hfiles Hview. exists (dag_table cfg fs).
  pose proof (upstream_of_views cfg fs view Hview) as Hup.
  assert (Hedge : forall u, In (u, view) (edges (dag_table cfg fs)) ->
                            u = "enrich_transactions").
  { intros u H. apply upstream_In in H. rewrite Hup in H.
    destruct H as [<-|[]]. reflexivity. }
  split; [now rewrite build_load_dag_table, Hfiles|].
  split; [exact Hup|]. split; [|split].
  - intros t Hin Hload H. apply Hedge in H.
    now apply (load_task_is_not_enrich_transactions cfg fs t).
  - apply path_step with (b := "enrich_transactions").
    + apply path_edge. rewrite dag_table_edges. apply in_or_app. left.
      cbn. tauto.
    + apply upstream_In. rewrite Hup. now left.
  - intros a Hpath. inversion Hpath as [a' b H|a' b c Hab H]; subst.
    + left. now apply Hedge.
    + right. apply Hedge in H. now subst b.
Qed.

(** The theorem on the bitcoin pipeline, for the enrichment of "inputs". *)
Lemma inputs_depend_on_transactions_enrichment_only :
  verify_files_exist bitcoin example_files = true
  /\ In "enrich_inputs" ["enrich_inputs"; "enrich_outputs"]
  /\ exists dag,
       build_load_dag bitcoin example_files = Ok dag
       /\ upstream dag "enrich_inputs" = ["enrich_transactions"]
       /\ (forall t, In t (tasks dag) -> is_load_task t = true ->
           ~ In (task_id t, "enrich_inputs") (edges dag))
       /\ path dag "load_transactions" "enrich_inputs"
       /\ (forall a, path dag a "enrich_inputs" ->
           a = "enrich_transactions" \/ path dag a "enrich_transactions").
Proof.
  split; [vm_compute; reflexivity|].
  split; [now left|].
  apply (views_depend_on_transactions_enrichment_only bitcoin example_files
           "enrich_inputs").
  - vm_compute. reflexivity.
  - now left.
Defined.

(** ** The staged materialization *)

Lemma eqb_append_same (c x y : string) : (c ++ x =? c ++ y) = (x =? y).
Proof.
  induction c as [|a c IH]; [reflexivity|].
  cbn [append String.eqb]. now rewrite Ascii.eqb_refl.
Qed.

(** The temporary dataset is not the destination dataset. *)
Lemma temp_is_not_dest cfg w task :
  TableReference_eqb (temp_table_ref cfg w task) (dest_table_ref cfg task)
  = false.
Proof.
  unfold TableReference_eqb, temp_table_ref, dest_table_ref.
  cbn [project dataset_id table_id].
  unfold dataset_name_temp, dataset_name. rewrite eqb_append_same.
  cbn. now rewrite andb_false_r.
Qed.

(** The tail of both modes, by the answer to the copy job. *)
Lemma copy_and_delete_eq cfg w task ops :
  let temp := temp_table_ref cfg w task in
  let copy :=
    copy_table temp (dest_table_ref cfg task) "US"
      (mkCopyJobConfig WRITE_TRUNCATE) in
  copy_and_delete cfg w task ops
  = match finished_job w copy with
    | Raise e => (ops ++ [copy], Raise e)%list
    | Ok _ => (ops ++ [copy; delete_table temp], w_delete_table w temp)%list
    end.
Proof.
  intros temp copy. subst temp copy.
  unfold copy_and_delete. cbv zeta.
  unfold bind at 1, submit at 1, bind at 1, call at 1, finished_job.
  destruct (w_job w _) as [j|e]; [|reflexivity].
  unfold bind at 1, lift at 1.
  destruct (submit_bigquery_job j); [|reflexivity].
  unfold ret at 1, bind at 1, assert at 1, lift at 1.
  destruct (job_state j =? "DONE"); [|reflexivity].
  unfold call. now rewrite <- app_assoc.
Qed.

(** [enrich_table], stage by stage: the trace of client calls and the
    outcome. *)
Lemma enrich_table_eq cfg json_loads w task tpf :
  let temp := temp_table_ref cfg w task in
  let copy :=
    copy_table temp (dest_table_ref cfg task) "US"
      (mkCopyJobConfig WRITE_TRUNCATE) in
  enrich_table cfg json_loads w task tpf []
  = match read_file (w_files w) (enrich_description_path cfg task) None with
    | Raise e => ([], Raise e)
    | Ok description =>
    match read_bigquery_schema_from_file json_loads (w_files w)
            (enrich_schema_path cfg task) with
    | Raise e => ([], Raise e)
    | Ok schema =>
    let table := mkTable temp (Some description) tpf schema None None in
    match created_table w table (temp_table_name w task) with
    | Raise e => ([create_table table], Raise e)
    | Ok _ =>
    match read_file (w_files w) (enrich_sql_path cfg task)
            (Some (environment cfg)) with
    | Raise e => ([create_table table], Raise e)
    | Ok sql =>
    let q := query sql "US" (mkQueryJobConfig INTERACTIVE temp) in
    match finished_job w q with
    | Raise e => ([create_table table; q], Raise e)
    | Ok _ =>
    match finished_job w copy with
    | Raise e => ([create_table table; q; copy], Raise e)
    | Ok _ =>
        ([create_table table; q; copy; delete_table temp],
         w_delete_table w temp)
    end end end end end end.
Proof.
  intros temp copy. subst temp copy.
  unfold enrich_table. unfold bind at 1, lift at 1.
  destruct (read_file (w_files w) (enrich_description_path cfg task) None)
    as [description|e]; [|reflexivity].
  unfold bind at 1, lift at 1.
  destruct (read_bigquery_schema_from_file json_loads (w_files w)
              (enrich_schema_path cfg task)) as [schema|e]; [|reflexivity].
  cbv zeta. unfold bind at 1, call at 1, created_table.
  destruct (w_create_table w _) as [id|e]; [|reflexivity].
  unfold bind at 1, assert at 1, lift at 1.
  destruct (id =? temp_table_name w task); [|reflexivity].
  unfold bind at 1, lift at 1.
  destruct (read_file (w_files w) (enrich_sql_path cfg task)
              (Some (environment cfg))) as [sql|e]; [|reflexivity].
  unfold bind at 1, submit at 1, bind at 1, call at 1, finished_job at 1.
  destruct (w_job w (query sql "US" _)) as [j|e]; [|reflexivity].
  unfold bind at 1, lift at 1.
  destruct (submit_bigquery_job j); [|reflexivity].
  unfold ret at 1, bind at 1, assert at 1, lift at 1.
  destruct (job_state j =? "DONE"); [|reflexivity].
  rewrite copy_and_delete_eq. reflexivity.
Qed.

(** [enrich_view], stage by stage. *)
Lemma enrich_view_eq cfg format_chain w task tpf :
  let temp := temp_table_ref cfg w task in
  let copy :=
    copy_table temp (dest_table_ref cfg task) "US"
      (mkCopyJobConfig WRITE_TRUNCATE) in
  enrich_view cfg format_chain w task tpf []
  = match read_file (w_files w) (enrich_sql_path cfg task) None with
    | Raise e => ([], Raise e)
    | Ok content =>
    match format_chain content (chain cfg) with
    | Raise e => ([], Raise e)
    | Ok sql =>
    match read_file (w_files w) (enrich_description_path cfg task) None with
    | Raise e => ([], Raise e)
    | Ok description =>
    let table :=
      mkTable temp (Some description) tpf [] (Some sql) (Some false) in
    match created_table w table (temp_table_name w task) with
    | Raise e => ([create_table table], Raise e)
    | Ok _ =>
    match finished_job w copy with
    | Raise e => ([create_table table; copy], Raise e)
    | Ok _ =>
        ([create_table table; copy; delete_table temp],
         w_delete_table w temp)
    end end end end end.
Proof.
  intros temp copy. subst temp copy.
  unfold enrich_view. unfold bind at 1, lift at 1.
  destruct (read_file (w_files w) (enrich_sql_path cfg task) None)
    as [content|e]; [|reflexivity].
  unfold bind at 1, lift at 1.
  destruct (format_chain content (chain cfg)) as [sql|e]; [|reflexivity].
  unfold bind at 1, lift at 1.
  destruct (read_file (w_files w) (enrich_description_path cfg task) None)
    as [description|e]; [|reflexivity].
  cbv zeta. unfold bind at 1, call at 1, created_table.
  destruct (w_create_table w _) as [id|e]; [|reflexivity].
  unfold bind at 1, assert at 1, lift at 1.
  destruct (id =? temp_table_name w task); [|reflexivity].
  rewrite copy_and_delete_eq. reflexivity.
Qed.

Lemma TableReference_eqb_refl (r : TableReference) : TableReference_eqb r r = true.
Proof. unfold TableReference_eqb. now rewrite !String.eqb_refl. Qed.

Lemma finished_job_ok w o j :
  finished_job w o = Ok j ->
  w_job w o = Ok j /\ reports_errors j = false /\ job_state j = "DONE".
Proof.
  unfold finished_job, submit_bigquery_job, reports_errors.
  destruct (w_job w o) as [j'|e]; [|discriminate].
  destruct (job_result j') as [u|e] eqn:Er; [|discriminate].
  destruct (no_errors j') eqn:En; [|discriminate].
  destruct (job_state j' =? "DONE") eqn:Es; [|discriminate].
  intros H; injection H as <-. apply String.eqb_eq in Es.
  split; [reflexivity|]. split; [|exact Es]. now rewrite Er, En.
Qed.

Lemma finished_job_errors w o j :
  w_job w o = Ok j -> reports_errors j = true ->
  exists e, finished_job w o = Raise e.
Proof.
  unfold finished_job, submit_bigquery_job, reports_errors. intros -> H.
  destruct (job_result j) as [u|e]; [|now exists e].
  destruct (no_errors j); [discriminate | now exists AssertionError].
Qed.

Ltac stage :=
  match goal with
  | |- context [match ?x with Ok _ => _ | Raise _ => _ end] =>
      lazymatch x with
      | context [match _ with _ => _ end] => fail
      | _ => let E := fresh "Estage" in destruct x eqn:E
      end
  end.

Ltac stages :=
  unfold run_enrich_task;
  try rewrite enrich_table_eq; try rewrite enrich_view_eq;
  cbv zeta; repeat stage; cbn [fst snd].

Ltac on_destination :=
  cbn [filter targets target reference query_destination];
  rewrite ?temp_is_not_dest, ?TableReference_eqb_refl.

Ltac finished :=
  repeat match goal with
         | H : finished_job _ _ = Ok _ |- _ =>
             apply finished_job_ok in H; destruct H as (? & ? & ?)
         end.

Ltac pick Hin :=
  cbn [In] in Hin;
  repeat (destruct Hin as [Hin|Hin]; [try discriminate Hin|]);
  try (now elim Hin).


(** *** C1: what touches the destination table *)

(** C1, as the specification states it, fails: it is not true that every
    execution of the staged materialization performs exactly one operation
    on the destination table.  When the population query of [enrich_table] ends with execution
    errors, [submit_bigquery_job] raises, the copy is never issued and no
    operation of the run targets the destination table. *)
Lemma failed_run_never_writes_destination :
  List.length
    (filter (targets (dest_table_ref bitcoin "blocks"))
       (fst (run_enrich_task bitcoin loads_empty_schema format_covered
               failing_query_world "blocks" (Some "timestamp_month") false [])))
  <> 1%nat.
Proof. vm_compute. discriminate. Qed.

(** C1, amended: in every execution of the staged materialization, in table
    mode and in view mode, the only operation whose target is the destination
    table is the WRITE_TRUNCATE copy from the temporary table, and every
    other operation (the create step, the population query, the deletion) has
    the temporary table as its target; an execution holds at most one
    operation on the destination table, and exactly one when it completes. *)
Theorem destination_written_only_by_copy (cfg : config)
    (json_loads : string -> result json)
    (format_chain : string -> string -> result string) (w : world)
    (task : string) (tpf : option string) (is_view : bool) :
  let r := run_enrich_task cfg json_loads format_chain w task tpf is_view [] in
  let dest := dest_table_ref cfg task in
  let temp := temp_table_ref cfg w task in
  let copy := copy_table temp dest "US" (mkCopyJobConfig WRITE_TRUNCATE) in
  (forall o, In o (fst r) -> targets dest o = true -> o = copy)
  /\ (forall o, In o (fst r) -> o = copy \/ target o = Some temp)
  /\ (List.length (filter (targets dest) (fst r)) <= 1)%nat
  /\ (is_ok (snd r) = true -> filter (targets dest) (fst r) = [copy]).
Proof.
  intros r dest temp copy. subst r dest temp copy.
  destruct is_view; stages.
  all: split; [|split; [|split]].
  all: try (intros o Hin Ht; cbn [In] in Hin;
            repeat (destruct Hin as [<-|Hin];
                    [revert Ht; on_destination; try discriminate; reflexivity|]);
            now elim Hin).
  all: try (intros o Hin; cbn [In] in Hin;
            repeat (destruct Hin as [<-|Hin];
                    [first [left; reflexivity | right; reflexivity]|]);
            now elim Hin).
  all: try (on_destination; cbn; lia).
  all: try discriminate.
  all: intros _; on_destination; reflexivity.
Qed.

(** *** C2: when the temporary table is deleted *)

(** C2: the temporary table is deleted only after the copy job has finished
    without execution errors, the deletion being the call right after the
    copy; and when a job of the run (the population query or the copy)
    reports execution errors, the run ends with an exception right after that
    job, no table is deleted, and the temporary table created at the start of
    the run is left in place. *)
Theorem temp_table_deleted_only_after_clean_copy (cfg : config)
    (json_loads : string -> result json)
    (format_chain : string -> string -> result string) (w : world)
    (task : string) (tpf : option string) (is_view : bool) :
  let r := run_enrich_task cfg json_loads format_chain w task tpf is_view [] in
  let temp := temp_table_ref cfg w task in
  let copy :=
    copy_table temp (dest_table_ref cfg task) "US"
      (mkCopyJobConfig WRITE_TRUNCATE) in
  (forall ref, In (delete_table ref) (fst r) ->
     ref = temp
     /\ exists j before,
          w_job w copy = Ok j /\ reports_errors j = false
          /\ job_state j = "DONE"
          /\ fst r = (before ++ [copy; delete_table temp])%list)
  /\ (forall o j, In o (fst r) -> is_job o = true ->
        w_job w o = Ok j -> reports_errors j = true ->
        (exists e, snd r = Raise e)
        /\ (forall ref, ~ In (delete_table ref) (fst r))
        /\ exists table before,
             fst r = (create_table table :: before ++ [o])%list
             /\ reference table = temp).
Proof.
  intros r temp copy. subst r temp copy.
  destruct is_view; stages; finished.
  all: split.
  all: try (intros ref Hin; pick Hin; fail).
  all: try (intros ref Hin; pick Hin; injection Hin as <-;
            split; [reflexivity|]; do 2 eexists;
            repeat (split; [eassumption|]);
            match goal with
            | |- [?a; ?b; ?c; ?d] = _ => now instantiate (1 := [a; b])
            | |- [?a; ?b; ?c] = _ => now instantiate (1 := [a])
            end).
  all: intros o j Hin Hjob Hw Herr; pick Hin; subst o; try discriminate Hjob.
  all: try congruence.
  all: split; [now eexists|]; split; [intros ref Hin; now pick Hin|].
  all: match goal with
       | |- context [[create_table ?t; ?a; ?b]] => exists t, [a]
       | |- context [[create_table ?t; ?a]] => exists t, []
       end; now split.
Qed.

(** The two halves of C2 on concrete runs: with a failing copy the run
    raises and the trace ends at the copy; on a fair service the trace ends
    with the copy and the deletion. *)
Example failing_copy_run :
  run_enrich_task bitcoin loads_empty_schema format_covered failing_copy_world
    "inputs" None true []
  = ([create_table
        (mkTable (temp_table_ref bitcoin failing_copy_world "inputs")
           (Some "Transactions of the chain") None []
           (Some "SELECT * FROM {dataset_name}.transactions") (Some false));
      copy_table (temp_table_ref bitcoin failing_copy_world "inputs")
        (dest_table_ref bitcoin "inputs") "US" (mkCopyJobConfig WRITE_TRUNCATE)],
     Raise AssertionError).
Proof. vm_compute. reflexivity. Qed.

Example fair_run :
  run_enrich_task bitcoin loads_empty_schema format_covered fair_world
    "blocks" (Some "timestamp_month") false []
  = (let temp := mkTableReference "etl-project" "bitcoin_blockchain_temp"
                   "blocks_1530403200000" in
     let dest := mkTableReference "bigquery-public-data" "bitcoin_blockchain"
                   "blocks" in
     [create_table
        (mkTable temp (Some "Transactions of the chain")
           (Some "timestamp_month") [] None None);
      query "SELECT * FROM bitcoin_blockchain.transactions" "US"
        (mkQueryJobConfig INTERACTIVE temp);
      copy_table temp dest "US" (mkCopyJobConfig WRITE_TRUNCATE);
      delete_table temp],
     Ok tt).
Proof. vm_compute. reflexivity. Qed.

(** *** C4: where the SQL of a task comes from *)

(** C4, as the specification states it, fails: the SQL of the view created
    by [enrich_view] is not the Environment substitution of its SQL file.  On a file that holds
    [{{dataset_name}}], the Environment substitution yields the dataset name,
    while [enrich_view] reads the file without an environment and applies
    [str.format(chain=chain)], which turns the doubled braces into single
    ones. *)
Lemma view_query_is_not_environment_substitution :
  exists table sql,
    In (create_table table)
       (fst (enrich_view bitcoin format_covered fair_world "inputs" None []))
    /\ view_query table = Some sql
    /\ read_file (w_files fair_world) (enrich_sql_path bitcoin "inputs")
         (Some (environment bitcoin)) <> Ok sql.
Proof.
  eexists. eexists. split; [|split].
  - vm_compute. left. reflexivity.
  - reflexivity.
  - vm_compute. discriminate.
Qed.

Lemma read_file_without_environment (fs : filesystem) (filepath : string) :
  read_file fs filepath None
  = match fs filepath with
    | Some content => Ok content
    | None => Raise IOError
    end.
Proof. reflexivity. Qed.

(** C4, amended: the population query of [enrich_table] and the query of
    every verification task are the Environment substitution of their SQL
    file; the view definition of [enrich_view] is its SQL file, read without
    an environment, passed through [str.format(chain=chain)]. *)
Theorem sql_of_queries_views_and_verifications (cfg : config)
    (fs : filesystem) (json_loads : string -> result json)
    (format_chain : string -> string -> result string) (w : world)
    (task : string) (tpf : option string) :
  (forall sql location job_config,
     In (query sql location job_config)
        (fst (enrich_table cfg json_loads w task tpf [])) ->
     read_file (w_files w) (enrich_sql_path cfg task) (Some (environment cfg))
     = Ok sql)
  /\ (forall dag t sql legacy,
        build_load_dag cfg fs = Ok dag -> In t (tasks dag) ->
        task_operator t = BigQueryOperator sql legacy ->
        exists rule,
          In rule (verification_rules cfg)
          /\ task_id t = "verify_" ++ rule
          /\ read_file fs (verify_sql_path cfg rule) (Some (environment cfg))
             = Ok sql)
  /\ (forall table,
        In (create_table table)
           (fst (enrich_view cfg format_chain w task tpf [])) ->
        exists content sql,
          w_files w (enrich_sql_path cfg task) = Some content
          /\ read_file (w_files w) (enrich_sql_path cfg task) None = Ok content
          /\ format_chain content (chain cfg) = Ok sql
          /\ view_query table = Some sql).
Proof.
  split; [|split].
  - intros sql location job_config. stages.
    all: intros Hin; pick Hin; injection Hin as <- _ _; reflexivity.
  - intros dag t sql legacy Hbuild Hin Hop.
    apply build_load_dag_ok in Hbuild as [Hfiles ->].
    apply dag_table_tasks in Hin as [Hin|[rule [Hrule ->]]].
    + cbn [In load_and_enrich_tasks] in Hin.
      repeat (destruct Hin as [<-|Hin]; [discriminate Hop|]). now elim Hin.
    + exists rule. split; [exact Hrule|]. split; [reflexivity|].
      destruct (verify_files_exist_In _ _ _ Hfiles Hrule) as [content Hc].
      cbn [task_operator verify_of] in Hop. injection Hop as <- _.
      unfold read_file, verify_sql. now rewrite Hc.
  - intros table. rewrite enrich_view_eq. cbv zeta.
    rewrite !read_file_without_environment.
    destruct (w_files w (enrich_sql_path cfg task)) as [content|];
      [|intros []].
    destruct (format_chain content (chain cfg)) as [sql|] eqn:Eformat;
      [|intros []].
    destruct (w_files w (enrich_description_path cfg task)); [|intros []].
    repeat stage; cbn [fst]; intros Hin; pick Hin; injection Hin as <-.
    all: exists content; eexists; repeat split; eassumption.
Qed.

(** *** C9: a load waits for its sensor *)

Lemma run_load_task_eq cfg json_loads w task file_format allow :
  run_load_task cfg json_loads w task file_format allow []
  = match read_bigquery_schema_from_file json_loads (w_files w)
            (raw_schema_path cfg task) with
    | Raise e => ([], Raise e)
    | Ok schema =>
        let o :=
          load_table_from_uri
            (("gs://" ++ output_bucket cfg ++ "/export") ++ "/" ++ task
               ++ "/*." ++ file_format)
            (mkTableReference (w_project w) (dataset_name_raw cfg) task)
            (mkLoadJobConfig schema
               (if file_format =? "csv" then CSV else NEWLINE_DELIMITED_JSON)
               (if file_format =? "csv" then Some 1%Z else None)
               WRITE_TRUNCATE allow true) in
        match finished_job w o with
        | Raise e => ([o], Raise e)
        | Ok _ => ([o], Ok tt)
        end
    end.
Proof.
  unfold run_load_task. unfold bind at 1, lift at 1.
  destruct (read_bigquery_schema_from_file json_loads (w_files w)
              (raw_schema_path cfg task)) as [schema|e]; [|reflexivity].
  cbv zeta. unfold bind at 1, submit at 1, bind at 1, call at 1, finished_job.
  destruct (w_job w _) as [j|e]; [|reflexivity].
  unfold bind at 1, lift at 1.
  destruct (submit_bigquery_job j); [|reflexivity].
  unfold ret at 1, assert at 1, lift at 1.
  now destruct (job_state j =? "DONE").
Qed.

Lemma attempt_task_execute cfg json_loads format_chain t w :
  attempt_task (execute cfg json_loads format_chain t w) = task_id t.
Proof.
  unfold execute. destruct (task_operator t); try reflexivity.
  now destruct (run_callable cfg json_loads format_chain w callable []).
Qed.



Lemma succeeded_app (before after : list attempt) (id : string) :
  succeeded before id -> succeeded (before ++ after) id.
Proof.
  intros [a [Hin H]]. exists a. split; [|exact H].
  apply in_or_app. now left.
Qed.

(** Every attempt of a run is the attempt of a task of the DAG, made when
    the tasks upstream of it had succeeded. *)
Lemma dag_run_attempts cfg json_loads format_chain dag log :
  dag_run cfg json_loads format_chain dag log ->
  forall before a after,
    log = (before ++ a :: after)%list ->
    exists t w,
      In t (tasks dag)
      /\ a = execute cfg json_loads format_chain t w
      /\ forall u, In u (upstream dag (task_id t)) -> succeeded before u.
Proof.
  induction 1 as [|log t w Hrun IH Hin Hup]; intros before a after E.
  - now destruct before.
  - destruct after as [|b after].
    + apply app_inj_tail in E as [-> <-]. now exists t, w.
    + destruct (@exists_last _ (b :: after)) as [l' [y El']]; [discriminate|].
      rewrite El', app_comm_cons, app_assoc in E.
      apply app_inj_tail in E as [-> _].
      now apply (IH before a l').
Qed.












Example found_steps_is_a_run :
  timed_run bitcoin loads_empty_schema format_covered bitcoin_dag found_steps.
Proof.
  apply (timed_run_step bitcoin loads_empty_schema format_covered bitcoin_dag
           [mkStep (sensor_of bitcoin "blocks" "json") fair_world late_bucket]
           (mkStep (load_of "blocks" "json" false) fair_world late_bucket)).
  - apply (timed_run_step bitcoin loads_empty_schema format_covered
             bitcoin_dag []
             (mkStep (sensor_of bitcoin "blocks" "json") fair_world
                late_bucket)).
    + apply timed_run_start.
    + vm_compute. left. reflexivity.
    + vm_compute. reflexivity.
    + vm_compute. intros u [].
  - vm_compute. right. left. reflexivity.
  - exact I.
  - intros u Hu. vm_compute in Hu. destruct Hu as [<-|[]].
    eexists. split; [left; reflexivity|]. split; reflexivity.
Qed.


(** In that run the sensor has not succeeded. *)
Example sensor_timed_out :
  ~ succeeded silent_log "wait_latest_blocks".
Proof.
  intros [a [[<-|[]] [_ H]]]. vm_compute in H. discriminate H.
Qed.

(** * Further properties *)

(** ** [read_file] and the paths it is given *)

Lemma replace_from_absent (old new s : string) :
  occurs old s = false -> Str.replace_from old new 0 s = s.
Proof.
  induction s as [|c s IH]; [reflexivity|].
  cbn [occurs]. intros H. apply orb_false_iff in H as [Hp Ho].
  rewrite replace_from_copy by exact Hp. now rewrite (IH Ho).
Qed.

Lemma substitute_absent (environment : environment_t) (content : string) :
  (forall key value, In (key, value) environment ->
                     occurs (placeholder key) content = false) ->
  substitute environment content = content.
Proof.
  induction environment as [|[key value] rest IH]; [reflexivity|].
  intros H. cbn [substitute].
  change (Str.replace (placeholder key) value content)
    with (Str.replace_from (placeholder key) value 0 content).
  rewrite replace_from_absent by (apply (H key value); now left).
  apply IH. intros k v Hin. apply (H k v). now right.
Qed.

(** X1: a file in which the placeholder of no key of the environment occurs
    is returned unchanged, whatever else it holds (braces included). *)
Theorem read_file_without_placeholders (fs : filesystem) (filepath : string)
    (environment : environment_t) (content : string) :
  fs filepath = Some content ->
  (forall key value, In (key, value) environment ->
                     occurs (placeholder key) content = false) ->
  read_file fs filepath (Some environment) = Ok content.
Proof.
  intros Hfile H. unfold read_file. rewrite Hfile.
  now rewrite substitute_absent.
Qed.

(** The theorem on a file that holds braces but no placeholder of the
    bitcoin environment. *)
Lemma read_file_without_placeholders_example :
  (fun _ : string => Some "SELECT '{{ds}}' AS day, '{x}' AS x") "day.sql"
  = Some "SELECT '{{ds}}' AS day, '{x}' AS x"
  /\ (forall key value, In (key, value) (environment bitcoin) ->
        occurs (placeholder key) "SELECT '{{ds}}' AS day, '{x}' AS x" = false)
  /\ read_file (fun _ => Some "SELECT '{{ds}}' AS day, '{x}' AS x") "day.sql"
       (Some (environment bitcoin))
     = Ok "SELECT '{{ds}}' AS day, '{x}' AS x".
Proof.
  assert (H : forall key value, In (key, value) (environment bitcoin) ->
                occurs (placeholder key) "SELECT '{{ds}}' AS day, '{x}' AS x"
                = false).
  { intros key value Hin. cbn [In environment] in Hin.
    repeat (destruct Hin as [Hin|Hin]; [injection Hin as <- _; reflexivity|]).
    now elim Hin. }
  split; [reflexivity|]. split; [exact H|].
  apply (read_file_without_placeholders
           (fun _ => Some "SELECT '{{ds}}' AS day, '{x}' AS x") "day.sql"
           (environment bitcoin) "SELECT '{{ds}}' AS day, '{x}' AS x").
  - reflexivity.
  - exact H.
Defined.

Lemma append_inj_l (a x y : string) : a ++ x = a ++ y -> x = y.
Proof.
  induction a as [|c a IH]; [easy|].
  cbn [append]. intros H. injection H as H. now apply IH.
Qed.

Lemma append_length (a b : string) :
  String.length (a ++ b) = String.length a + String.length b.
Proof. induction a as [|c a IH]; cbn; [reflexivity | now rewrite IH]. Qed.

Lemma append_inj_r (x y e : string) : x ++ e = y ++ e -> x = y.
Proof.
  revert y; induction x as [|c x IH]; intros [|d y] H.
  - reflexivity.
  - exfalso. apply (f_equal String.length) in H.
    cbn [append] in H. cbn [String.length] in H.
    rewrite append_length in H. cbn [append String.length] in H. lia.
  - exfalso. apply (f_equal String.length) in H.
    cbn [append] in H. cbn [String.length] in H.
    rewrite append_length in H. cbn [append String.length] in H. lia.
  - cbn [append] in H. injection H as -> H. f_equal. now apply IH.
Qed.

(** The path of a resource: the folder, a separator that depends on the
    folder alone, then the relative path. *)
Lemma resource_eq (cfg : config) (dir task ext : string) :
  prefix "/" (dir ++ task ++ ext) = false ->
  resource cfg dir task ext
  = (dags_folder cfg
     ++ (if (dags_folder cfg =? EmptyString)
            || Str.endswith (dags_folder cfg) "/"
         then EmptyString else "/"))
    ++ dir ++ task ++ ext.
Proof.
  intros H. unfold resource, path_join. rewrite H.
  destruct ((dags_folder cfg =? EmptyString)
            || Str.endswith (dags_folder cfg) "/").
  - cbn [append]. generalize (dags_folder cfg) as a.
    induction a as [|c a IH]; cbn; [reflexivity | now rewrite <- IH].
  - now rewrite append_assoc.
Qed.

(** X2: the file read for a task is determined by the task: within each of
    the five families of resource files (raw schemas, enrichment
    descriptions, enrichment schemas, enrichment SQL, verification SQL) two
    task names give the same path only when they are equal, and the paths of
    two different families are different, for each of the ten pairs of
    families. *)
Theorem resource_paths_are_distinct (cfg : config) (t1 t2 : string) :
  (raw_schema_path cfg t1 = raw_schema_path cfg t2 -> t1 = t2)
  /\ (enrich_description_path cfg t1 = enrich_description_path cfg t2 ->
      t1 = t2)
  /\ (enrich_schema_path cfg t1 = enrich_schema_path cfg t2 -> t1 = t2)
  /\ (enrich_sql_path cfg t1 = enrich_sql_path cfg t2 -> t1 = t2)
  /\ (verify_sql_path cfg t1 = verify_sql_path cfg t2 -> t1 = t2)
  /\ enrich_sql_path cfg t1 <> verify_sql_path cfg t2
  /\ enrich_sql_path cfg t1 <> enrich_description_path cfg t2
  /\ enrich_sql_path cfg t1 <> enrich_schema_path cfg t2
  /\ enrich_schema_path cfg t1 <> raw_schema_path cfg t2
  /\ enrich_schema_path cfg t1 <> enrich_description_path cfg t2
  /\ raw_schema_path cfg t1 <> enrich_description_path cfg t2
  /\ raw_schema_path cfg t1 <> enrich_sql_path cfg t2
  /\ raw_schema_path cfg t1 <> verify_sql_path cfg t2
  /\ enrich_description_path cfg t1 <> verify_sql_path cfg t2
  /\ enrich_schema_path cfg t1 <> verify_sql_path cfg t2.
Proof.
  unfold raw_schema_path, enrich_description_path, enrich_schema_path,
    enrich_sql_path, verify_sql_path.
  rewrite !resource_eq by reflexivity.
  repeat split; intros H; apply append_inj_l in H.
  1-5: apply append_inj_l in H; now apply append_inj_r in H.
  all: cbn [append] in H; discriminate H.
Qed.

(** ** Temporary tables *)

Lemma of_Z_inj (a b : Z) : Str.of_Z a = Str.of_Z b -> a = b.
Proof.
  unfold Str.of_Z. intros H.
  assert (Hnil : forall z, Z.to_int z <> Decimal.Pos Decimal.Nil
                           /\ Z.to_int z <> Decimal.Neg Decimal.Nil).
  { intros [|p|p]; cbn; split; try discriminate.
    - intros [= E]. now apply (DecimalPos.Unsigned.to_uint_nonnil p).
    - intros [= E]. now apply (DecimalPos.Unsigned.to_uint_nonnil p). }
  apply DecimalZ.to_int_inj.
  destruct (Hnil a) as [Ha1 Ha2], (Hnil b) as [Hb1 Hb2].
  pose proof (NilZero.isi (Z.to_int a) Ha1 Ha2) as Ea.
  pose proof (NilZero.isi (Z.to_int b) Hb1 Hb2) as Eb.
  rewrite H in Ea. rewrite Ea in Eb. now injection Eb.
Qed.

(** X3: two runs of the enrichment of a task whose clocks differ in the
    millisecond use different temporary tables, and no temporary table is the
    destination table or a raw table of the pipeline. *)
Theorem temp_tables_differ (cfg : config) (w1 w2 : world) (task task' : string) :
  (w_milliseconds w1 <> w_milliseconds w2 ->
   table_id (temp_table_ref cfg w1 task) <> table_id (temp_table_ref cfg w2 task))
  /\ temp_table_ref cfg w1 task <> dest_table_ref cfg task'
  /\ dataset_id (temp_table_ref cfg w1 task) <> dataset_name_raw cfg.
Proof.
  split; [|split].
  - intros Hms H. cbn [table_id temp_table_ref] in H. unfold temp_table_name in H.
    apply append_inj_l in H. cbn [append] in H. injection H as H.
    apply of_Z_inj in H. now apply Hms.
  - intros H. apply (f_equal dataset_id) in H.
    cbn [dataset_id temp_table_ref dest_table_ref] in H.
    unfold dataset_name_temp, dataset_name in H.
    apply append_inj_l in H. discriminate H.
  - cbn [dataset_id temp_table_ref].
    unfold dataset_name_temp, dataset_name_raw. intros H.
    apply append_inj_l in H. discriminate H.
Qed.

(** ** The shape of the task graph *)

Lemma all_distinct_NoDup (l : list string) :
  all_distinct l = true -> NoDup l.
Proof.
  induction l as [|x l IH]; [constructor|].
  cbn [all_distinct]. intros H. apply andb_true_iff in H as [Hx Hl].
  constructor; [|now apply IH].
  intros Hin. apply negb_true_iff in Hx.
  assert (existsb (String.eqb x) l = true); [|congruence].
  apply existsb_exists. exists x. split; [exact Hin | apply String.eqb_refl].
Qed.

Lemma path_prepend (dag : DAG) (a x b : string) :
  In (a, x) (edges dag) -> path dag x b -> path dag a b.
Proof.
  intros Hax Hp. induction Hp as [x b H|x b c Hp IH H].
  - eapply path_step; [apply path_edge; exact Hax | exact H].
  - eapply path_step; [apply IH; exact Hax | exact H].
Qed.

Lemma reach_path (dag : DAG) (n : nat) (a b : string) :
  reach n (edges dag) a b = true -> path dag a b.
Proof.
  revert a; induction n as [|n IH]; intros a; [discriminate|].
  cbn [reach]. intros H. apply existsb_exists in H as [[u v] [Hin H]].
  cbn [fst snd] in H. apply andb_true_iff in H as [Hu H].
  apply String.eqb_eq in Hu. subst u.
  apply orb_true_iff in H as [H|H].
  - apply String.eqb_eq in H. subst v. now apply path_edge.
  - eapply path_prepend; [exact Hin | now apply IH].
Qed.

Lemma path_stage (dag : DAG) (a b : string) :
  (forall e, In e (edges dag) -> stage_of (fst e) < stage_of (snd e)) ->
  path dag a b -> stage_of a < stage_of b.
Proof.
  intros Hedges Hp. induction Hp as [a b H|a b c Hp IH H].
  - exact (Hedges (a, b) H).
  - pose proof (Hedges (b, c) H) as Hbc. cbn [fst snd] in Hbc. lia.
Qed.

Lemma dag_table_edges_staged (cfg : config) (fs : filesystem) :
  forall e, In e (edges (dag_table cfg fs)) ->
            stage_of (fst e) < stage_of (snd e).
Proof.
  assert (H : forallb (fun e => (stage_of (fst e) <? stage_of (snd e))%nat)
                (edges (dag_table cfg fs)) = true).
  { rewrite dag_table_edges.
    destruct (chain cfg =? "dogecoin"), (chain cfg =? "zcash"); reflexivity. }
  rewrite forallb_forall in H. intros e Hin. apply Nat.ltb_lt. now apply H.
Qed.

(** X4: the graph [build_load_dag] returns is acyclic, for every chain: no
    chain of dependency edges leads from a task back to itself, since every
    edge goes from a stage of the pipeline (sensor, load, enrichment of a
    table, enrichment of a view, verification) to a later one. *)
Theorem build_load_dag_acyclic (cfg : config) (fs : filesystem) (dag : DAG)
    (a b : string) :
  build_load_dag cfg fs = Ok dag ->
  path dag a b ->
  stage_of a < stage_of b /\ a <> b /\ ~ path dag b a.
Proof.
  intros Hbuild Hp. apply build_load_dag_ok in Hbuild as [_ ->].
  pose proof (path_stage _ a b (dag_table_edges_staged cfg fs) Hp) as Hab.
  split; [exact Hab|]. split.
  - intros ->. lia.
  - intros Hba.
    pose proof (path_stage _ b a (dag_table_edges_staged cfg fs) Hba). lia.
Qed.

(** The theorem on the path from the sensor of "transactions" to the
    enrichment of "inputs" in the bitcoin pipeline. *)
Lemma build_load_dag_acyclic_example :
  build_load_dag bitcoin example_files = Ok bitcoin_dag
  /\ path bitcoin_dag "wait_latest_transactions" "enrich_inputs"
  /\ stage_of "wait_latest_transactions" < stage_of "enrich_inputs"
  /\ "wait_latest_transactions" <> "enrich_inputs"
  /\ ~ path bitcoin_dag "enrich_inputs" "wait_latest_transactions".
Proof.
  assert (Hbuild : build_load_dag bitcoin example_files = Ok bitcoin_dag)
    by (vm_compute; reflexivity).
  assert (Hp : path bitcoin_dag "wait_latest_transactions" "enrich_inputs")
    by (apply (reach_path bitcoin_dag 3); vm_compute; reflexivity).
  split; [exact Hbuild|]. split; [exact Hp|].
  exact (build_load_dag_acyclic bitcoin example_files bitcoin_dag
           "wait_latest_transactions" "enrich_inputs" Hbuild Hp).
Defined.

Lemma dag_table_well_formed (cfg : config) (fs : filesystem) :
  all_distinct (task_ids (dag_table cfg fs)) = true
  /\ forallb (fun e => has_task (dag_table cfg fs) (fst e)
                       && has_task (dag_table cfg fs) (snd e))
       (edges (dag_table cfg fs)) = true.
Proof.
  unfold has_task. rewrite dag_table_edges, dag_table_task_ids.
  unfold verification_rules.
  destruct (chain cfg =? "dogecoin"), (chain cfg =? "zcash");
    split; reflexivity.
Qed.

(** X5: in the graph [build_load_dag] returns no two tasks have the same
    [task_id], and every dependency edge joins two tasks of the graph. *)
Theorem build_load_dag_well_formed (cfg : config) (fs : filesystem)
    (dag : DAG) :
  build_load_dag cfg fs = Ok dag ->
  NoDup (task_ids dag)
  /\ forall u v, In (u, v) (edges dag) ->
                 In u (task_ids dag) /\ In v (task_ids dag).
Proof.
  intros Hbuild. apply build_load_dag_ok in Hbuild as [_ ->].
  destruct (dag_table_well_formed cfg fs) as [Hd He].
  split; [now apply all_distinct_NoDup|].
  intros u v Hin. rewrite forallb_forall in He.
  specialize (He (u, v) Hin). cbn [fst snd] in He.
  apply andb_true_iff in He as [Hu Hv]. unfold has_task in Hu, Hv.
  apply existsb_exists in Hu as [u' [Hu E]]. apply String.eqb_eq in E.
  apply existsb_exists in Hv as [v' [Hv E']]. apply String.eqb_eq in E'.
  subst u' v'. now split.
Qed.

(** The theorem on the zcash pipeline. *)
Lemma build_load_dag_well_formed_example :
  build_load_dag zcash example_files = Ok (dag_table zcash example_files)
  /\ NoDup (task_ids (dag_table zcash example_files))
  /\ forall u v, In (u, v) (edges (dag_table zcash example_files)) ->
                 In u (task_ids (dag_table zcash example_files))
                 /\ In v (task_ids (dag_table zcash example_files)).
Proof.
  assert (Hbuild : build_load_dag zcash example_files
                   = Ok (dag_table zcash example_files))
    by (vm_compute; reflexivity).
  split; [exact Hbuild|].
  exact (build_load_dag_well_formed zcash example_files
           (dag_table zcash example_files) Hbuild).
Defined.

Lemma forallb_ext_in {A} (f g : A -> bool) (l : list A) :
  (forall x, In x l -> f x = g x) -> forallb f l = forallb g l.
Proof.
  induction l as [|x l IH]; [reflexivity|].
  intros H. cbn [forallb]. rewrite (H x) by now left.
  rewrite IH; [reflexivity|]. intros y Hy. apply H. now right.
Qed.

(** X6: building the DAG reads the SQL files of the chain's verification
    tasks and no other file: it raises [IOError] when one of them is
    missing, returns a DAG when they are all there, and two file systems
    that agree on these files give the same result. *)
Theorem build_load_dag_reads_verification_files (cfg : config)
    (fs fs' : filesystem) :
  ((exists rule, In rule (verification_rules cfg)
                 /\ fs (verify_sql_path cfg rule) = None) ->
   build_load_dag cfg fs = Raise IOError)
  /\ ((forall rule, In rule (verification_rules cfg) ->
                    fs (verify_sql_path cfg rule) <> None) ->
      exists dag, build_load_dag cfg fs = Ok dag)
  /\ ((forall rule, In rule (verification_rules cfg) ->
                    fs (verify_sql_path cfg rule)
                    = fs' (verify_sql_path cfg rule)) ->
      build_load_dag cfg fs = build_load_dag cfg fs').
Proof.
  split; [|split].
  - intros [rule [Hin Hnone]]. rewrite build_load_dag_table.
    destruct (verify_files_exist cfg fs) eqn:E; [|reflexivity].
    destruct (verify_files_exist_In cfg fs rule E Hin) as [content Hc].
    congruence.
  - intros Hall. rewrite build_load_dag_table.
    assert (E : verify_files_exist cfg fs = true).
    { unfold verify_files_exist. apply forallb_forall. intros rule Hin.
      specialize (Hall rule Hin).
      now destruct (fs (verify_sql_path cfg rule)). }
    rewrite E. now eexists.
  - intros Hagree. rewrite !build_load_dag_table.
    assert (E : verify_files_exist cfg fs = verify_files_exist cfg fs').
    { unfold verify_files_exist. apply forallb_ext_in.
      intros rule Hin. now rewrite (Hagree rule Hin). }
    assert (T : dag_table cfg fs = dag_table cfg fs').
    { unfold dag_table. f_equal. f_equal. apply map_ext_in.
      intros rule Hin. unfold verify_sql. now rewrite (Hagree rule Hin). }
    now rewrite E, T.
Qed.

(** The DAG of dogecoin is built although the SQL file of the fee
    verification is missing, and not that of bitcoin. *)
Example build_without_fee_verification_file :
  let fs path :=
    if Str.endswith path "transactions_fees.sql" then None
    else example_files path in
  is_ok (build_load_dag dogecoin fs) = true
  /\ build_load_dag bitcoin fs = Raise IOError.
Proof. vm_compute. split; reflexivity. Qed.

Lemma dag_table_follows_sensors (cfg : config) (fs : filesystem) :
  forallb (follows_sensor (edges (dag_table cfg fs)))
    (task_ids (dag_table cfg fs)) = true.
Proof.
  rewrite dag_table_edges, dag_table_task_ids. unfold verification_rules.
  destruct (chain cfg =? "dogecoin"), (chain cfg =? "zcash");
    vm_compute; reflexivity.
Qed.

Lemma task_follows_a_sensor (cfg : config) (fs : filesystem)
    (dag : DAG) (id : string) :
  build_load_dag cfg fs = Ok dag ->
  In id (task_ids dag) ->
  (upstream dag id = []
   /\ (id = "wait_latest_blocks" \/ id = "wait_latest_transactions"))
  \/ (upstream dag id <> []
      /\ (path dag "wait_latest_blocks" id
          \/ path dag "wait_latest_transactions" id)).
Proof.
  intros Hbuild Hin. apply build_load_dag_ok in Hbuild as [_ ->].
  pose proof (dag_table_follows_sensors cfg fs) as H.
  rewrite forallb_forall in H. specialize (H id Hin).
  unfold follows_sensor in H. fold (upstream (dag_table cfg fs) id) in H.
  destruct ((id =? "wait_latest_blocks") || (id =? "wait_latest_transactions"))
    eqn:E.
  - left. split.
    + now destruct (upstream (dag_table cfg fs) id).
    + apply orb_true_iff in E as [E|E]; apply String.eqb_eq in E; tauto.
  - right. apply andb_true_iff in H as [Hup Hreach]. split.
    + now destruct (upstream (dag_table cfg fs) id).
    + apply orb_true_iff in Hreach as [Hr|Hr]; apply reach_path in Hr; tauto.
Qed.

(** X7: in the graph [build_load_dag] returns, the two sensors are the only
    tasks without an upstream task, and every other task has one of the
    sensors among the tasks it transitively depends on. *)
Theorem every_task_follows_a_sensor (cfg : config) (fs : filesystem)
    (dag : DAG) (id : string) :
  build_load_dag cfg fs = Ok dag ->
  In id (task_ids dag) ->
  (upstream dag id = []
   /\ (id = "wait_latest_blocks" \/ id = "wait_latest_transactions"))
  \/ (upstream dag id <> []
      /\ (path dag "wait_latest_blocks" id
          \/ path dag "wait_latest_transactions" id)).
Proof. exact (task_follows_a_sensor cfg fs dag id). Qed.

(** The theorem on a verification task of the bitcoin pipeline. *)
Lemma every_task_follows_a_sensor_example :
  build_load_dag bitcoin example_files = Ok bitcoin_dag
  /\ In "verify_transactions_fees" (task_ids bitcoin_dag)
  /\ ((upstream bitcoin_dag "verify_transactions_fees" = []
       /\ ("verify_transactions_fees" = "wait_latest_blocks"
           \/ "verify_transactions_fees" = "wait_latest_transactions"))
      \/ (upstream bitcoin_dag "verify_transactions_fees" <> []
          /\ (path bitcoin_dag "wait_latest_blocks" "verify_transactions_fees"
              \/ path bitcoin_dag "wait_latest_transactions"
                   "verify_transactions_fees"))).
Proof.
  assert (Hbuild : build_load_dag bitcoin example_files = Ok bitcoin_dag)
    by (vm_compute; reflexivity).
  assert (Hin : In "verify_transactions_fees" (task_ids bitcoin_dag))
    by (vm_compute; tauto).
  split; [exact Hbuild|]. split; [exact Hin|].
  exact (every_task_follows_a_sensor bitcoin example_files bitcoin_dag
           "verify_transactions_fees" Hbuild Hin).
Defined.

(** ** Runs of the graph *)

Lemma dag_run_precedence cfg json_loads format_chain dag log :
  dag_run cfg json_loads format_chain dag log ->
  forall a c, path dag a c ->
  forall before x after,
    log = (before ++ x :: after)%list ->
    attempt_task x = c ->
    succeeded before a.
Proof.
  intros Hrun a c Hp.
  assert (Hedge : forall u v before x after,
             In (u, v) (edges dag) ->
             log = (before ++ x :: after)%list ->
             attempt_task x = v -> succeeded before u).
  { intros u v before x after Huv E Hx.
    destruct (dag_run_attempts _ _ _ _ _ Hrun before x after E)
      as [t [w [_ [-> Hdeps]]]].
    rewrite attempt_task_execute in Hx. apply Hdeps. rewrite Hx.
    now apply upstream_In. }
  induction Hp as [a b H|a b c Hp IH H]; intros before x after E Hx.
  - eapply Hedge; eassumption.
  - destruct (Hedge b c before x after H E Hx) as [y [Hy [Hyb _]]].
    apply in_split in Hy as [b1 [b2 ->]].
    rewrite <- app_assoc in E. cbn [app] in E.
    apply succeeded_app. exact (IH b1 y _ E Hyb).
Qed.

(** X8: in every run of a graph returned by [build_load_dag] in which tasks
    are attempted only after the tasks directly upstream of them have
    succeeded, a task is attempted only after every task it transitively
    depends on has succeeded; so whenever a task other than a sensor is
    attempted, one of the sensors has succeeded before. *)
Theorem attempts_follow_all_dependencies (cfg : config) (fs : filesystem)
    (json_loads : string -> result json)
    (format_chain : string -> string -> result string)
    (dag : DAG) (log before after : list attempt) (x : attempt) :
  build_load_dag cfg fs = Ok dag ->
  dag_run cfg json_loads format_chain dag log ->
  log = (before ++ x :: after)%list ->
  (forall a, path dag a (attempt_task x) -> succeeded before a)
  /\ (attempt_task x = "wait_latest_blocks"
      \/ attempt_task x = "wait_latest_transactions"
      \/ succeeded before "wait_latest_blocks"
      \/ succeeded before "wait_latest_transactions").
Proof.
  intros Hbuild Hrun E.
  assert (Hall : forall a, path dag a (attempt_task x) -> succeeded before a).
  { intros a Hp.
    exact (dag_run_precedence _ _ _ _ _ Hrun a _ Hp before x after E eq_refl). }
  split; [exact Hall|].
  destruct (dag_run_attempts _ _ _ _ _ Hrun before x after E)
    as [t [w [Hin [Hx _]]]].
  assert (Hid : In (attempt_task x) (task_ids dag)).
  { rewrite Hx, attempt_task_execute. unfold task_ids. now apply in_map. }
  destruct (task_follows_a_sensor cfg fs dag (attempt_task x)
              Hbuild Hid) as [[_ [H|H]]|[_ [H|H]]]; auto.
Qed.

Lemma fair_log_is_a_run :
  dag_run bitcoin loads_empty_schema format_covered bitcoin_dag fair_log.
Proof.
  apply (dag_run_attempt bitcoin loads_empty_schema format_covered bitcoin_dag
           [execute bitcoin loads_empty_schema format_covered
              (sensor_of bitcoin "blocks" "json") fair_world]
           (load_of "blocks" "json" false) fair_world).
  - apply (dag_run_attempt bitcoin loads_empty_schema format_covered
             bitcoin_dag [] (sensor_of bitcoin "blocks" "json") fair_world).
    + apply dag_run_start.
    + vm_compute. tauto.
    + vm_compute. intros u [].
  - vm_compute. tauto.
  - intros u Hu. vm_compute in Hu. destruct Hu as [<-|[]].
    eexists. split; [left; reflexivity|]. split; reflexivity.
Qed.

(** The theorem on the attempt of the load of "blocks" in [fair_log]. *)
Lemma attempts_follow_all_dependencies_example :
  build_load_dag bitcoin example_files = Ok bitcoin_dag
  /\ dag_run bitcoin loads_empty_schema format_covered bitcoin_dag fair_log
  /\ fair_log
     = ([execute bitcoin loads_empty_schema format_covered
           (sensor_of bitcoin "blocks" "json") fair_world]
        ++ execute bitcoin loads_empty_schema format_covered
             (load_of "blocks" "json" false) fair_world :: [])%list
  /\ (forall a,
        path bitcoin_dag a
          (attempt_task
             (execute bitcoin loads_empty_schema format_covered
                (load_of "blocks" "json" false) fair_world)) ->
        succeeded
          [execute bitcoin loads_empty_schema format_covered
             (sensor_of bitcoin "blocks" "json") fair_world] a)
  /\ (attempt_task
        (execute bitcoin loads_empty_schema format_covered
           (load_of "blocks" "json" false) fair_world) = "wait_latest_blocks"
      \/ attempt_task
           (execute bitcoin loads_empty_schema format_covered
              (load_of "blocks" "json" false) fair_world)
         = "wait_latest_transactions"
      \/ succeeded
           [execute bitcoin loads_empty_schema format_covered
              (sensor_of bitcoin "blocks" "json") fair_world]
           "wait_latest_blocks"
      \/ succeeded
           [execute bitcoin loads_empty_schema format_covered
              (sensor_of bitcoin "blocks" "json") fair_world]
           "wait_latest_transactions").
Proof.
  assert (Hbuild : build_load_dag bitcoin example_files = Ok bitcoin_dag)
    by (vm_compute; reflexivity).
  split; [exact Hbuild|]. split; [exact fair_log_is_a_run|].
  split; [reflexivity|].
  exact (attempts_follow_all_dependencies bitcoin example_files
           loads_empty_schema format_covered bitcoin_dag fair_log
           [execute bitcoin loads_empty_schema format_covered
              (sensor_of bitcoin "blocks" "json") fair_world]
           []
           (execute bitcoin loads_empty_schema format_covered
              (load_of "blocks" "json" false) fair_world)
           Hbuild fair_log_is_a_run eq_refl).
Defined.

(** ** Runs of the enrichment and load callables *)

(** X9: an enrichment makes no call to the service exactly when one of the
    inputs it reads before creating the temporary table cannot be had: in
    table mode the description file or the schema, in view mode the SQL
    file, its formatting or the description file.  Such a run raises. *)
Theorem no_call_iff_inputs_fail (cfg : config)
    (json_loads : string -> result json)
    (format_chain : string -> string -> result string) (w : world)
    (task : string) (tpf : option string) :
  (fst (enrich_table cfg json_loads w task tpf []) = [] <->
   is_ok (read_file (w_files w) (enrich_description_path cfg task) None)
   && is_ok (read_bigquery_schema_from_file json_loads (w_files w)
               (enrich_schema_path cfg task)) = false)
  /\ (fst (enrich_view cfg format_chain w task tpf []) = [] <->
      match read_file (w_files w) (enrich_sql_path cfg task) None with
      | Ok content =>
          is_ok (format_chain content (chain cfg))
          && is_ok (read_file (w_files w) (enrich_description_path cfg task)
                      None)
      | Raise _ => false
      end = false)
  /\ (fst (enrich_table cfg json_loads w task tpf []) = [] ->
      is_ok (snd (enrich_table cfg json_loads w task tpf [])) = false)
  /\ (fst (enrich_view cfg format_chain w task tpf []) = [] ->
      is_ok (snd (enrich_view cfg format_chain w task tpf [])) = false).
Proof.
  rewrite enrich_table_eq, enrich_view_eq. cbv zeta.
  repeat split; repeat stage; cbn [fst snd is_ok andb];
    try reflexivity; try discriminate; intros H; try discriminate H;
    try reflexivity.
Qed.

(** X10: a job (the population query or the copy) is submitted only after
    the temporary table has been created and the service has returned a
    table of the expected name; in table mode the population query is
    submitted only if the SQL file could be read, so that a missing SQL file
    leaves a created temporary table behind without any job. *)
Theorem jobs_need_the_created_table (cfg : config)
    (json_loads : string -> result json)
    (format_chain : string -> string -> result string) (w : world)
    (task : string) (tpf : option string) (is_view : bool) (o : operation) :
  let r := run_enrich_task cfg json_loads format_chain w task tpf is_view [] in
  In o (fst r) -> is_job o = true ->
  exists table rest,
    fst r = create_table table :: rest
    /\ reference table = temp_table_ref cfg w task
    /\ w_create_table w table = Ok (temp_table_name w task)
    /\ (is_view = false ->
        is_ok (read_file (w_files w) (enrich_sql_path cfg task)
                 (Some (environment cfg))) = true).
Proof.
  intros r. subst r.
  assert (Hcreated : forall table u,
             created_table w table (temp_table_name w task) = Ok u ->
             w_create_table w table = Ok (temp_table_name w task)).
  { intros table u. unfold created_table.
    destruct (w_create_table w table) as [id|e]; [|discriminate].
    destruct (id =? temp_table_name w task) eqn:E; [|discriminate].
    apply String.eqb_eq in E. now subst id. }
  destruct is_view; stages.
  all: intros Hin Hjob; pick Hin; subst o; try discriminate Hjob.
  all: do 2 eexists; split; [reflexivity|]; split; [reflexivity|].
  all: split; [eapply Hcreated; eassumption|].
  all: first [ discriminate | reflexivity ].
Qed.

(** The theorem on the copy job of a fair run in view mode. *)
Lemma jobs_need_the_created_table_example :
  In (copy_table (temp_table_ref bitcoin fair_world "inputs")
        (dest_table_ref bitcoin "inputs") "US" (mkCopyJobConfig WRITE_TRUNCATE))
     (fst (run_enrich_task bitcoin loads_empty_schema format_covered
             fair_world "inputs" None true []))
  /\ is_job (copy_table (temp_table_ref bitcoin fair_world "inputs")
               (dest_table_ref bitcoin "inputs") "US"
               (mkCopyJobConfig WRITE_TRUNCATE)) = true
  /\ exists table rest,
       fst (run_enrich_task bitcoin loads_empty_schema format_covered
              fair_world "inputs" None true [])
       = create_table table :: rest
       /\ reference table = temp_table_ref bitcoin fair_world "inputs"
       /\ w_create_table fair_world table
          = Ok (temp_table_name fair_world "inputs")
       /\ (true = false ->
           is_ok (read_file (w_files fair_world)
                    (enrich_sql_path bitcoin "inputs")
                    (Some (environment bitcoin))) = true).
Proof.
  assert (Hin : In (copy_table (temp_table_ref bitcoin fair_world "inputs")
                      (dest_table_ref bitcoin "inputs") "US"
                      (mkCopyJobConfig WRITE_TRUNCATE))
                   (fst (run_enrich_task bitcoin loads_empty_schema
                           format_covered fair_world "inputs" None true [])))
    by (vm_compute; tauto).
  split; [exact Hin|]. split; [reflexivity|].
  exact (jobs_need_the_created_table bitcoin loads_empty_schema format_covered
           fair_world "inputs" None true _ Hin eq_refl).
Defined.

(** In table mode a missing SQL file is found out after the temporary table
    has been created: the table stays, no job runs. *)
Example missing_sql_file_leaves_temp_table :
  run_enrich_task bitcoin loads_empty_schema format_covered world_without_sql
    "blocks" (Some "timestamp_month") false []
  = ([create_table
        (mkTable
           (mkTableReference "etl-project" "bitcoin_blockchain_temp"
              "blocks_1530403200000")
           (Some "Transactions of the chain") (Some "timestamp_month") []
           None None)],
     Raise IOError)
  /\ run_enrich_task bitcoin loads_empty_schema format_covered
       world_without_sql "inputs" None true []
     = ([], Raise IOError).
Proof. vm_compute. split; reflexivity. Qed.

(** X11: an enrichment that returns normally has made all its calls, in
    order: the creation of the temporary table, in table mode the population
    query into it, the copy to the destination and the deletion of the
    temporary table; every job among them finished without errors and in
    state DONE, and the deletion succeeded. *)
Theorem completed_run_made_every_call (cfg : config)
    (json_loads : string -> result json)
    (format_chain : string -> string -> result string) (w : world)
    (task : string) (tpf : option string) (is_view : bool) :
  let r := run_enrich_task cfg json_loads format_chain w task tpf is_view [] in
  let temp := temp_table_ref cfg w task in
  let copy :=
    copy_table temp (dest_table_ref cfg task) "US"
      (mkCopyJobConfig WRITE_TRUNCATE) in
  snd r = Ok tt ->
  (exists table,
     reference table = temp
     /\ fst r
        = (create_table table
           :: (if is_view then []
               else match read_file (w_files w) (enrich_sql_path cfg task)
                            (Some (environment cfg)) with
                    | Ok sql =>
                        [query sql "US" (mkQueryJobConfig INTERACTIVE temp)]
                    | Raise _ => []
                    end)
           ++ [copy; delete_table temp])%list)
  /\ (forall o, In o (fst r) -> is_job o = true ->
      exists j, w_job w o = Ok j /\ reports_errors j = false
                /\ job_state j = "DONE")
  /\ w_delete_table w temp = Ok tt.
Proof.
  intros r temp copy. subst r temp copy.
  destruct is_view; stages; finished.
  all: intros Hok; try discriminate Hok.
  all: split; [eexists; split; [|reflexivity]; reflexivity|].
  all: split; [|exact Hok].
  all: intros o Hin Hjob; pick Hin; subst o; try discriminate Hjob.
  all: eexists; repeat split; eassumption.
Qed.

(** The theorem on a fair run in table mode. *)
Lemma completed_run_made_every_call_example :
  snd (run_enrich_task bitcoin loads_empty_schema format_covered fair_world
         "blocks" (Some "timestamp_month") false []) = Ok tt
  /\ (exists table,
        reference table = temp_table_ref bitcoin fair_world "blocks"
        /\ fst (run_enrich_task bitcoin loads_empty_schema format_covered
                  fair_world "blocks" (Some "timestamp_month") false [])
           = (create_table table
              :: (if false then []
                  else match read_file (w_files fair_world)
                               (enrich_sql_path bitcoin "blocks")
                               (Some (environment bitcoin)) with
                       | Ok sql =>
                           [query sql "US"
                              (mkQueryJobConfig INTERACTIVE
                                 (temp_table_ref bitcoin fair_world "blocks"))]
                       | Raise _ => []
                       end)
              ++ [copy_table (temp_table_ref bitcoin fair_world "blocks")
                    (dest_table_ref bitcoin "blocks") "US"
                    (mkCopyJobConfig WRITE_TRUNCATE);
                  delete_table (temp_table_ref bitcoin fair_world "blocks")])%list)
  /\ (forall o,
        In o (fst (run_enrich_task bitcoin loads_empty_schema format_covered
                     fair_world "blocks" (Some "timestamp_month") false [])) ->
        is_job o = true ->
        exists j, w_job fair_world o = Ok j /\ reports_errors j = false
                  /\ job_state j = "DONE")
  /\ w_delete_table fair_world (temp_table_ref bitcoin fair_world "blocks")
     = Ok tt.
Proof.
  assert (Hok : snd (run_enrich_task bitcoin loads_empty_schema format_covered
                       fair_world "blocks" (Some "timestamp_month") false [])
                = Ok tt) by (vm_compute; reflexivity).
  split; [exact Hok|].
  exact (completed_run_made_every_call bitcoin loads_empty_schema
           format_covered fair_world "blocks" (Some "timestamp_month") false
           Hok).
Defined.

(** X12: once the deletion of the temporary table is reached, its outcome is
    the outcome of the run: when the service refuses the deletion the
    enrichment raises although the copy has finished without errors and the
    destination table has been replaced. *)
Theorem refused_delete_fails_after_the_copy (cfg : config)
    (json_loads : string -> result json)
    (format_chain : string -> string -> result string) (w : world)
    (task : string) (tpf : option string) (is_view : bool) (e : exn) :
  let r := run_enrich_task cfg json_loads format_chain w task tpf is_view [] in
  let temp := temp_table_ref cfg w task in
  let copy :=
    copy_table temp (dest_table_ref cfg task) "US"
      (mkCopyJobConfig WRITE_TRUNCATE) in
  In (delete_table temp) (fst r) ->
  w_delete_table w temp = Raise e ->
  snd r = Raise e
  /\ In copy (fst r)
  /\ exists j, w_job w copy = Ok j /\ reports_errors j = false
               /\ job_state j = "DONE".
Proof.
  intros r temp copy. subst r temp copy.
  destruct is_view; stages; finished.
  all: intros Hin Hdel; pick Hin.
  all: split; [exact Hdel|]; split; [cbn [In]; tauto|].
  all: eexists; repeat split; eassumption.
Qed.

(** The theorem on a service that refuses the deletion. *)
Lemma refused_delete_fails_after_the_copy_example :
  In (delete_table (temp_table_ref bitcoin world_refusing_delete "outputs"))
     (fst (run_enrich_task bitcoin loads_empty_schema format_covered
             world_refusing_delete "outputs" None true []))
  /\ w_delete_table world_refusing_delete
       (temp_table_ref bitcoin world_refusing_delete "outputs")
     = Raise GoogleAPIError
  /\ snd (run_enrich_task bitcoin loads_empty_schema format_covered
            world_refusing_delete "outputs" None true [])
     = Raise GoogleAPIError
  /\ In (copy_table (temp_table_ref bitcoin world_refusing_delete "outputs")
           (dest_table_ref bitcoin "outputs") "US"
           (mkCopyJobConfig WRITE_TRUNCATE))
        (fst (run_enrich_task bitcoin loads_empty_schema format_covered
                world_refusing_delete "outputs" None true []))
  /\ exists j,
       w_job world_refusing_delete
         (copy_table (temp_table_ref bitcoin world_refusing_delete "outputs")
            (dest_table_ref bitcoin "outputs") "US"
            (mkCopyJobConfig WRITE_TRUNCATE)) = Ok j
       /\ reports_errors j = false /\ job_state j = "DONE".
Proof.
  assert (Hin : In (delete_table
                      (temp_table_ref bitcoin world_refusing_delete "outputs"))
                   (fst (run_enrich_task bitcoin loads_empty_schema
                           format_covered world_refusing_delete "outputs"
                           None true [])))
    by (vm_compute; tauto).
  split; [exact Hin|]. split; [reflexivity|].
  exact (refused_delete_fails_after_the_copy bitcoin loads_empty_schema
           format_covered world_refusing_delete "outputs" None true
           GoogleAPIError Hin eq_refl).
Defined.

(** X13: the temporary table is created once, as the first call of the run,
    with the given partitioning field and with the content of the
    description file as it is (no placeholder is substituted in it); in table
    mode it carries the schema of the schema file and no view query, in view
    mode a view query in standard SQL and no schema, and a run in view mode
    submits no query job. *)
Theorem created_temporary_table (cfg : config)
    (json_loads : string -> result json)
    (format_chain : string -> string -> result string) (w : world)
    (task : string) (tpf : option string) (is_view : bool) (table : Table) :
  let r := run_enrich_task cfg json_loads format_chain w task tpf is_view [] in
  In (create_table table) (fst r) ->
  (exists rest, fst r = create_table table :: rest
                /\ forall table', ~ In (create_table table') rest)
  /\ reference table = temp_table_ref cfg w task
  /\ time_partitioning table = tpf
  /\ (exists content,
        w_files w (enrich_description_path cfg task) = Some content
        /\ description table = Some content)
  /\ (if is_view
      then schema table = [] /\ view_use_legacy_sql table = Some false
           /\ view_query table <> None
           /\ forall sql location job_config,
                ~ In (query sql location job_config) (fst r)
      else view_query table = None /\ view_use_legacy_sql table = None
           /\ read_bigquery_schema_from_file json_loads (w_files w)
                (enrich_schema_path cfg task) = Ok (schema table)).
Proof.
  intros r. subst r.
  assert (Hdesc : forall d,
             read_file (w_files w) (enrich_description_path cfg task) None
             = Ok d ->
             w_files w (enrich_description_path cfg task) = Some d).
  { intros d. rewrite read_file_without_environment.
    destruct (w_files w (enrich_description_path cfg task)); [|discriminate].
    now intros [= ->]. }
  destruct is_view; stages.
  all: intros Hin; pick Hin; injection Hin as <-.
  all: split; [eexists; split; [reflexivity|];
               intros table' Hin; now pick Hin|].
  all: split; [reflexivity|]; split; [reflexivity|].
  all: split; [eexists; split; [apply Hdesc; reflexivity|reflexivity]|].
  all: cbn [schema view_use_legacy_sql view_query].
  all: repeat split; try discriminate; try assumption.
  all: intros sql location job_config Hin; now pick Hin.
Qed.

(** The theorem on the table created by a fair run in view mode. *)
Lemma created_temporary_table_example :
  In (create_table
        (mkTable (temp_table_ref bitcoin fair_world "inputs")
           (Some "Transactions of the chain") None []
           (Some "SELECT * FROM {dataset_name}.transactions") (Some false)))
     (fst (run_enrich_task bitcoin loads_empty_schema format_covered
             fair_world "inputs" None true []))
  /\ (exists rest,
        fst (run_enrich_task bitcoin loads_empty_schema format_covered
               fair_world "inputs" None true [])
        = create_table
            (mkTable (temp_table_ref bitcoin fair_world "inputs")
               (Some "Transactions of the chain") None []
               (Some "SELECT * FROM {dataset_name}.transactions")
               (Some false)) :: rest
        /\ forall table', ~ In (create_table table') rest).
Proof.
  assert (Hin : In (create_table
                      (mkTable (temp_table_ref bitcoin fair_world "inputs")
                         (Some "Transactions of the chain") None []
                         (Some "SELECT * FROM {dataset_name}.transactions")
                         (Some false)))
                   (fst (run_enrich_task bitcoin loads_empty_schema
                           format_covered fair_world "inputs" None true [])))
    by (vm_compute; tauto).
  split; [exact Hin|].
  exact (proj1 (created_temporary_table bitcoin loads_empty_schema
                  format_covered fair_world "inputs" None true _ Hin)).
Defined.

(** X14: a load task makes at most one call, a load job from
    [gs://bucket/export/task/*.format] into the table of the task in the raw
    dataset of the chain, which replaces the table (WRITE_TRUNCATE), ignores
    unknown values and, only for the format "csv", reads CSV and skips one
    leading row; it makes no call when the schema cannot be read, and it
    returns normally only if the job finished without errors in state
    DONE. *)
Theorem load_task_submits_one_load_job (cfg : config)
    (json_loads : string -> result json) (w : world)
    (task file_format : string) (allow : bool) :
  let r := run_load_task cfg json_loads w task file_format allow [] in
  (forall o, In o (fst r) ->
     exists schema,
       read_bigquery_schema_from_file json_loads (w_files w)
         (raw_schema_path cfg task) = Ok schema
       /\ fst r = [o]
       /\ o = load_table_from_uri
                (("gs://" ++ output_bucket cfg ++ "/export") ++ "/" ++ task
                   ++ "/*." ++ file_format)
                (mkTableReference (w_project w) (chain cfg ++ "_blockchain_raw")
                   task)
                (mkLoadJobConfig schema
                   (if file_format =? "csv" then CSV
                    else NEWLINE_DELIMITED_JSON)
                   (if file_format =? "csv" then Some 1%Z else None)
                   "WRITE_TRUNCATE" allow true))
  /\ (fst r = [] <->
      is_ok (read_bigquery_schema_from_file json_loads (w_files w)
               (raw_schema_path cfg task)) = false)
  /\ (snd r = Ok tt ->
      exists o j, fst r = [o] /\ w_job w o = Ok j
                  /\ reports_errors j = false /\ job_state j = "DONE").
Proof.
  intros r. subst r. rewrite run_load_task_eq. cbv zeta.
  destruct (read_bigquery_schema_from_file json_loads (w_files w)
              (raw_schema_path cfg task)) as [schema|e].
  - destruct (finished_job w _) as [j|e] eqn:Ejob; cbn [fst snd is_ok].
    all: split; [intros o [<-|[]]; exists schema; repeat split|].
    all: split; [split; intros H; discriminate H|].
    all: intros H; try discriminate H.
    apply finished_job_ok in Ejob. destruct Ejob as (Hj & He & Hs).
    eexists. exists j. split; [reflexivity|]. now repeat split.
  - cbn [fst snd is_ok]. split; [intros o []|].
    split; [now split|]. intros H. discriminate H.
Qed.

(** The loads of the pipeline read newline-delimited JSON. *)
Example load_of_blocks_evaluated :
  run_load_task bitcoin loads_empty_schema fair_world "blocks" "json" false []
  = ([load_table_from_uri "gs://bitcoin-etl-export/export/blocks/*.json"
        (mkTableReference "etl-project" "bitcoin_blockchain_raw" "blocks")
        (mkLoadJobConfig [] NEWLINE_DELIMITED_JSON None "WRITE_TRUNCATE" false
           true)],
     Ok tt).
Proof. vm_compute. reflexivity. Qed.

(** ** More on the schema loader *)

(** What a successful loop body has seen. *)
Lemma schema_of_field_ok (members : list (string * json)) (f : SchemaField) :
  schema_of_field members = Ok f ->
  exists ty,
    get "type" members = Some (JString ty)
    /\ (((Str.lower ty =? "record") && truthy (get_none "fields" members) = true
         /\ exists children,
              read_bigquery_schema_from_json_recursive
                (get_none "fields" members) = Ok children
              /\ f = mkSchemaField (get_none "name" members) (JString ty)
                       (get_default "mode" (JString "NULLABLE") members)
                       (get_none "description" members) children)
        \/ ((Str.lower ty =? "record") && truthy (get_none "fields" members)
            = false
            /\ f = mkSchemaField (get_none "name" members) (JString ty)
                     (get_default "mode" (JString "NULLABLE") members)
                     (get_none "description" members) [])).
Proof.
  unfold schema_of_field, type_is_record, get_default.
  destruct (get "type" members) as [[| | |ty| |]|] eqn:Hty; try discriminate.
  cbv zeta. intros H. exists ty. split; [reflexivity|].
  destruct ((Str.lower ty =? "record") && truthy (get_none "fields" members)).
  - left. split; [reflexivity|].
    destruct (read_bigquery_schema_from_json_recursive
                (get_none "fields" members)) as [children|e];
      [|discriminate H].
    exists children. split; [reflexivity|]. now injection H as <-.
  - right. split; [reflexivity|]. now injection H as <-.
Qed.

(** A list the loader accepts starts with a field object the loop body
    accepts, and the loader accepts the rest. *)
Lemma read_schema_cons_ok (field : json) (rest : list json)
    (result : list SchemaField) :
  read_bigquery_schema_from_json_recursive (JArray (field :: rest)) = Ok result ->
  exists members f result',
    field = JObject members
    /\ schema_of_field members = Ok f
    /\ read_bigquery_schema_from_json_recursive (JArray rest) = Ok result'
    /\ result = f :: result'.
Proof.
  destruct field as [| | | | |members];
    try (rewrite read_schema_not_object by discriminate; discriminate).
  rewrite read_schema_cons.
  destruct (schema_of_field members) as [f|e] eqn:Hf; [|discriminate].
  destruct (read_bigquery_schema_from_json_recursive (JArray rest))
    as [result'|e]; [|discriminate].
  intros H. injection H as <-. exists members, f, result'.
  repeat split. exact Hf.
Qed.

Lemma json_size_items (field : json) (rest : list json) :
  json_size (JArray (field :: rest)) = json_size field + json_size (JArray rest).
Proof. cbn [json_size]. lia. Qed.

Lemma accepted_is_description (n : nat) :
  forall items result,
    json_size (JArray items) <= n ->
    read_bigquery_schema_from_json_recursive (JArray items) = Ok result ->
    schema_description (JArray items).
Proof.
  induction n as [|n IH]; intros items result Hsize Hr.
  { cbn [json_size] in Hsize. lia. }
  constructor. revert result Hsize Hr.
  induction items as [|field rest IHrest]; intros result Hsize Hr;
    [constructor|].
  rewrite json_size_items in Hsize.
  destruct (read_schema_cons_ok _ _ _ Hr) as (members & f & result' & -> & Hf & Hrest & _).
  constructor.
  - destruct (schema_of_field_ok _ _ Hf) as (ty & Hty & Hcase).
    apply (field_object_intro members ty Hty). intros Hrec.
    destruct Hcase as [(_ & children & Hc & _)|(Hno & _)];
      [|rewrite Hrec in Hno; discriminate Hno].
    apply andb_true_iff in Hrec as [_ Htruthy].
    pose proof (get_size _ _ _ (truthy_get_none _ _ Htruthy)) as Hlt.
    destruct (get_none "fields" members) as [| | |s|nested|ms];
      try discriminate Hc.
    + now destruct s.
    + apply (IH nested children); [|exact Hc].
      assert (1 <= json_size (JArray rest)) by (cbn [json_size]; lia). lia.
    + now destruct ms.
  - apply (IHrest result'); [|exact Hrest].
    assert (1 <= json_size (JObject members)) by (cbn [json_size]; lia).
    lia.
Qed.

(** X15: the loader is all or nothing, and it accepts exactly the schema
    descriptions: it returns a schema for a loaded JSON value exactly when
    the value is a list of field objects, each with a string [type] and, where
    it is a RECORD with a non-empty value of [fields], with a list of such
    objects as that value, at every depth; or when the value is an empty
    object or an empty string, over which the loop does not iterate.  On any
    other value (one item that is not an object, one field without a string
    type, at any depth) the whole load raises. *)
Theorem loader_accepts_exactly_schema_descriptions (json_schema : json) :
  is_ok (read_bigquery_schema_from_json_recursive json_schema) = true
  <-> (schema_description json_schema
       \/ json_schema = JObject []
       \/ json_schema = JString EmptyString).
Proof.
  split.
  - destruct (read_bigquery_schema_from_json_recursive json_schema)
      as [result|e] eqn:Hr; [intros _|discriminate].
    destruct json_schema as [| | |s|items|ms]; try discriminate Hr.
    + destruct s; [now right; right | discriminate Hr].
    + left. exact (accepted_is_description _ items result (le_n _) Hr).
    + destruct ms; [now right; left | discriminate Hr].
  - intros [Hd|[->| ->]]; [|reflexivity|reflexivity].
    destruct (schema_description_items (json_size json_schema) json_schema
                (le_n _) Hd) as (items & result & _ & -> & _).
    reflexivity.
Qed.

(** X16: of a field object the loader reads the keys [name], [type], [mode],
    [description] and [fields] and no other: two objects that agree on these
    five keys, whatever else they hold and in whatever order, give the same
    result, error included. *)
Theorem loader_reads_five_keys (members members' : list (string * json))
    (rest : list json) :
  (forall key,
     In key ["name"; "type"; "mode"; "description"; "fields"] ->
     get key members = get key members') ->
  read_bigquery_schema_from_json_recursive (JArray (JObject members :: rest))
  = read_bigquery_schema_from_json_recursive (JArray (JObject members' :: rest)).
Proof.
  intros H. rewrite !read_schema_cons.
  unfold schema_of_field, type_is_record, get_none, get_default.
  rewrite (H "name"), (H "type"), (H "mode"), (H "description"), (H "fields");
    cbn [In]; tauto.
Qed.

Lemma loader_reads_five_keys_example :
  (forall key,
     In key ["name"; "type"; "mode"; "description"; "fields"] ->
     get key hash_field = get key hash_field_annotated)
  /\ read_bigquery_schema_from_json_recursive (JArray [JObject hash_field])
     = read_bigquery_schema_from_json_recursive
         (JArray [JObject hash_field_annotated]).
Proof.
  assert (H : forall key,
             In key ["name"; "type"; "mode"; "description"; "fields"] ->
             get key hash_field = get key hash_field_annotated).
  { intros key Hin. cbn [In] in Hin.
    repeat (destruct Hin as [<-|Hin]; [reflexivity|]). now elim Hin. }
  split; [exact H|].
  exact (loader_reads_five_keys hash_field hash_field_annotated [] H).
Defined.

Lemma children_in_records_eq (name field_type mode description : json)
    (fields : list SchemaField) :
  children_in_records (mkSchemaField name field_type mode description fields)
  = match fields with
    | [] => true
    | _ :: _ => is_record_type field_type
    end
    && forallb children_in_records fields.
Proof. reflexivity. Qed.

Lemma loaded_children_in_records (n : nat) :
  forall json_schema result,
    json_size json_schema <= n ->
    read_bigquery_schema_from_json_recursive json_schema = Ok result ->
    forallb children_in_records result = true.
Proof.
  induction n as [|n IH]; intros j result Hsize Hr.
  { destruct j; cbn [json_size] in Hsize; lia. }
  destruct j as [| | |s|items|ms]; try discriminate Hr.
  - destruct s; [|discriminate Hr]. now injection Hr as <-.
  - revert result Hsize Hr.
    induction items as [|field rest IHrest]; intros result Hsize Hr.
    { now injection Hr as <-. }
    rewrite json_size_items in Hsize.
    destruct (read_schema_cons_ok _ _ _ Hr)
      as (members & f & result' & -> & Hf & Hrest & ->).
    cbn [forallb]. apply andb_true_iff. split.
    + destruct (schema_of_field_ok _ _ Hf) as (ty & Hty & Hcase).
      destruct Hcase as [(Hrec & children & Hc & ->)|(_ & ->)];
        [|reflexivity].
      apply andb_true_iff in Hrec as [Hrec Htruthy].
      pose proof (get_size _ _ _ (truthy_get_none _ _ Htruthy)) as Hlt.
      rewrite children_in_records_eq. cbn [is_record_type]. rewrite Hrec.
      rewrite (IH (get_none "fields" members) children);
        [now destruct children| |exact Hc].
      assert (1 <= json_size (JArray rest)) by (cbn [json_size]; lia). lia.
    + apply (IHrest result'); [|exact Hrest].
      assert (1 <= json_size (JObject members)) by (cbn [json_size]; lia).
      lia.
  - destruct ms; [|discriminate Hr]. now injection Hr as <-.
Qed.

(** X17: in every schema the loader returns, a field that has nested fields
    is of type RECORD, at every depth: the loader descends into [fields] only
    under a type that lowers to [record], so of the data model's invariant
    (nested fields exactly under RECORD) the direction from nested fields to
    RECORD always holds. *)
Theorem loaded_children_only_in_records (json_schema : json)
    (result : list SchemaField) :
  read_bigquery_schema_from_json_recursive json_schema = Ok result ->
  forallb children_in_records result = true.
Proof.
  exact (loaded_children_in_records (json_size json_schema) json_schema result
           (le_n _)).
Qed.

Lemma loaded_children_only_in_records_example :
  exists result,
    read_bigquery_schema_from_json_recursive example_schema = Ok result
    /\ forallb children_in_records result = true.
Proof.
  eexists. split; [reflexivity|].
  apply (loaded_children_only_in_records example_schema). reflexivity.
Defined.

(** ** The SQL that reaches the service *)

Lemma pipeline_environment_ok (cfg : config) :
  brace_free (chain cfg) = true ->
  brace_free (destination_dataset_project_id cfg) = true ->
  environment_ok (environment cfg) = true.
Proof.
  intros Hc Hp. unfold environment_ok, environment.
  unfold dataset_name, dataset_name_raw, dataset_name_temp.
  cbn [forallb fst snd].
  rewrite !brace_free_append by (exact Hc || reflexivity).
  rewrite Hp. reflexivity.
Qed.

(** X18: the pipeline's environment on a template.  For a chain and a
    project id without braces, an SQL file made of brace-free text and of
    placeholders [{{key}}] reaches the service with the pipeline's values in
    place of [{{dataset_name}}], [{{dataset_name_raw}}],
    [{{dataset_name_temp}}] and [{{destination_dataset_project_id}}] and with
    every other placeholder as written: as the population query of
    [enrich_table], and as the query of the verification task
    [build_load_dag] builds for a rule of the chain. *)
Theorem queries_expand_templates (cfg : config) (fs : filesystem)
    (json_loads : string -> result json) (w : world) (task : string)
    (tpf : option string) (gs : list segment) :
  brace_free (chain cfg) = true ->
  brace_free (destination_dataset_project_id cfg) = true ->
  forallb segment_ok gs = true ->
  (w_files w (enrich_sql_path cfg task) = Some (render_all gs) ->
   forall sql location job_config,
     In (query sql location job_config)
        (fst (enrich_table cfg json_loads w task tpf [])) ->
     sql = expand_all (environment cfg) gs)
  /\ (forall rule dag,
        In rule (verification_rules cfg) ->
        fs (verify_sql_path cfg rule) = Some (render_all gs) ->
        build_load_dag cfg fs = Ok dag ->
        In (mkTask ("verify_" ++ rule)
              (BigQueryOperator (expand_all (environment cfg) gs) false))
           (tasks dag)).
Proof.
  intros Hc Hp Hgs.
  pose proof (substitute_render_all (environment cfg) gs
                (pipeline_environment_ok cfg Hc Hp) Hgs) as Hsub.
  split.
  - intros Hfile sql location job_config.
    assert (Hread : read_file (w_files w) (enrich_sql_path cfg task)
                      (Some (environment cfg))
                    = Ok (expand_all (environment cfg) gs))
      by (unfold read_file; now rewrite Hfile, Hsub).
    rewrite enrich_table_eq. cbv zeta. rewrite Hread.
    repeat stage; cbn [fst]; intros Hin; pick Hin.
    all: now injection Hin as <- _ _.
  - intros rule dag Hrule Hfile Hbuild.
    apply build_load_dag_ok in Hbuild as [_ ->].
    cbn [tasks dag_table]. apply in_or_app. right.
    apply in_map_iff. exists rule. split; [|exact Hrule].
    unfold verify_of, verify_sql. now rewrite Hfile, Hsub.
Qed.

(** The theorem on the bitcoin pipeline and the SQL files of
    [example_files]. *)
Lemma queries_expand_templates_example :
  brace_free (chain bitcoin) = true
  /\ brace_free (destination_dataset_project_id bitcoin) = true
  /\ forallb segment_ok transactions_template = true
  /\ w_files fair_world (enrich_sql_path bitcoin "blocks")
     = Some (render_all transactions_template)
  /\ In (query "SELECT * FROM bitcoin_blockchain.transactions" "US"
           (mkQueryJobConfig INTERACTIVE
              (temp_table_ref bitcoin fair_world "blocks")))
        (fst (enrich_table bitcoin loads_empty_schema fair_world "blocks"
                (Some "timestamp_month") []))
  /\ "SELECT * FROM bitcoin_blockchain.transactions"
     = expand_all (environment bitcoin) transactions_template.
Proof.
  assert (Hin : In (query "SELECT * FROM bitcoin_blockchain.transactions" "US"
                      (mkQueryJobConfig INTERACTIVE
                         (temp_table_ref bitcoin fair_world "blocks")))
                   (fst (enrich_table bitcoin loads_empty_schema fair_world
                           "blocks" (Some "timestamp_month") [])))
    by (vm_compute; tauto).
  repeat (split; [reflexivity|]). split; [exact Hin|].
  exact (proj1 (queries_expand_templates bitcoin example_files
                  loads_empty_schema fair_world "blocks"
                  (Some "timestamp_month") transactions_template
                  eq_refl eq_refl eq_refl)
           eq_refl _ _ _ Hin).
Defined.

(** ** What [str.format] makes of a view's SQL file *)

Lemma append_empty (s : string) : s ++ EmptyString = s.
Proof. induction s as [|c s IH]; cbn; now rewrite ?IH. Qed.

Lemma emit_prepend (c : ascii) (t : string) (r : option (result string)) :
  emit c (prepend t r) = prepend (String c t) r.
Proof. now destruct r as [[s|e]|]. Qed.

Lemma prepend_prepend (a b : string) (r : option (result string)) :
  prepend a (prepend b r) = prepend (a ++ b) r.
Proof. destruct r as [[s|e]|]; cbn; [|reflexivity..]. now rewrite append_assoc. Qed.

Lemma prepend_empty (r : option (result string)) : prepend EmptyString r = r.
Proof. now destruct r as [[s|e]|]. Qed.

(** A character other than a brace is literal text. *)
Lemma format_scan_text (chain : string) (c : ascii) (r : string) :
  is_brace c = false ->
  format_scan chain None (String c r) = emit c (format_scan chain None r).
Proof.
  destruct c as [[] [] [] [] [] [] [] []]; intros H;
    first [discriminate H | reflexivity].
Qed.

Lemma format_scan_literal (chain t r : string) :
  brace_free t = true ->
  format_scan chain None (t ++ r) = prepend t (format_scan chain None r).
Proof.
  induction t as [|c t IH]; intros H.
  - now rewrite prepend_empty.
  - cbn [brace_free] in H. apply andb_true_iff in H as [Hc Ht].
    apply negb_true_iff in Hc.
    change (String c t ++ r) with (String c (t ++ r)).
    now rewrite format_scan_text, IH, emit_prepend.
Qed.

(** The escapes [{{] and [}}] around a brace-free key. *)
Lemma format_scan_escaped (chain k r : string) :
  brace_free k = true ->
  format_scan chain None (placeholder k ++ r)
  = prepend ("{" ++ k ++ "}") (format_scan chain None r).
Proof.
  intros Hk. unfold placeholder. rewrite !append_assoc.
  change ("{{" ++ k ++ "}}" ++ r) with (String "{" (String "{" (k ++ "}}" ++ r))).
  change (format_scan chain None (String "{" (String "{" (k ++ "}}" ++ r))))
    with (emit "{" (format_scan chain None (k ++ "}}" ++ r))).
  rewrite (format_scan_literal chain k ("}}" ++ r) Hk).
  change (format_scan chain None ("}}" ++ r))
    with (emit "}" (format_scan chain None r)).
  change (emit "}" (format_scan chain None r))
    with (prepend "}" (format_scan chain None r)).
  now rewrite prepend_prepend, emit_prepend.
Qed.

Lemma format_plain_template (chain : string) (gs : list segment) :
  forallb segment_ok gs = true ->
  format_plain (render_all gs) chain = Some (Ok (unescape_all gs)).
Proof.
  unfold format_plain. induction gs as [|g gs IH]; intros H; [reflexivity|].
  cbn [forallb] in H. apply andb_true_iff in H as [Hg Hgs].
  cbn [render_all unescape_all].
  destruct g as [t|k]; cbn [segment_ok render unescape] in *.
  - rewrite (format_scan_literal chain t _ Hg), (IH Hgs). reflexivity.
  - rewrite (format_scan_escaped chain k _ Hg), (IH Hgs). reflexivity.
Qed.

(** The field [{chain}]. *)
Lemma format_scan_chain (chain r : string) :
  format_scan chain None ("{chain}" ++ r)
  = prepend chain (format_scan chain None r).
Proof.
  unfold prepend. cbn. now destruct (format_scan chain None r) as [[s|e]|].
Qed.

Lemma format_plain_concat (chain : string) (parts : list string) :
  forallb brace_free parts = true ->
  format_plain (String.concat "{chain}" parts) chain
  = Some (Ok (String.concat chain parts)).
Proof.
  unfold format_plain. induction parts as [|p parts IH]; intros H;
    [reflexivity|].
  cbn [forallb] in H. apply andb_true_iff in H as [Hp Hparts].
  destruct parts as [|q parts].
  - cbn [String.concat]. rewrite <- (append_empty p) at 1.
    rewrite (format_scan_literal chain p EmptyString Hp).
    cbn. now rewrite append_empty.
  - change (String.concat "{chain}" (p :: q :: parts))
      with (p ++ "{chain}" ++ String.concat "{chain}" (q :: parts)).
    change (String.concat chain (p :: q :: parts))
      with (p ++ chain ++ String.concat chain (q :: parts)).
    rewrite (format_scan_literal chain p _ Hp), format_scan_chain, (IH Hparts).
    reflexivity.
Qed.

(** A character of a field name. *)
Lemma format_scan_name_char (chain name : string) (c : ascii) (r : string) :
  is_brace c = false -> uncovered c = false ->
  format_scan chain (Some name) (String c r)
  = format_scan chain (Some (name ++ String c EmptyString)) r.
Proof.
  destruct c as [[] [] [] [] [] [] [] []]; intros H H';
    first [discriminate H | discriminate H' | reflexivity].
Qed.

Lemma format_scan_name (chain : string) (name so_far r : string) :
  plain_name name = true ->
  format_scan chain (Some so_far) (name ++ String "}" r)
  = match format_field chain (so_far ++ name) with
    | Raise e => Some (Raise e)
    | Ok value => prepend value (format_scan chain None r)
    end.
Proof.
  revert so_far. induction name as [|c name IH]; intros so_far H.
  - rewrite append_empty.
    change (EmptyString ++ String "}" r) with (String "}" r).
    cbn [format_scan]. destruct (format_field chain so_far); [|reflexivity].
    unfold prepend. now destruct (format_scan chain None r) as [[s|e]|].
  - cbn [plain_name] in H. apply andb_true_iff in H as [H Hname].
    apply andb_true_iff in H as [Hb Hu].
    apply negb_true_iff in Hb. apply negb_true_iff in Hu.
    change (String c name ++ String "}" r)
      with (String c (name ++ String "}" r)).
    rewrite (format_scan_name_char chain so_far c _ Hb Hu), (IH _ Hname).
    rewrite append_assoc. reflexivity.
Qed.

(** An opening brace followed by a character other than an opening brace
    starts a field. *)
Lemma format_scan_open (chain : string) (c : ascii) (r : string) :
  Ascii.eqb c "{"%char = false ->
  format_scan chain None (String "{" (String c r))
  = format_scan chain (Some EmptyString) (String c r).
Proof.
  destruct c as [[] [] [] [] [] [] [] []]; intros H;
    first [discriminate H | reflexivity].
Qed.

Lemma format_plain_other_field (chain before name after : string) :
  brace_free before = true ->
  plain_name name = true ->
  all_digits name = false ->
  (name =? "chain") = false ->
  format_plain (before ++ "{" ++ name ++ "}" ++ after) chain
  = Some (Raise KeyError).
Proof.
  intros Hb Hn Hd Hc. unfold format_plain.
  rewrite (format_scan_literal chain before _ Hb).
  destruct name as [|c name]; [discriminate Hd|].
  change ("{" ++ String c name ++ "}" ++ after)
    with (String "{" (String c (name ++ String "}" after))).
  rewrite format_scan_open.
  - change (String c (name ++ String "}" after))
      with (String c name ++ String "}" after).
    rewrite (format_scan_name chain (String c name) EmptyString after Hn).
    change (EmptyString ++ String c name) with (String c name).
    unfold format_field. rewrite Hc, Hd. reflexivity.
  - cbn [plain_name] in Hn. apply andb_true_iff in Hn as [Hn _].
    apply andb_true_iff in Hn as [Hn _]. apply negb_true_iff in Hn.
    unfold is_brace in Hn. now apply orb_false_iff in Hn as [Hn _].
Qed.

(** X19: a view's SQL file is not substituted but formatted.  Of a file made
    of brace-free text and of placeholders [{{key}}], [enrich_view] (with
    Python's [str.format(chain=chain)]) creates the view with the text as
    written and with every placeholder as [{key}], in single braces: the
    keys of the environment ([dataset_name] and the others) included, none
    of which is replaced by its value. *)
Theorem view_definition_keeps_placeholders (cfg : config) (w : world)
    (task : string) (tpf : option string) (gs : list segment) :
  w_files w (enrich_sql_path cfg task) = Some (render_all gs) ->
  forallb segment_ok gs = true ->
  format_covered (render_all gs) (chain cfg) = Ok (unescape_all gs)
  /\ forall table,
       In (create_table table)
          (fst (enrich_view cfg format_covered w task tpf [])) ->
       view_query table = Some (unescape_all gs).
Proof.
  intros Hfile Hgs.
  assert (Hformat : format_covered (render_all gs) (chain cfg)
                    = Ok (unescape_all gs))
    by (unfold format_covered; now rewrite format_plain_template).
  split; [exact Hformat|]. intros table.
  rewrite enrich_view_eq. cbv zeta. rewrite read_file_without_environment.
  rewrite Hfile, Hformat.
  repeat stage; cbn [fst]; intros Hin; pick Hin.
  all: now injection Hin as <-.
Qed.

(** The theorem on the view of the inputs of the bitcoin pipeline. *)
Lemma view_definition_keeps_placeholders_example :
  w_files fair_world (enrich_sql_path bitcoin "inputs")
  = Some (render_all transactions_template)
  /\ forallb segment_ok transactions_template = true
  /\ format_covered (render_all transactions_template) (chain bitcoin)
     = Ok "SELECT * FROM {dataset_name}.transactions"
  /\ forall table,
       In (create_table table)
          (fst (enrich_view bitcoin format_covered fair_world "inputs" None
                  [])) ->
       view_query table = Some "SELECT * FROM {dataset_name}.transactions".
Proof.
  split; [reflexivity|]. split; [reflexivity|].
  exact (view_definition_keeps_placeholders bitcoin fair_world "inputs" None
           transactions_template eq_refl eq_refl).
Defined.

(** X20: the one value a view's SQL file can take from the pipeline is the
    chain.  Of a file made of brace-free pieces of text with the field
    [{chain}] between them, [enrich_view] creates the view with the chain in
    place of every [{chain}]. *)
Theorem view_definition_names_the_chain (cfg : config) (w : world)
    (task : string) (tpf : option string) (parts : list string) :
  w_files w (enrich_sql_path cfg task)
  = Some (String.concat "{chain}" parts) ->
  forallb brace_free parts = true ->
  format_covered (String.concat "{chain}" parts) (chain cfg)
  = Ok (String.concat (chain cfg) parts)
  /\ forall table,
       In (create_table table)
          (fst (enrich_view cfg format_covered w task tpf [])) ->
       view_query table = Some (String.concat (chain cfg) parts).
Proof.
  intros Hfile Hparts.
  assert (Hformat : format_covered (String.concat "{chain}" parts) (chain cfg)
                    = Ok (String.concat (chain cfg) parts))
    by (unfold format_covered; now rewrite format_plain_concat).
  split; [exact Hformat|]. intros table.
  rewrite enrich_view_eq. cbv zeta. rewrite read_file_without_environment.
  rewrite Hfile, Hformat.
  repeat stage; cbn [fst]; intros Hin; pick Hin.
  all: now injection Hin as <-.
Qed.

(** The theorem on a view of the dogecoin pipeline. *)
Lemma view_definition_names_the_chain_example :
  w_files (fair_world_on chain_field_files) (enrich_sql_path dogecoin "outputs")
  = Some (String.concat "{chain}"
            ["SELECT * FROM "; "_blockchain.transactions"])
  /\ forallb brace_free ["SELECT * FROM "; "_blockchain.transactions"] = true
  /\ format_covered
       (String.concat "{chain}" ["SELECT * FROM "; "_blockchain.transactions"])
       (chain dogecoin)
     = Ok "SELECT * FROM dogecoin_blockchain.transactions"
  /\ forall table,
       In (create_table table)
          (fst (enrich_view dogecoin format_covered
                  (fair_world_on chain_field_files) "outputs" None [])) ->
       view_query table
       = Some "SELECT * FROM dogecoin_blockchain.transactions".
Proof.
  split; [reflexivity|]. split; [reflexivity|].
  exact (view_definition_names_the_chain dogecoin
           (fair_world_on chain_field_files) "outputs" None
           ["SELECT * FROM "; "_blockchain.transactions"] eq_refl eq_refl).
Defined.

(** X21: a view's SQL file that names any other field fails before a call
    is made.  Where brace-free text is followed by a field [{name}] whose
    name is not [chain] (and is a plain name, not a number),
    [str.format(chain=chain)] raises [KeyError], and [enrich_view] ends with
    that error without having created the temporary table or made any other
    call: the keys of the environment are not available to a view. *)
Theorem view_with_other_field_fails_first (cfg : config) (w : world)
    (task : string) (tpf : option string) (before name after : string) :
  w_files w (enrich_sql_path cfg task)
  = Some (before ++ "{" ++ name ++ "}" ++ after) ->
  brace_free before = true ->
  plain_name name = true ->
  all_digits name = false ->
  name <> "chain" ->
  enrich_view cfg format_covered w task tpf [] = ([], Raise KeyError).
Proof.
  intros Hfile Hb Hn Hd Hc. apply String.eqb_neq in Hc.
  rewrite enrich_view_eq. cbv zeta. rewrite read_file_without_environment.
  rewrite Hfile. unfold format_covered.
  now rewrite (format_plain_other_field (chain cfg) before name after Hb Hn Hd Hc).
Qed.

(** The theorem on a view whose file names [{dataset_name}]. *)
Lemma view_with_other_field_fails_first_example :
  w_files (fair_world_on other_field_files) (enrich_sql_path bitcoin "inputs")
  = Some ("SELECT * FROM " ++ "{" ++ "dataset_name" ++ "}" ++ ".transactions")
  /\ brace_free "SELECT * FROM " = true
  /\ plain_name "dataset_name" = true
  /\ all_digits "dataset_name" = false
  /\ "dataset_name" <> "chain"
  /\ enrich_view bitcoin format_covered (fair_world_on other_field_files)
       "inputs" None []
     = ([], Raise KeyError).
Proof.
  split; [reflexivity|]. split; [reflexivity|]. split; [reflexivity|].
  split; [reflexivity|]. split; [discriminate|].
  apply (view_with_other_field_fails_first bitcoin
           (fair_world_on other_field_files) "inputs" None
           "SELECT * FROM " "dataset_name" ".transactions").
  - reflexivity.
  - reflexivity.
  - reflexivity.
  - reflexivity.
  - discriminate.
Defined.

(** ** The recipients of notifications *)

Lemma split_on_nonempty (sep : ascii) (s : string) : split_on sep s <> [].
Proof.
  destruct s as [|c s]; cbn [split_on]; [discriminate|].
  destruct (Ascii.eqb c sep); [discriminate|].
  destruct (split_on sep s); discriminate.
Qed.

Lemma split_on_length (sep : ascii) (s : string) :
  List.length (split_on sep s) = S (count_char sep s).
Proof.
  induction s as [|c s IH]; [reflexivity|].
  cbn [split_on count_char]. destruct (Ascii.eqb c sep).
  - cbn [List.length]. now rewrite IH.
  - destruct (split_on sep s) as [|piece pieces] eqn:E;
      [now elim (split_on_nonempty sep s)|].
    cbn [List.length] in *. exact IH.
Qed.

Lemma split_on_pieces (sep : ascii) (s : string) :
  Forall (fun piece => count_char sep piece = 0) (split_on sep s).
Proof.
  induction s as [|c s IH]; [now repeat constructor|].
  cbn [split_on]. destruct (Ascii.eqb c sep) eqn:Ec.
  - now constructor.
  - destruct (split_on sep s) as [|piece pieces];
      [repeat constructor; cbn [count_char]; now rewrite Ec|].
    inversion IH as [|? ? Hp Hps]; subst. constructor; [|exact Hps].
    cbn [count_char]. now rewrite Ec.
Qed.

(** A piece without the separator, followed by the separator. *)
Lemma split_on_append (sep : ascii) (piece rest : string) :
  count_char sep piece = 0 ->
  split_on sep (piece ++ String sep rest) = piece :: split_on sep rest.
Proof.
  induction piece as [|c piece IH]; intros H.
  - cbn [append split_on]. now rewrite Ascii.eqb_refl.
  - cbn [count_char] in H.
    change (String c piece ++ String sep rest)
      with (String c (piece ++ String sep rest)).
    cbn [split_on]. destruct (Ascii.eqb c sep); [discriminate H|].
    now rewrite IH.
Qed.

Lemma split_on_single (sep : ascii) (piece : string) :
  count_char sep piece = 0 -> split_on sep piece = [piece].
Proof.
  induction piece as [|c piece IH]; intros H; [reflexivity|].
  cbn [count_char] in H. cbn [split_on].
  destruct (Ascii.eqb c sep); [discriminate H|]. now rewrite IH.
Qed.

Lemma count_char_append (c : ascii) (a b : string) :
  count_char c (a ++ b) = count_char c a + count_char c b.
Proof.
  induction a as [|x a IH]; [reflexivity|].
  change (String x a ++ b) with (String x (a ++ b)).
  cbn [count_char]. rewrite IH. lia.
Qed.

Lemma count_char_space (is_space : ascii -> bool) (c : ascii) (s : string) :
  is_space c = false -> all_space is_space s = true -> count_char c s = 0.
Proof.
  intros Hc. induction s as [|x s IH]; intros H; [reflexivity|].
  cbn [all_space] in H. apply andb_true_iff in H as [Hx Hs].
  cbn [count_char]. rewrite (IH Hs).
  destruct (Ascii.eqb_spec x c) as [->|_]; [congruence | reflexivity].
Qed.

Lemma lstrip_starts (is_space : ascii -> bool) (s : string) :
  starts_with_space is_space (lstrip is_space s) = false.
Proof.
  induction s as [|c s IH]; [reflexivity|].
  cbn [lstrip]. destruct (is_space c) eqn:E; [exact IH|].
  cbn [starts_with_space]. exact E.
Qed.

Lemma rstrip_ends (is_space : ascii -> bool) (s : string) :
  ends_with_space is_space (rstrip is_space s) = false.
Proof.
  induction s as [|c s IH]; [reflexivity|].
  cbn [rstrip]. destruct (rstrip is_space s) as [|x kept].
  - destruct (is_space c) eqn:E; [reflexivity|]. cbn [ends_with_space].
    exact E.
  - exact IH.
Qed.

Lemma rstrip_starts (is_space : ascii -> bool) (s : string) :
  starts_with_space is_space s = false ->
  starts_with_space is_space (rstrip is_space s) = false.
Proof.
  destruct s as [|c s]; [reflexivity|].
  cbn [starts_with_space rstrip]. intros H.
  destruct (rstrip is_space s); [|exact H].
  rewrite H. exact H.
Qed.

Lemma strip_trimmed (is_space : ascii -> bool) (s : string) :
  trimmed is_space (strip is_space s) = true.
Proof.
  unfold trimmed, strip.
  now rewrite rstrip_starts, rstrip_ends by apply lstrip_starts.
Qed.

Lemma lstrip_space (is_space : ascii -> bool) (before s : string) :
  all_space is_space before = true ->
  lstrip is_space (before ++ s) = lstrip is_space s.
Proof.
  induction before as [|c before IH]; intros H; [reflexivity|].
  cbn [all_space] in H. apply andb_true_iff in H as [Hc Hb].
  change (String c before ++ s) with (String c (before ++ s)).
  cbn [lstrip]. rewrite Hc. exact (IH Hb).
Qed.

Lemma lstrip_all_space (is_space : ascii -> bool) (s : string) :
  all_space is_space s = true -> lstrip is_space s = EmptyString.
Proof.
  intros H. rewrite <- (append_empty s).
  now rewrite lstrip_space.
Qed.

Lemma lstrip_kept (is_space : ascii -> bool) (s : string) :
  starts_with_space is_space s = false -> lstrip is_space s = s.
Proof.
  destruct s as [|c s]; [reflexivity|].
  cbn [starts_with_space lstrip]. now intros ->.
Qed.

Lemma rstrip_all_space (is_space : ascii -> bool) (s : string) :
  all_space is_space s = true -> rstrip is_space s = EmptyString.
Proof.
  induction s as [|c s IH]; intros H; [reflexivity|].
  cbn [all_space] in H. apply andb_true_iff in H as [Hc Hs].
  cbn [rstrip]. now rewrite (IH Hs), Hc.
Qed.

Lemma rstrip_space (is_space : ascii -> bool) (s after : string) :
  all_space is_space after = true ->
  rstrip is_space (s ++ after) = rstrip is_space s.
Proof.
  intros H. induction s as [|c s IH].
  - now apply rstrip_all_space.
  - change (String c s ++ after) with (String c (s ++ after)).
    cbn [rstrip]. now rewrite IH.
Qed.

Lemma rstrip_kept (is_space : ascii -> bool) (s : string) :
  ends_with_space is_space s = false -> rstrip is_space s = s.
Proof.
  induction s as [|c s IH]; [reflexivity|].
  destruct s as [|x s].
  - cbn [ends_with_space rstrip]. now intros ->.
  - intros H. change (ends_with_space is_space (String x s) = false) in H.
    cbn [rstrip] in *. now rewrite (IH H).
Qed.

Lemma strip_written (is_space : ascii -> bool) (a : written_address) :
  well_written is_space a = true ->
  strip is_space (written a) = address a
  /\ count_char "," (address a) = 0.
Proof.
  unfold well_written, written, strip, trimmed. intros H.
  apply andb_true_iff in H as [H Hcommas].
  apply andb_true_iff in H as [H Htrim].
  apply andb_true_iff in H as [Hb Ha].
  apply andb_true_iff in Htrim as [Hs He].
  apply negb_true_iff in Hs. apply negb_true_iff in He.
  apply Nat.eqb_eq in Hcommas. split; [|exact Hcommas].
  rewrite (lstrip_space is_space _ _ Hb).
  destruct (address a) as [|c s] eqn:E.
  - change (EmptyString ++ space_after a) with (space_after a).
    now rewrite (lstrip_all_space is_space _ Ha).
  - rewrite lstrip_kept.
    + rewrite (rstrip_space is_space _ _ Ha). now apply rstrip_kept.
    + exact Hs.
Qed.

Lemma written_commas (is_space : ascii -> bool) (a : written_address) :
  is_space ","%char = false ->
  well_written is_space a = true ->
  count_char "," (written a) = 0.
Proof.
  intros Hcomma H. pose proof (strip_written is_space a H) as [_ Hc].
  unfold well_written in H.
  apply andb_true_iff in H as [H _]. apply andb_true_iff in H as [H _].
  apply andb_true_iff in H as [Hb Ha].
  unfold written. rewrite !count_char_append, Hc.
  now rewrite (count_char_space is_space _ _ Hcomma Hb),
    (count_char_space is_space _ _ Hcomma Ha).
Qed.

Lemma split_written (is_space : ascii -> bool) (recipients : list written_address) :
  is_space ","%char = false ->
  recipients <> [] ->
  forallb (well_written is_space) recipients = true ->
  map (strip is_space) (split_on "," (String.concat "," (map written recipients)))
  = map address recipients.
Proof.
  intros Hcomma. induction recipients as [|a rest IH]; intros Hne H;
    [now elim Hne|].
  cbn [forallb] in H. apply andb_true_iff in H as [Ha Hrest].
  destruct rest as [|b rest].
  - cbn [map String.concat].
    rewrite (split_on_single _ _ (written_commas is_space a Hcomma Ha)).
    cbn [map]. now rewrite (proj1 (strip_written is_space a Ha)).
  - change (String.concat "," (map written (a :: b :: rest)))
      with (written a ++ String "," (String.concat "," (map written (b :: rest)))).
    rewrite (split_on_append _ _ _ (written_commas is_space a Hcomma Ha)).
    cbn [map] in *. rewrite (proj1 (strip_written is_space a Ha)).
    f_equal. apply IH; [discriminate | exact Hrest].
Qed.

(** X22: what [build_load_dag] makes of [notification_emails], whatever
    characters [str.strip()] counts as whitespace.  Without the argument, or
    with the empty string, the key [email] is not set.  Otherwise it is set to
    a list with one entry for every comma of the argument and one more; no
    entry holds a comma, and no entry starts or ends with whitespace.  An
    argument of commas or whitespace only still sets the key, to entries that
    are empty. *)
Theorem notification_emails_are_split_and_stripped
    (is_space : ascii -> bool) (notification_emails : string) :
  default_dag_args_email is_space None = None
  /\ default_dag_args_email is_space (Some EmptyString) = None
  /\ (notification_emails <> EmptyString ->
      exists emails,
        default_dag_args_email is_space (Some notification_emails)
        = Some emails
        /\ List.length emails = S (count_char "," notification_emails)
        /\ Forall (fun email => trimmed is_space email = true) emails
        /\ (is_space ","%char = false ->
            Forall (fun email => count_char "," email = 0) emails)
        /\ (all_space (fun c => is_space c || Ascii.eqb c ",")
              notification_emails = true ->
            Forall (fun email => email = EmptyString) emails)).
Proof.
  split; [reflexivity|]. split; [reflexivity|].
  intros Hne. unfold default_dag_args_email.
  apply String.eqb_neq in Hne. rewrite Hne.
  eexists. split; [reflexivity|].
  split; [now rewrite length_map, split_on_length|].
  split; [|split].
  - apply Forall_forall. intros email Hin.
    apply in_map_iff in Hin as [piece [<- _]]. apply strip_trimmed.
  - intros Hcomma. apply Forall_forall. intros email Hin.
    apply in_map_iff in Hin as [piece [<- Hin]].
    pose proof (split_on_pieces "," notification_emails) as Hp.
    rewrite Forall_forall in Hp. specialize (Hp piece Hin).
    clear Hin. unfold strip.
    assert (Hl : count_char "," (lstrip is_space piece) = 0).
    { induction piece as [|c piece IH]; [reflexivity|].
      cbn [lstrip]. destruct (is_space c); [|exact Hp].
      apply IH. cbn [count_char] in Hp. lia. }
    revert Hl. generalize (lstrip is_space piece). intros s.
    induction s as [|c s IH]; [reflexivity|].
    cbn [count_char rstrip]. intros H.
    assert (Hc : Ascii.eqb c "," = false)
      by (destruct (Ascii.eqb c ","); [discriminate H | reflexivity]).
    rewrite Hc in H. specialize (IH H).
    destruct (rstrip is_space s) as [|x kept].
    + destruct (is_space c); [reflexivity|].
      cbn [count_char]. now rewrite Hc.
    + cbn [count_char] in *. now rewrite Hc.
  - intros Hall. apply Forall_forall. intros email Hin.
    apply in_map_iff in Hin as [piece [<- Hin]].
    assert (Hpieces : Forall (fun piece => all_space is_space piece = true)
                        (split_on "," notification_emails)).
    { clear Hin Hne. induction notification_emails as [|c s IH];
        [now repeat constructor|].
      cbn [all_space] in Hall. apply andb_true_iff in Hall as [Hc Hs].
      specialize (IH Hs). cbn [split_on].
      destruct (Ascii.eqb c ",") eqn:Ec; [now constructor|].
      rewrite orb_false_r in Hc.
      destruct (split_on "," s) as [|p ps];
        [repeat constructor; cbn [all_space]; now rewrite Hc|].
      inversion IH as [|? ? Hp Hps]; subst. constructor; [|exact Hps].
      cbn [all_space]. now rewrite Hc, Hp. }
    rewrite Forall_forall in Hpieces. specialize (Hpieces piece Hin).
    unfold strip. now rewrite (lstrip_all_space is_space piece Hpieces).
Qed.

(** X23: the list of recipients is read back as it was written.  Where
    commas are not whitespace, addresses that hold no comma and neither start
    nor end with whitespace, written with any whitespace around each and
    joined by commas, are the entries of [default_dag_args['email']], in
    order (unless the text written is empty, which sets no key). *)
Theorem written_recipients_are_read_back (is_space : ascii -> bool)
    (recipients : list written_address) :
  is_space ","%char = false ->
  forallb (well_written is_space) recipients = true ->
  String.concat "," (map written recipients) <> EmptyString ->
  default_dag_args_email is_space
    (Some (String.concat "," (map written recipients)))
  = Some (map address recipients).
Proof.
  intros Hcomma Hw Hne. unfold default_dag_args_email.
  apply String.eqb_neq in Hne. rewrite Hne. f_equal.
  apply split_written; [exact Hcomma| |exact Hw].
  intros ->. apply String.eqb_neq in Hne. now apply Hne.
Qed.

(** The theorem on two recipients, with Python's whitespace. *)
Lemma written_recipients_are_read_back_example :
  python_space ","%char = false
  /\ forallb (well_written python_space) example_recipients = true
  /\ String.concat "," (map written example_recipients)
     = "ops@example.com, data@example.com "
  /\ default_dag_args_email python_space
       (Some "ops@example.com, data@example.com ")
     = Some ["ops@example.com"; "data@example.com"].
Proof.
  split; [reflexivity|]. split; [reflexivity|]. split; [reflexivity|].
  apply (written_recipients_are_read_back python_space example_recipients).
  - reflexivity.
  - reflexivity.
  - discriminate.
Defined.
